(** * ML-Notebooks: a shallow embedding of the notebooks' own code

    The repository is a set of Jupyter notebooks.  The code the notebooks
    define themselves is small: the text pipeline of the bag-of-words
    classifiers ([read_data], [create_dict], [create_tensor]), the [forward]
    methods of [BoW] and [CBoW], the hand-written network [Neural_Network]
    (forward, sigmoid, sigmoidPrime, backward, train), the training loops,
    and the reporting cell of the counterfactual-explanations notebook.
    Beside these stand [sentence_to_tensor], the [forward] of [DeepCBoW],
    the scaling cell of the from-scratch notebook, the cell that picks the
    user of the counterfactual notebook and the expression of the
    computational-graphs notebook.

    Conventions of the embedding
    - a Python [str] is a [string] of code points below 256;
    - a Python [dict] with string keys is a [gmap string nat];
    - a raised exception is the right injection of [result];
    - a [torch.float] tensor is a list (vector) or a list of rows (matrix)
      of real numbers: floating point rounding is not modelled, so the
      properties say which sums, products and derivatives the code forms
      and which shapes and bounds rounding keeps, not which digits come
      out;
    - a numpy array of the credit data is a list of rationals;
    - the calls into PyTorch's modules, losses and optimizers, into Python's
      [random] and into scikit-learn are fields of records of library
      operations; the code calls them through operations that put the call
      on record, so that the [event]s of a run are the calls it made;
      what CoGS found ([cogs.elite]) is an input of the reporting cell. *)

From Stdlib Require Import Reals Lra Lia List String Ascii QArith Qabs.
From stdpp Require Import gmap strings list fin_maps.

Open Scope string_scope.
Open Scope list_scope.

(** ** Exceptions *)

Inductive PyErr : Type :=
| IndexError
| KeyError
| ZeroDivisionError
| ValueError.

Definition result (A : Type) : Type := (A + PyErr)%type.

Definition ok {A} (a : A) : result A := inl a.
Definition raise {A} (e : PyErr) : result A := inr e.

Definition bind {A B} (r : result A) (k : A -> result B) : result B :=
  match r with
  | inl a => k a
  | inr e => inr e
  end.

Notation "'let*' x ':=' r 'in' k" := (bind r (fun x => k))
  (at level 10, x name, r at level 100, k at level 200).

Definition succeeds {A} (r : result A) : Prop := exists a, r = inl a.

(** [for x in xs: s = f(s, x)] where [f] may raise. *)
Fixpoint foldM {A S} (f : S -> A -> result S) (xs : list A) (s : S) : result S :=
  match xs with
  | [] => ok s
  | x :: xs' => let* s' := f s x in foldM f xs' s'
  end.

(** [[f(x) for x in xs]] where [f] may raise. *)
Fixpoint mapM {A B} (f : A -> result B) (xs : list A) : result (list B) :=
  match xs with
  | [] => ok []
  | x :: xs' => let* y := f x in let* ys := mapM f xs' in ok (y :: ys)
  end.

(** [xs[i]] on a Python list. *)
Definition index {A} (xs : list A) (i : nat) : result A :=
  match nth_error xs i with
  | Some x => ok x
  | None => raise IndexError
  end.

(** [d[k]] on a Python dict. *)
Definition getitem (d : gmap string nat) (k : string) : result nat :=
  match d !! k with
  | Some v => ok v
  | None => raise KeyError
  end.

(** ** The string builtins the notebooks call *)

Module PyStr.

(** [str.isspace] on one code point below 256. *)
Definition isspace (c : ascii) : bool :=
  let n := nat_of_ascii c in
  (((9 <=? n) && (n <=? 13)) || ((28 <=? n) && (n <=? 32))
   || (n =? 133) || (n =? 160))%nat.

(** [str.lower] on one code point below 256. *)
Definition lower_char (c : ascii) : ascii :=
  let n := nat_of_ascii c in
  if (((65 <=? n) && (n <=? 90))
      || ((192 <=? n) && (n <=? 222) && negb (n =? 215)))%nat
  then ascii_of_nat (n + 32)
  else c.

Fixpoint lower (s : string) : string :=
  match s with
  | EmptyString => EmptyString
  | String c s' => String (lower_char c) (lower s')
  end.

Fixpoint lstrip (s : string) : string :=
  match s with
  | EmptyString => EmptyString
  | String c s' => if isspace c then lstrip s' else s
  end.

Fixpoint rstrip (s : string) : string :=
  match s with
  | EmptyString => EmptyString
  | String c s' =>
      match rstrip s' with
      | EmptyString => if isspace c then EmptyString else String c EmptyString
      | r => String c r
      end
  end.

(** [s.strip()] *)
Definition strip (s : string) : string := rstrip (lstrip s).

(** [s.split(sep)] for a non-empty [sep]: the text is scanned from the
    left; where [sep] starts the current field ends and the scan goes on
    behind the separator.  [skip] counts the characters of a separator
    that was matched and is still to be passed over. *)
Fixpoint split_from (sep : string) (skip : nat) (s : string) : list string :=
  match s with
  | EmptyString => [EmptyString]
  | String c s' =>
      match skip with
      | S k => split_from sep k s'
      | O =>
          if String.prefix sep s
          then EmptyString :: split_from sep (String.length sep - 1) s'
          else match split_from sep 0 s' with
               | p :: ps => String c p :: ps
               | [] => [String c EmptyString]
               end
      end
  end.

Definition split (sep s : string) : list string := split_from sep 0 s.

(** [sep in s] *)
Definition contains (sep s : string) : Prop :=
  exists a b, s = (a ++ sep ++ b)%string.

(** The same, as a test. *)
Fixpoint containsb (sep s : string) : bool :=
  String.prefix sep s ||
  match s with
  | EmptyString => false
  | String _ s' => containsb sep s'
  end.

End PyStr.

(** ** The text pipeline of the BoW, CBOW and Deep CBOW notebooks

    The three notebooks carry the same cell; it is embedded once. *)

Module Vocab.

Definition sep : string := " ||| ".
Definition unk : string := "<unk>".

(** The two global dictionaries. *)
Record dicts : Type := Dicts {
  word_to_index : gmap string nat;
  tag_to_index : gmap string nat
}.

(** [read_data], on the lines of the file as [for line in f] yields them. *)
Definition read_data (f : list string) : list (list string) :=
  map (fun line => PyStr.split sep (PyStr.strip (PyStr.lower line))) f.

(** The start of the cell:
    [word_to_index = {}; word_to_index["<unk>"] = len(word_to_index);
     tag_to_index = {}]. *)
Definition init : dicts :=
  {| word_to_index := <[unk := size (∅ : gmap string nat)]> ∅;
     tag_to_index := ∅ |}.

(** The body of the inner loop of [create_dict]. *)
Definition add_word (check_unk : bool) (w2i : gmap string nat) (word : string)
  : result (gmap string nat) :=
  if negb check_unk then
    match w2i !! word with
    | None => ok (<[word := size w2i]> w2i)
    | Some _ => ok w2i
    end
  else
    match w2i !! word with
    | None => let* u := getitem w2i unk in ok (<[word := u]> w2i)
    | Some _ => ok w2i
    end.

Definition add_tag (t2i : gmap string nat) (tag : string) : gmap string nat :=
  match t2i !! tag with
  | None => <[tag := size t2i]> t2i
  | Some _ => t2i
  end.

(** The body of the outer loop of [create_dict]. *)
Definition create_dict_line (check_unk : bool) (d : dicts) (line : list string)
  : result dicts :=
  let* text := index line 1 in
  let* w2i := foldM (add_word check_unk) (PyStr.split " " text) (word_to_index d) in
  let* tag := index line 0 in
  ok {| word_to_index := w2i; tag_to_index := add_tag (tag_to_index d) tag |}.

Definition create_dict (data : list (list string)) (check_unk : bool) (d : dicts)
  : result dicts :=
  foldM (create_dict_line check_unk) data d.

(** One [yield] of [create_tensor]. *)
Definition create_tensor_line (d : dicts) (line : list string)
  : result (list nat * nat) :=
  let* text := index line 1 in
  let* ws := mapM (getitem (word_to_index d)) (PyStr.split " " text) in
  let* tag := index line 0 in
  let* t := getitem (tag_to_index d) tag in
  ok (ws, t).

(** [list(create_tensor(data))] *)
Definition create_tensor (d : dicts) (data : list (list string))
  : result (list (list nat * nat)) :=
  mapM (create_tensor_line d) data.

(** What the cell leaves behind. *)
Record prepared : Type := Prepared {
  after_train : dicts;   (* the dictionaries after [create_dict(train_data)] *)
  final : dicts;         (* ... and after [create_dict(test_data, check_unk=True)] *)
  train_data : list (list nat * nat);
  test_data : list (list nat * nat);
  number_of_words : nat;
  number_of_tags : nat
}.

(** The cell from [create_dict(train_data)] on. *)
Definition prepare (train test : list (list string)) : result prepared :=
  let* d1 := create_dict train false init in
  let* d2 := create_dict test true d1 in
  let* tr := create_tensor d2 train in
  let* te := create_tensor d2 test in
  ok {| after_train := d1; final := d2; train_data := tr; test_data := te;
        number_of_words := size (word_to_index d2);
        number_of_tags := size (tag_to_index d2) |}.

(** The words of a data set: those of [line[1].split(" ")], line by line. *)
Definition words_of (data : list (list string)) : list string :=
  flat_map (fun line => match nth_error line 1 with
                        | Some text => PyStr.split " " text
                        | None => []
                        end) data.

(** Indices are the numbers [0 .. size - 1], each used once, and
    ["<unk>"] has index 0. *)
Definition dense (m : gmap string nat) : Prop :=
  m !! unk = Some 0 /\
  (forall w i, m !! w = Some i -> i < size m) /\
  (forall w1 w2 i, m !! w1 = Some i -> m !! w2 = Some i -> w1 = w2).

(** How one phase of [create_dict] changes [word_to_index]: entries are
    kept; without [check_unk] the indices stay dense, with [check_unk]
    every new entry has index 0. *)
Definition grows (check_unk : bool) (m m' : gmap string nat) : Prop :=
  m ⊆ m' /\
  if check_unk
  then forall w i, m' !! w = Some i -> m !! w = Some i \/ i = 0
  else dense m -> dense m'.

(** A line whose words and tag are all in the dictionaries. *)
Definition covers (d : dicts) (line : list string) : Prop :=
  (forall text, nth_error line 1 = Some text ->
                forall w, In w (PyStr.split " " text) ->
                          is_Some (word_to_index d !! w)) /\
  (forall tag, nth_error line 0 = Some tag -> is_Some (tag_to_index d !! tag)).

(** A line on which [line[0]] and [line[1]] are both in range. *)
Definition two_fields (line : list string) : Prop := 2 <= length line.

End Vocab.

(** ** Tensors of reals *)

Module Tensor.

(** A matrix is the list of its rows.  A matrix without rows has no
    columns here; the tensors of the notebooks all have rows. *)
Definition vec : Type := list R.
Definition mat : Type := list (list R).

Definition zeros (n : nat) : vec := repeat 0%R n.

(** Entrywise operations on tensors of one shape. *)
Definition vadd (a b : vec) : vec := zip_with Rplus a b.
Definition mmap (f : R -> R) (m : mat) : mat := map (map f) m.
Definition mzip (f : R -> R -> R) (a b : mat) : mat := zip_with (zip_with f) a b.
Definition madd : mat -> mat -> mat := mzip Rplus.
Definition msub : mat -> mat -> mat := mzip Rminus.
Definition mmul : mat -> mat -> mat := mzip Rmult.

Definition vsum (a : vec) : R := fold_right Rplus 0%R a.
Definition dot (a b : vec) : R := vsum (zip_with Rmult a b).

Definition ncols (m : mat) : nat :=
  match m with
  | [] => 0
  | r :: _ => length r
  end.

Definition col (j : nat) (m : mat) : vec := map (fun r => nth j r 0%R) m.

(** [torch.t] *)
Definition t (m : mat) : mat := map (fun j => col j m) (seq 0 (ncols m)).

(** [torch.matmul] on two matrices. *)
Definition matmul (a b : mat) : mat :=
  map (fun row => map (fun c => dot row c) (t b)) a.

(** [torch.sum(m, dim=0)] for [m] with [n] columns: the sum of the rows,
    here a sum of reals, which does not depend on the order of the rows as
    a sum of floats does. *)
Definition sum_dim0 (n : nat) (m : mat) : vec := fold_left vadd m (zeros n).

(** [torch.mean] over all entries. *)
Definition mean (m : mat) : R :=
  (vsum (concat m) / INR (length (concat m)))%R.

(** [v.view(1, -1)] *)
Definition view_1 (v : vec) : mat := [v].

(** [nn.Embedding]: the rows of the weight at the given indices.  An index
    outside the weight raises; the error is the [IndexError] of a lookup
    on the CPU (on a CUDA device the lookup fails with a [RuntimeError]),
    and the properties below are about the lookups that return. *)
Definition embedding (weight : mat) (x : list nat) : result mat :=
  mapM (index weight) x.

(** [nn.Linear]: [h @ weight.T + bias], row by row. *)
Record Linear : Type := {
  weight : mat;
  bias : vec
}.

Definition linear (l : Linear) (h : mat) : mat :=
  map (fun row => vadd (map (fun w => dot row w) (weight l)) (bias l)) h.

(** The entry [j] of row [i]. *)
Definition entry (m : mat) (i j : nat) : R := nth j (nth i m []) 0%R.

(** A matrix of [r] rows and [c] columns. *)
Definition shape (r c : nat) (m : mat) : Prop :=
  length m = r /\ Forall (fun row => length row = c) m.

(** The sum of [f 0 .. f (n - 1)]. *)
Definition bigsum (n : nat) (f : nat -> R) : R :=
  fold_right Rplus 0%R (map f (seq 0 n)).

End Tensor.

(** ** The models of the BoW and CBOW notebooks *)

Module BoW.
Import Tensor.

(** [BoW(nwords, ntags)]: an embedding of [nwords] rows of [ntags] scores
    and a bias of [ntags] zeros. *)
Record t : Type := {
  nwords : nat;
  ntags : nat;
  embedding : mat;
  bias : vec
}.

Definition wf (m : t) : Prop :=
  length (embedding m) = nwords m /\
  Forall (fun row => length row = ntags m) (embedding m) /\
  length (bias m) = ntags m.

Definition forward (self : t) (x : list nat) : result mat :=
  let* emb := Tensor.embedding (embedding self) x in
  let out := vadd (sum_dim0 (ntags self) emb) (bias self) in
  let out := view_1 out in
  ok out.

End BoW.

Module CBoW.
Import Tensor.

(** [CBoW(nwords, ntags, emb_size)] *)
Record t : Type := {
  nwords : nat;
  ntags : nat;
  emb_size : nat;
  embedding : mat;
  linear : Linear
}.

Definition wf (m : t) : Prop :=
  length (embedding m) = nwords m /\
  Forall (fun row => length row = emb_size m) (embedding m).

Definition forward (self : t) (x : list nat) : result mat :=
  let* emb := Tensor.embedding (embedding self) x in
  let out := sum_dim0 (emb_size self) emb in
  let out := view_1 out in
  let out := Tensor.linear (linear self) out in
  ok out.

End CBoW.

(** What the glossary calls summing token embeddings: the sum over the
    tokens of [x] of column [j] of their embedding rows. *)
Definition token_sum (E : Tensor.mat) (x : list nat) (j : nat) : R :=
  fold_right Rplus 0%R (map (fun tok => Tensor.entry E tok j) x).

(** ** The network written by hand (Neural_Network_from_Scratch) *)

Module Neural_Network.
Import Tensor.

(** The attributes of the object.  [W1] and [W2] are drawn by
    [torch.randn]; the others are set by [forward] and [backward] and are
    read only after [forward] has set them, so they start empty here. *)
Record t : Type := {
  W1 : mat;
  W2 : mat;
  z : mat;
  z2 : mat;
  z3 : mat;
  o_error : mat;
  o_delta : mat;
  z2_error : mat;
  z2_delta : mat
}.

Definition inputSize : nat := 2.
Definition outputSize : nat := 1.
Definition hiddenSize : nat := 3.

(** [Neural_Network()], given what [torch.randn] drew. *)
Definition init (w1 w2 : mat) : t :=
  {| W1 := w1; W2 := w2; z := []; z2 := []; z3 := [];
     o_error := []; o_delta := []; z2_error := []; z2_delta := [] |}.

(** [1 / (1 + torch.exp(-s))], on one entry.  Over the reals it lies
    strictly between 0 and 1; the float it stands for lies between 0 and 1
    and reaches both ends. *)
Definition sigmoid (s : R) : R := (1 / (1 + exp (- s)))%R.

(** [s * (1 - s)], on one entry. *)
Definition sigmoidPrime (s : R) : R := (s * (1 - s))%R.

Definition forward (self : t) (X : mat) : mat * t :=
  let z := matmul X (W1 self) in
  let z2 := mmap sigmoid z in
  let z3 := matmul z2 (W2 self) in
  let o := mmap sigmoid z3 in
  (o, {| W1 := W1 self; W2 := W2 self; z := z; z2 := z2; z3 := z3;
         o_error := o_error self; o_delta := o_delta self;
         z2_error := z2_error self; z2_delta := z2_delta self |}).

Definition backward (self : t) (X y o : mat) : t :=
  let o_error := msub y o in
  let o_delta := mmul o_error (mmap sigmoidPrime o) in
  let z2_error := matmul o_delta (Tensor.t (W2 self)) in
  let z2_delta := mmul z2_error (mmap sigmoidPrime (z2 self)) in
  let W1' := madd (W1 self) (matmul (Tensor.t X) z2_delta) in
  let W2' := madd (W2 self) (matmul (Tensor.t (z2 self)) o_delta) in
  {| W1 := W1'; W2 := W2'; z := z self; z2 := z2 self; z3 := z3 self;
     o_error := o_error; o_delta := o_delta;
     z2_error := z2_error; z2_delta := z2_delta |}.

Definition train (self : t) (X y : mat) : t :=
  let (o, self) := forward self X in
  backward self X y o.

(** The values of the forward pass entry by entry: hidden unit [k] and
    the output on sample [i], and the error of the output scaled by
    [sigmoidPrime]. *)
Definition hidden (self : t) (X : mat) (i k : nat) : R :=
  sigmoid (bigsum inputSize (fun j => entry X i j * entry (W1 self) j k)%R).

Definition out (self : t) (X : mat) (i : nat) : R :=
  sigmoid (bigsum hiddenSize (fun k => hidden self X i k * entry (W2 self) k 0)%R).

Definition delta (self : t) (X y : mat) (i : nat) : R :=
  ((entry y i 0 - out self X i) * sigmoidPrime (out self X i))%R.

(** The two weights of the object, and what one call of [train] makes of
    them. *)
Definition weights (self : t) : mat * mat := (W1 self, W2 self).

Definition train_weights (X y : mat) (w : mat * mat) : mat * mat :=
  weights (train (init (fst w) (snd w)) X y).

End Neural_Network.

(** ** The training API, as the loops use it *)

(** The calls a run makes into the training API: [model.train()],
    [model.eval()], [random.shuffle], [model(x)], [criterion(output, y)],
    [optimizer.zero_grad()], [loss.backward()], [optimizer.step()],
    [torch.save]. *)
Inductive event : Type :=
| ETrainMode
| EEvalMode
| EShuffle
| ECall
| ECriterion
| EZeroGrad
| EBackward
| EStep
| ESave.

Definition event_eqb (a b : event) : bool :=
  match a, b with
  | ETrainMode, ETrainMode | EEvalMode, EEvalMode | EShuffle, EShuffle
  | ECall, ECall | ECriterion, ECriterion | EZeroGrad, EZeroGrad
  | EBackward, EBackward | EStep, EStep | ESave, ESave => true
  | _, _ => false
  end.

Definition count_event (e : event) (tr : list event) : nat :=
  length (filter (fun x => event_eqb e x = true) tr).

(** The calls of one pass of an inner training loop, of one epoch over
    [n] training and [m] test sentences, and of one iteration of the
    hello-world loop. *)
Definition train_events : list event :=
  [ECall; ECriterion; EZeroGrad; EBackward; EStep].

Definition epoch_events (n m : nat) : list event :=
  [ETrainMode; EShuffle] ++ concat (repeat train_events n)
  ++ [EEvalMode] ++ repeat ECall m.

Definition hello_events : list event :=
  [ETrainMode; ECall; ECriterion; EZeroGrad; EBackward; EStep; EEvalMode].

(** What a run prints, one constructor per [print] of the notebooks. *)
Inductive line : Type :=
| EpochLog (label : string) (n : nat) (loss_per_sent train_acc test_acc : R)
    (* f'{label}: {n} | train loss/sent: .. | train accuracy: .. | test accuracy: ..' *)
| HelloLog (n : nat) (loss : R)        (* 'Epoch: %d | Loss: %.4f' *)
| HelloPredicted (v : R)               (* print(predicted.detach().item()) *)
| ScratchLoss (i : nat) (loss : R)     (* "#" + str(i) + " Loss: " + str(..) *)
| PredictedHeader                      (* "Predicted data based on trained weights: " *)
| InputScaled (x : Tensor.vec)         (* "Input (scaled): \n" + str(xPredicted) *)
| OutputLine (o : Tensor.mat)          (* "Output: \n" + str(self.forward(xPredicted)) *)
| Finished.                            (* "Finished training!" *)

(** A line that reports a loss or an accuracy. *)
Definition reports_metric (l : line) : bool :=
  match l with
  | EpochLog _ _ _ _ _ | HelloLog _ _ | ScratchLoss _ _ => true
  | _ => false
  end.

(** [x / n] with [n] a length. *)
Definition pydiv (x : R) (n : nat) : result R :=
  if (n =? 0)%nat then raise ZeroDivisionError else ok (x / INR n)%R.

Module Torch.

(** A model with its optimizer and loss, as PyTorch gives them to the
    notebook: the parameters, their gradients and the optimizer's moments
    live in [module]. *)
Record lib (input target : Type) : Type := {
  module : Type;
  output : Type;
  loss : Type;
  call : module -> input -> output;          (* model(x) *)
  argmax : output -> nat;                    (* torch.argmax(..).item() *)
  criterion : output -> target -> loss;      (* criterion(output, y) *)
  item : loss -> R;                          (* loss.item() *)
  zero_grad : module -> module;              (* optimizer.zero_grad() *)
  backward : loss -> module -> module;       (* loss.backward() *)
  step : module -> module;                   (* optimizer.step() *)
  train_mode : module -> module;             (* model.train() *)
  eval_mode : module -> module               (* model.eval() *)
}.

Arguments module {input target} l.
Arguments output {input target} l.
Arguments loss {input target} l.
Arguments call {input target} l _ _.
Arguments argmax {input target} l _.
Arguments criterion {input target} l _ _.
Arguments item {input target} l _.
Arguments zero_grad {input target} l _.
Arguments backward {input target} l _ _.
Arguments step {input target} l _.
Arguments train_mode {input target} l _.
Arguments eval_mode {input target} l _.

(** The states of the model that the library's own transitions reach. *)
Inductive reaches {I T} (L : lib I T) (m0 : module L) : module L -> Prop :=
| reaches_refl : reaches L m0 m0
| reaches_zero_grad m : reaches L m0 m -> reaches L m0 (zero_grad L m)
| reaches_backward l m : reaches L m0 m -> reaches L m0 (backward L l m)
| reaches_step m : reaches L m0 m -> reaches L m0 (step L m)
| reaches_train_mode m : reaches L m0 m -> reaches L m0 (train_mode L m)
| reaches_eval_mode m : reaches L m0 m -> reaches L m0 (eval_mode L m).

(** Python's [random]: its generator state and [random.shuffle], which
    reorders the list it is given. *)
Record pyrandom (A : Type) : Type := {
  rng : Type;
  shuffle : rng -> list A -> list A * rng;
  shuffle_permutes : forall g l, Permutation l (fst (shuffle g l))
}.

Arguments rng {A} p.
Arguments shuffle {A} p _ _.
Arguments shuffle_permutes {A} p _ _.

(** The calls as a run makes them: each returns what the library returns
    and enters the log of the run.  The loops below call the library
    through these only. *)
Section Calls.
Context {I T : Type} (L : lib I T).

Definition model_call (m : module L) (x : I) (tr : list event)
  : output L * list event :=
  (call L m x, tr ++ [ECall]).

Definition criterion_call (o : output L) (t : T) (tr : list event)
  : loss L * list event :=
  (criterion L o t, tr ++ [ECriterion]).

Definition zero_grad_call (m : module L) (tr : list event)
  : module L * list event :=
  (zero_grad L m, tr ++ [EZeroGrad]).

Definition backward_call (l : loss L) (m : module L) (tr : list event)
  : module L * list event :=
  (backward L l m, tr ++ [EBackward]).

Definition step_call (m : module L) (tr : list event) : module L * list event :=
  (step L m, tr ++ [EStep]).

Definition train_mode_call (m : module L) (tr : list event)
  : module L * list event :=
  (train_mode L m, tr ++ [ETrainMode]).

Definition eval_mode_call (m : module L) (tr : list event)
  : module L * list event :=
  (eval_mode L m, tr ++ [EEvalMode]).

End Calls.

Definition shuffle_call {A} (P : pyrandom A) (g : rng P) (l : list A)
           (tr : list event) : list A * rng P * list event :=
  (shuffle P g l, tr ++ [EShuffle]).

End Torch.

(** ** The training loop of the BoW, CBOW and Deep CBOW notebooks *)

Module TextLoop.
Import Torch.

Definition example : Type := (list nat * nat)%type.

Section Loop.
Context (L : lib (list nat) nat) (P : pyrandom example).

(** The notebook's variables that the loop reads and writes. *)
Record state : Type := {
  model : module L;
  generator : rng P;
  train_data : list example;
  trace : list event;
  stdout : list line
}.

(** The body of [for sentence, tag in train_data]. *)
Definition train_step (acc : module L * R * nat * list event) (ex : example)
  : module L * R * nat * list event :=
  let '(m, total_loss, train_correct, tr) := acc in
  let (sentence, tag) := ex in
  let (output, tr) := model_call L m sentence tr in
  let predicted := argmax L output in
  let (loss, tr) := criterion_call L output tag tr in
  let total_loss := (total_loss + item L loss)%R in
  let (m, tr) := zero_grad_call L m tr in
  let (m, tr) := backward_call L loss m tr in
  let (m, tr) := step_call L m tr in
  let train_correct :=
    if (predicted =? tag)%nat then S train_correct else train_correct in
  (m, total_loss, train_correct, tr).

(** The body of [for sentence, tag in test_data]. *)
Definition test_step (m : module L) (acc : nat * list event) (ex : example)
  : nat * list event :=
  let (test_correct, tr) := acc in
  let (sentence, tag) := ex in
  let (output, tr) := model_call L m sentence tr in
  let predicted := argmax L output in
  let test_correct :=
    if (predicted =? tag)%nat then S test_correct else test_correct in
  (test_correct, tr).

(** One epoch: the body of [for ITER in range(10)]. *)
Definition epoch (label : string) (test_data : list example)
           (s : state) (ITER : nat) : result state :=
  let (m, tr) := train_mode_call L (model s) (trace s) in
  let '(td, g, tr) := shuffle_call P (generator s) (train_data s) tr in
  let '(m, total_loss, train_correct, tr) :=
    fold_left train_step td (m, 0%R, 0, tr) in
  let (m, tr) := eval_mode_call L m tr in
  let (test_correct, tr) := fold_left (test_step m) test_data (0, tr) in
  let* a := pydiv total_loss (length td) in
  let* b := pydiv (INR train_correct) (length td) in
  let* c := pydiv (INR test_correct) (length test_data) in
  ok {| model := m; generator := g; train_data := td; trace := tr;
        stdout := stdout s ++ [EpochLog label (ITER + 1) a b c] |}.

Definition epochs : nat := 10.

(** [train_bow(model, optimizer, criterion, train_data)] of the BoW
    notebook. *)
Definition train_bow (test_data : list example) (s : state) : result state :=
  foldM (epoch "ITER" test_data) (seq 0 epochs) s.

(** The loop at the top level of the CBOW and Deep CBOW notebooks. *)
Definition train_cbow (test_data : list example) (s : state) : result state :=
  foldM (epoch "epoch" test_data) (seq 0 epochs) s.

(** These loops as the claims word them: a pass over one
    example computes the loss by the library's criterion and updates the
    model by the library's optimizer (the gradients are cleared, the loss
    is back-propagated, the optimizer steps); an epoch shuffles the
    training data and makes one such update for each example, between
    [model.train()] and [model.eval()]. *)
Definition update (m : module L) (ex : example) : module L :=
  let loss := criterion L (call L m (fst ex)) (snd ex) in
  step L (backward L loss (zero_grad L m)).

Definition epoch_update (st : module L * rng P * list example)
  : module L * rng P * list example :=
  let '(m, g, td) := st in
  let (td, g) := shuffle P g td in
  (eval_mode L (fold_left update td (train_mode L m)), g, td).

End Loop.

Arguments model {L P} s.
Arguments generator {L P} s.
Arguments train_data {L P} s.
Arguments trace {L P} s.
Arguments stdout {L P} s.

End TextLoop.

(** ** The loop of the hello-world notebook *)

Module Hello.
Import Torch Tensor.

Section Loop.
Context (L : lib mat mat).

Record state : Type := {
  model : module L;
  trace : list event;
  stdout : list line
}.

Definition iterations : nat := 150.

(** The body of [for ITER in range(150)]. *)
Definition iteration (x y : mat) (s : state) (ITER : nat) : state :=
  let (m, tr) := train_mode_call L (model s) (trace s) in
  let (output, tr) := model_call L m x tr in
  let (loss, tr) := criterion_call L output y tr in
  let (m, tr) := zero_grad_call L m tr in
  let (m, tr) := backward_call L loss m tr in
  let (m, tr) := step_call L m tr in
  let (m, tr) := eval_mode_call L m tr in
  {| model := m;
     trace := tr;
     stdout := stdout s ++ [HelloLog ITER (item L loss)] |}.

Definition training (x y : mat) (s : state) : state :=
  fold_left (iteration x y) (seq 0 iterations) s.

(** The cell after the loop: [predicted = model(sample)] and its print;
    [scalar] reads the one entry of the output. *)
Definition test_cell (scalar : output L -> R) (sample : mat) (s : state) : state :=
  let (predicted, tr) := model_call L (model s) sample (trace s) in
  {| model := model s;
     trace := tr;
     stdout := stdout s ++ [HelloPredicted (scalar predicted)] |}.

(** This loop as the claims word it: an iteration
    computes the loss by the library's criterion and updates the model by
    the library's optimizer, between [model.train()] and [model.eval()]. *)
Definition update (x y : mat) (m : module L) : module L :=
  let m := train_mode L m in
  let loss := criterion L (call L m x) y in
  eval_mode L (step L (backward L loss (zero_grad L m))).

End Loop.

Arguments model {L} s.
Arguments trace {L} s.
Arguments stdout {L} s.

End Hello.

(** ** The loop of the from-scratch notebook *)

Module Scratch.
Import Tensor.

Record state : Type := {
  NN : Neural_Network.t;
  trace : list event;
  stdout : list line
}.

Definition iterations : nat := 1000.

(** [torch.mean((y - o)**2)] *)
Definition mse (y o : mat) : R := mean (mmap (fun d => d * d)%R (msub y o)).

(** The body of [for i in range(1000)]. *)
Definition iteration (X y : mat) (s : state) (i : nat) : state :=
  let s :=
    if (i mod 100 =? 0)%nat then
      let (o, nn) := Neural_Network.forward (NN s) X in
      {| NN := nn; trace := trace s ++ [ECall];
         stdout := stdout s ++ [ScratchLoss i (mse y o)] |}
    else s in
  {| NN := Neural_Network.train (NN s) X y;
     trace := trace s; stdout := stdout s |}.

Definition training (X y : mat) (s : state) : state :=
  fold_left (iteration X y) (seq 0 iterations) s.

(** [NN.saveWeights(NN); NN.predict(); print("Finished training!")] *)
Definition after_training (xPredicted : vec) (s : state) : state :=
  let (o, nn) := Neural_Network.forward (NN s) [xPredicted] in
  {| NN := nn; trace := trace s ++ [ESave];
     stdout := stdout s ++ [PredictedHeader; InputScaled xPredicted;
                            OutputLine o; Finished] |}.

(** The cell, from [NN = Neural_Network()] on, given the draws of
    [torch.randn]. *)
Definition notebook (w1 w2 X y : mat) (xPredicted : vec) : state :=
  after_training xPredicted
    (training X y {| NN := Neural_Network.init w1 w2; trace := []; stdout := [] |}).

(** The data of the notebook after its scaling cell:
    [X / X_max] with [X_max = (3, 9)], [y / 100], [xPredicted / 8]. *)
Definition X : mat := [[2 / 3; 9 / 9]; [1 / 3; 5 / 9]; [3 / 3; 6 / 9]]%R.
Definition y : mat := [[92 / 100]; [100 / 100]; [89 / 100]]%R.
Definition xPredicted : vec := [4 / 8; 8 / 8]%R.

End Scratch.

(** ** The counterfactual-explanations notebook *)

Module Counterfactual.

Definition array : Type := list Q.

(** scikit-learn, as the notebook uses it: the fitted forest, its
    [predict] and the two scores. *)
Record sklearn : Type := {
  forest : Type;
  predict : forest -> list array -> list Z;
  accuracy_score : list Z -> list Z -> Q;
  balanced_accuracy_score : list Z -> list Z -> Q
}.

(** numpy's global generator: its state, and [np.random.seed]. *)
Record numpy_random : Type := {
  generator : Type;
  seed : nat -> generator
}.

(** The calls of scikit-learn that draw random numbers.  Each takes its
    [random_state] argument ([None] or an integer) and the state of numpy's
    global generator, and returns its result with the state it leaves:
    [train_test_split(X, y, test_size=0.1, random_state=...)] and
    [RandomForestClassifier(random_state=..., class_weight="balanced",
    min_samples_leaf=25).fit(X_train, y_train)]. *)
Record sklearn_random (sk : sklearn) (np : numpy_random) : Type := {
  train_test_split :
    list array -> list Z -> option nat -> generator np ->
    ((list array * list array) * (list Z * list Z)) * generator np;
  fit :
    option nat -> list array -> list Z -> generator np -> forest sk * generator np
}.

Arguments train_test_split {sk np} _ _ _ _ _.
Arguments fit {sk np} _ _ _ _ _.

(** What scikit-learn documents of an integer [random_state]: the call
    draws from a generator of its own made from that integer, so it neither
    reads nor advances numpy's global generator. *)
Definition honours_random_state {sk np} (rs : sklearn_random sk np) : Prop :=
  (forall X y s g g',
      fst (train_test_split rs X y (Some s) g)
      = fst (train_test_split rs X y (Some s) g')) /\
  (forall X y s g, snd (train_test_split rs X y (Some s) g) = g) /\
  (forall X y s g g',
      fst (fit rs (Some s) X y g) = fst (fit rs (Some s) X y g')) /\
  (forall X y s g, snd (fit rs (Some s) X y g) = g).

Definition SEED : nat := 42.
Definition desired_class : Z := 1.

(** The calls into scikit-learn that a cell makes. *)
Inductive call : Type :=
| CSplit
| CFit
| CPredict
| CScore.

(** The lines that the cells print.  A line holds the values that the
    [print] is given; how they are shown belongs to the line: [Accuracy]
    shows its two scores with [{:.3f}], and [Change feat old new] shows
    [np.round(old, 3)] and [np.round(new, 3)]. *)
Inductive line : Type :=
| Accuracy (acc bal_acc : Q)            (* "acc:{:.3f}, bal.-acc:{:.3f}" *)
| Success                               (* "Success! Here's the explanation:" *)
| Change (feat : string) (old new : Q)  (* " Feature '{}' should change from '{}' to '{}'" *)
| Failure.                              (* "Failed to find a counterfactual explanation for the desired class :(" *)

(** [a - b] on one-dimensional arrays; shapes that differ broadcast when
    one of them has one entry and raise otherwise. *)
Definition np_sub (a b : array) : result array :=
  if (length a =? length b)%nat then ok (zip_with Qminus a b)
  else match a, b with
       | [a0], _ => ok (map (fun v => a0 - v)%Q b)
       | _, [b0] => ok (map (fun v => v - b0)%Q a)
       | _, _ => raise ValueError
       end.

(** [v != 0] *)
Definition nonzero (q : Q) : bool := negb (Qeq_bool q 0).

(** What the last cell leaves behind. *)
Record reported : Type := {
  cf_example : array;
  cf_explanation : array;
  printed : list line;
  calls : list call
}.

Section Cell.
Context (sk : sklearn).

(** [bbm.predict(xs)], with the call put on record. *)
Definition predict_call (bbm : forest sk) (xs : list array) (calls : list call)
  : list Z * list call :=
  (predict sk bbm xs, calls ++ [CPredict]).

(** The body of [for i, feat in enumerate(feature_names)]. *)
Definition explain_feature (x cf_example cf_explanation : array)
           (out : list line) (ifeat : nat * string) : result (list line) :=
  let (i, feat) := ifeat in
  let* d := index cf_explanation i in
  if nonzero d then
    let* old := index x i in
    let* new := index cf_example i in
    ok (out ++ [Change feat old new])
  else ok out.

Definition enumerate {A} (l : list A) : list (nat * A) :=
  combine (seq 0 (length l)) l.

(** The last cell, given [cogs.elite]. *)
Definition report (bbm : forest sk) (feature_names : list string)
           (x elite : array) : result reported :=
  let cf_example := elite in
  let* cf_explanation := np_sub elite x in
  let (p, calls) := predict_call bbm [cf_example] [] in
  let* c := index p 0 in
  let* out :=
    if (c =? desired_class)%Z then
      foldM (explain_feature x cf_example cf_explanation)
            (enumerate feature_names) [Success]
    else ok [Failure] in
  ok {| cf_example := cf_example; cf_explanation := cf_explanation;
        printed := out; calls := calls |}.

End Cell.

(** [x + d] on arrays of one shape. *)
Definition np_add (a b : array) : array := zip_with Qplus a b.

(** [d] is a smaller change than [e]: no entry of [d] is larger in absolute
    value than that of [e], and one is smaller. *)
Definition smaller (d e : array) : bool :=
  (length d =? length e)%nat
  && forallb (fun p => Qle_bool (Qabs (fst p)) (Qabs (snd p))) (combine d e)
  && existsb (fun p => negb (Qle_bool (Qabs (snd p)) (Qabs (fst p)))) (combine d e).

(** The lines of the success branch after its first, as the claim words
    them: one for each feature that the example changes, in the order of
    [feature_names], with the feature's value in [x] and in the example. *)
Definition changes (feature_names : list string) (x cf_example : array) : list line :=
  flat_map (fun ifeat : nat * string =>
              if Qeq_dec (nth (fst ifeat) cf_example 0%Q) (nth (fst ifeat) x 0%Q)
              then []
              else [Change (snd ifeat) (nth (fst ifeat) x 0%Q)
                           (nth (fst ifeat) cf_example 0%Q)])
           (combine (seq 0 (length feature_names)) feature_names).

Section Pipeline.
Context (sk : sklearn) (np : numpy_random) (rs : sklearn_random sk np).

(** What the cells up to the accuracy print leave behind. *)
Record trained : Type := {
  np_state : generator np;
  X_train : list array;
  X_test : list array;
  y_train : list Z;
  y_test : list Z;
  bbm : forest sk;
  shown : list line
}.

(** The cells, each from the state of numpy's generator that it finds to
    the one that it leaves. *)

(** [np.random.seed(SEED)] *)
Definition seed_cell (g : generator np) : generator np := seed np SEED.

(** [train_test_split(X, y, test_size=0.1, random_state=SEED)] *)
Definition split_cell (X : list array) (y : list Z) (g : generator np)
  : ((list array * list array) * (list Z * list Z)) * generator np :=
  train_test_split rs X y (Some SEED) g.

(** [bbm = RandomForestClassifier(random_state=SEED, ...)] and
    [bbm.fit(X_train, y_train)] *)
Definition fit_cell (X_train : list array) (y_train : list Z) (g : generator np)
  : forest sk * generator np :=
  fit rs (Some SEED) X_train y_train g.

(** The accuracy print. *)
Definition score_cell (bbm : forest sk) (X_test : list array) (y_test : list Z)
  : list line :=
  let acc := accuracy_score sk y_test (predict sk bbm X_test) in
  let bal := balanced_accuracy_score sk y_test (predict sk bbm X_test) in
  [Accuracy acc bal].

(** The cells in the order of the notebook.  [g0] is the state of numpy's
    generator when the notebook starts. *)
Definition pipeline (g0 : generator np) (X : list array) (y : list Z) : trained :=
  let g := seed_cell g0 in
  let '(((X_train, X_test), (y_train, y_test)), g) := split_cell X y g in
  let (bbm, g) := fit_cell X_train y_train g in
  {| np_state := g; X_train := X_train; X_test := X_test;
     y_train := y_train; y_test := y_test; bbm := bbm;
     shown := score_cell bbm X_test y_test |}.

End Pipeline.

End Counterfactual.

(** ** More of the notebooks' code *)

Module Cleaning.

(** What [read_data] does to a line before it splits it. *)
Definition clean (raw : string) : string := PyStr.strip (PyStr.lower raw).

End Cleaning.

Module Tags.

(** The tags of a data set: [line[0]], line by line. *)
Definition tags_of (data : list (list string)) : list string :=
  flat_map (fun line => match nth_error line 0 with
                        | Some tag => [tag]
                        | None => []
                        end) data.

(** The indices of a dictionary are the numbers [0 .. size - 1], each the
    index of one key. *)
Definition numbered (m : gmap string nat) : Prop :=
  (forall k i, m !! k = Some i -> i < size m) /\
  (forall k1 k2 i, m !! k1 = Some i -> m !! k2 = Some i -> k1 = k2) /\
  (forall i, i < size m -> exists k, m !! k = Some i).

End Tags.

Module Order.

(** The keys in the order in which a loop meets them for the first
    time. *)
Definition see (acc : list string) (w : string) : list string :=
  if decide (w ∈ acc) then acc else acc ++ [w].

Definition first_seen (ws : list string) : list string := fold_left see ws [].

(** A dictionary that numbers the keys of a list by their positions. *)
Definition numbers (m : gmap string nat) (order : list string) : Prop :=
  size m = length order /\
  forall w i, m !! w = Some i <-> order !! i = Some w.

End Order.

Module Pretest.

(** [sentence_to_tensor] of the BoW notebook, before the list becomes a
    [torch.LongTensor]. *)
Definition sentence_to_tensor (word_to_index : gmap string nat) (sentence : string)
  : result (list nat) :=
  mapM (getitem word_to_index) (PyStr.split " " sentence).

End Pretest.

(** The model of the Deep CBOW notebook.  The constructor builds
    [num_layers] linear layers; their shapes are as it builds them. *)
Module DeepCBoW.
Import Tensor.

Record t : Type := {
  nwords : nat;
  ntags : nat;
  hidden_size : nat;
  num_layers : nat;
  emb_size : nat;
  embedding : mat;
  linears : list Linear;
  output_layer : Linear
}.

(** The shapes that [__init__] gives: layer [i] takes [emb_size] inputs
    when [i] is 0 and [hidden_size] inputs otherwise, and the output layer
    takes [hidden_size] inputs; so a model without hidden layers needs
    [emb_size = hidden_size], as in the notebook. *)
Definition layer_wf (m : t) (i : nat) (l : Linear) : Prop :=
  shape (hidden_size m) (if (i =? 0)%nat then emb_size m else hidden_size m)
        (weight l) /\
  length (bias l) = hidden_size m.

Definition wf (m : t) : Prop :=
  shape (nwords m) (emb_size m) (embedding m) /\
  Forall2 (layer_wf m) (seq 0 (num_layers m)) (linears m) /\
  shape (ntags m) (hidden_size m) (weight (output_layer m)) /\
  length (bias (output_layer m)) = ntags m /\
  (num_layers m = 0 -> emb_size m = hidden_size m).

(** The body of [for i in range(self.num_layers)]. *)
Definition layer (self : t) (h : mat) (i : nat) : result mat :=
  let* l := index (linears self) i in
  ok (mmap tanh (linear l h)).

Definition hidden_layers (self : t) (h : mat) : result mat :=
  foldM (layer self) (seq 0 (num_layers self)) h.

Definition forward (self : t) (x : list nat) : result mat :=
  let* emb := Tensor.embedding (embedding self) x in
  let emb_sum := sum_dim0 (emb_size self) emb in
  let h := view_1 emb_sum in
  let* h := hidden_layers self h in
  let out := linear (output_layer self) h in
  ok out.

End DeepCBoW.

(** The expression of the computational-graphs notebook:
    [c = a + b; d = b + 1; e = c * d]. *)
Module Graph.

Definition c (a b : R) : R := (a + b)%R.
Definition d (b : R) : R := (b + 1)%R.
Definition e (a b : R) : R := (c a b * d b)%R.

End Graph.

(** The scaling cell of the from-scratch notebook.  [torch.max] of a
    tensor without entries raises; the tensors of the notebook have
    entries, and the maximum of no entries is 0 here. *)
Module Scaling.
Import Tensor.

(** The values of [torch.max(v, 0)] for a vector. *)
Definition vmax (v : vec) : R :=
  match v with
  | [] => 0%R
  | a :: rest => fold_left Rmax rest a
  end.

(** The values of [torch.max(X, 0)]: the maximum of each column. *)
Definition max_dim0 (X : mat) : vec := map (fun j => vmax (col j X)) (seq 0 (ncols X)).

(** [torch.div(X, X_max)], the row [X_max] broadcast over the rows.  The
    quotient of two positive floats is at least 0 and, when the divisor is
    the larger, at most 1; it can round to 0. *)
Definition div_rows (X : mat) (X_max : vec) : mat :=
  map (fun row => zip_with Rdiv row X_max) X.

(** [X = torch.div(X, torch.max(X, 0)[0])] *)
Definition scale (X : mat) : mat := div_rows X (max_dim0 X).

(** [xPredicted = torch.div(xPredicted, torch.max(xPredicted, 0)[0])] *)
Definition scale_vec (v : vec) : vec := map (fun a => a / vmax v)%R v.

(** The tensors of the data cell. *)
Definition X_raw : mat := [[2; 9]; [1; 5]; [3; 6]]%R.
Definition xPredicted_raw : vec := [4; 8]%R.

End Scaling.

(** The printed loss of the from-scratch loop as a function of one weight,
    the other weights being those of the network. *)
Module Descent.
Import Tensor Neural_Network.

(** [m] with the entry [j] of row [i] replaced by [v]. *)
Definition set_entry (m : list (list R)) (i j : nat) (v : R) : list (list R) :=
  <[i := <[j := v]> (nth i m [])]> m.

(** The network with one weight replaced. *)
Definition with_W1 (nn : Neural_Network.t) (j k : nat) (w : R) : Neural_Network.t :=
  init (set_entry (W1 nn) j k w) (W2 nn).

Definition with_W2 (nn : Neural_Network.t) (k : nat) (w : R) : Neural_Network.t :=
  init (W1 nn) (set_entry (W2 nn) k 0 w).

(** The loss that the loop prints, [torch.mean((y - NN(X))**2)], as a
    function of one weight. *)
Definition loss_in_W1 (nn : Neural_Network.t) (X y : mat) (j k : nat) (w : R) : R :=
  Scratch.mse y (fst (forward (with_W1 nn j k w) X)).

Definition loss_in_W2 (nn : Neural_Network.t) (X y : mat) (k : nat) (w : R) : R :=
  Scratch.mse y (fst (forward (with_W2 nn k w) X)).

(** The input of the last sigmoid on sample [i], as a function of the
    weight [W2[k][0]]. *)
Definition s2 (nn : Neural_Network.t) (X : mat) (k i : nat) (w : R) : R :=
  bigsum 3 (fun k' => hidden nn X i k'
                      * (if (k' =? k)%nat then w else entry (W2 nn) k' 0))%R.

(** The inputs of the hidden sigmoids and of the last sigmoid on sample
    [i], as functions of the weight [W1[j][k]]. *)
Definition u1 (nn : Neural_Network.t) (X : mat) (j k i k' : nat) (w : R) : R :=
  bigsum 2 (fun j' => entry X i j'
                      * (if ((j' =? j) && (k' =? k))%nat then w
                         else entry (W1 nn) j' k'))%R.

Definition s1 (nn : Neural_Network.t) (X : mat) (j k i : nat) (w : R) : R :=
  bigsum 3 (fun k' => sigmoid (u1 nn X j k i k' w) * entry (W2 nn) k' 0)%R.

(** What the from-scratch loop keeps: the weights have the shapes of
    [__init__], and every line printed so far shows a loss between 0 and
    1. *)
Definition inv (s : Scratch.state) : Prop :=
  shape 2 3 (W1 (Scratch.NN s)) /\ shape 3 1 (W2 (Scratch.NN s)) /\
  Forall (fun l => exists i v, l = ScratchLoss i v /\ (0 <= v <= 1)%R)
         (Scratch.stdout s).

End Descent.

(** The cell of the counterfactual notebook that picks the user:
    [idx = np.argwhere(p != desired_class).squeeze()[-1]; x = X_test[idx]]. *)
Module UserPick.
Import Counterfactual.

(** [np.argwhere(p != desired_class)], the indices counted from [k]. *)
Fixpoint argwhere_from (k : nat) (p : list Z) : list nat :=
  match p with
  | [] => []
  | c :: p' =>
      if (c =? desired_class)%Z then argwhere_from (S k) p'
      else k :: argwhere_from (S k) p'
  end.

(** [.squeeze()[-1]]: the array of shape (N, 1) becomes one of shape (N,),
    and its last entry is read; for N = 0 the index is out of bounds, and
    for N = 1 [squeeze] leaves an array without dimensions, which cannot
    be indexed. *)
Definition squeeze_last (l : list nat) : result nat :=
  match l with
  | [] => raise IndexError
  | [_] => raise IndexError
  | _ :: _ :: _ => ok (List.last l 0)
  end.

Definition pick (X_test : list array) (p : list Z) : result (nat * array) :=
  let* idx := squeeze_last (argwhere_from 0 p) in
  let* x := index X_test idx in
  ok (idx, x).

End UserPick.

(** ** Small data on which the statements below are tried *)

(** Two draws of [torch.randn] for the weights of [Neural_Network]. *)
Definition W1_zero : Tensor.mat := [[0; 0; 0]; [0; 0; 0]]%R.
Definition W2_zero : Tensor.mat := [[0]; [0]; [0]]%R.
Definition W2_other : Tensor.mat := [[2]; [0]; [0]]%R.

(** A stand-in for PyTorch that remembers the examples it was trained on:
    the output of the model is its input, the loss is the example, and
    [optimizer.step()] files the example that [loss.backward()] left. *)
Definition history_lib : Torch.lib (list nat) nat :=
  {| Torch.module := (list (list nat * nat) * option (list nat * nat))%type;
     Torch.output := list nat;
     Torch.loss := (list nat * nat)%type;
     Torch.call := fun _ x => x;
     Torch.argmax := fun _ => 0;
     Torch.criterion := fun o t => (o, t);
     Torch.item := fun _ => 0%R;
     Torch.zero_grad := fun m => (fst m, None);
     Torch.backward := fun l m => (fst m, Some l);
     Torch.step := fun m => match snd m with
                            | Some l => (fst m ++ [l], None)
                            | None => m
                            end;
     Torch.train_mode := fun m => m;
     Torch.eval_mode := fun m => m |}.

(** A stand-in for [random]: the generator is a coin, and [shuffle] turns
    the list around when the coin says so. *)
Program Definition coin_random (A : Type) : Torch.pyrandom A :=
  {| Torch.rng := bool;
     Torch.shuffle := fun g l => (if g then rev l else l, negb g) |}.
Next Obligation.
  intros A g l. destruct g; simpl; [apply Permutation_rev | reflexivity].
Qed.

Definition two_examples : list TextLoop.example := [([1], 0); ([2], 1)].

Definition text_start (g : bool)
  : TextLoop.state history_lib (coin_random TextLoop.example) :=
  TextLoop.Build_state history_lib (coin_random TextLoop.example)
                       ([], None) g two_examples [] [].

(** A model with three words and two tags. *)
Definition bow_example : BoW.t :=
  {| BoW.nwords := 3; BoW.ntags := 2;
     BoW.embedding := [[1; 2]; [3; 4]; [5; 6]]%R;
     BoW.bias := [0; 0]%R |}.

Definition sentence_example : list nat := [1; 2; 1].

(** A deep model with three words, two tags and one hidden layer of one
    unit over embeddings of size two. *)
Definition deep_example : DeepCBoW.t :=
  {| DeepCBoW.nwords := 3; DeepCBoW.ntags := 2; DeepCBoW.hidden_size := 1;
     DeepCBoW.num_layers := 1; DeepCBoW.emb_size := 2;
     DeepCBoW.embedding := [[1; 2]; [3; 4]; [5; 6]]%R;
     DeepCBoW.linears :=
       [{| Tensor.weight := [[1; 0]]%R; Tensor.bias := [0]%R |}];
     DeepCBoW.output_layer :=
       {| Tensor.weight := [[2]; [-3]]%R; Tensor.bias := [1; 0]%R |} |}.

(** Two training lines and a test line, as [read_data] returns them. *)
Definition corpus_train : list (list string) :=
  Vocab.read_data ["3 ||| I love dogs"; "1 ||| bad dogs"].

Definition corpus_test : list (list string) :=
  Vocab.read_data ["3 ||| i hate cats"].

(** A stand-in for the forest: class 1 ("low risk") when the first feature
    is at least 9/4, class 0 otherwise. *)
Definition threshold_sklearn : Counterfactual.sklearn :=
  {| Counterfactual.forest := unit;
     Counterfactual.predict :=
       fun _ xs => map (fun x : Counterfactual.array =>
                          match x with
                          | v :: _ => if Qle_bool (9 # 4) v then 1%Z else 0%Z
                          | [] => 0%Z
                          end) xs;
     Counterfactual.accuracy_score := fun _ _ => 0%Q;
     Counterfactual.balanced_accuracy_score := fun _ _ => 0%Q |}.

(** Stand-ins for the seeded cells.  The state of numpy's generator is the
    number it was seeded with plus the draws made since; a forest is the
    number it was grown from and predicts its parity; a split cuts off as
    test rows the first [k mod 2] rows, [k] the number it draws.  A call
    with an integer [random_state] draws that integer; a call with [None]
    draws from numpy's generator and advances it. *)
Definition counting_numpy : Counterfactual.numpy_random :=
  {| Counterfactual.generator := nat;
     Counterfactual.seed := fun s => s |}.

Definition agreement (y_true y_pred : list Z) : Q :=
  inject_Z (Z.of_nat (length (filter (fun p : Z * Z => (fst p =? snd p)%Z)
                                     (combine y_true y_pred)))).

Definition grown_sklearn : Counterfactual.sklearn :=
  {| Counterfactual.forest := nat;
     Counterfactual.predict :=
       fun f xs => map (fun _ : Counterfactual.array => Z.of_nat (f mod 2)) xs;
     Counterfactual.accuracy_score := agreement;
     Counterfactual.balanced_accuracy_score := agreement |}.

Definition cut (k : nat) (X : list Counterfactual.array) (y : list Z)
  : (list Counterfactual.array * list Counterfactual.array) * (list Z * list Z) :=
  ((skipn (k mod 2) X, firstn (k mod 2) X), (skipn (k mod 2) y, firstn (k mod 2) y)).

Definition drawing_sklearn
  : Counterfactual.sklearn_random grown_sklearn counting_numpy :=
  {| Counterfactual.train_test_split :=
       fun X y random_state (g : Counterfactual.generator counting_numpy) =>
         match random_state with
         | Some s => (cut s X y, g)
         | None => (cut g X y, S g)
         end;
     Counterfactual.fit :=
       fun random_state _ _ (g : Counterfactual.generator counting_numpy) =>
         match random_state
               return Counterfactual.forest grown_sklearn
                      * Counterfactual.generator counting_numpy with
         | Some s => (s, g)
         | None => (g, S g)
         end |}.

(** The example that the stand-in library filed first in a run. *)
Definition first_filed
           (r : result (TextLoop.state history_lib (coin_random TextLoop.example)))
  : option TextLoop.example :=
  match r with
  | inl s => hd_error (fst (TextLoop.model s))
  | inr _ => None
  end.

(** * Properties *)

(** ** The result monad *)

Lemma bind_ok {A B} (r : result A) (k : A -> result B) (b : B) :
  bind r k = inl b -> exists a, r = inl a /\ k a = inl b.
Proof. destruct r as [a|e]; simpl; [eauto | discriminate]. Qed.

Section ResultFacts.
Context {A B S : Type}.

Lemma foldM_invariant (I : S -> Prop) (f : S -> A -> result S) (xs : list A) :
  (forall s x s', In x xs -> I s -> f s x = inl s' -> I s') ->
  forall s s', I s -> foldM f xs s = inl s' -> I s'.
Proof.
  induction xs as [|x xs IH]; simpl; intros Hf s s' Hs H.
  - inversion H; subst; exact Hs.
  - apply bind_ok in H as (s1 & H1 & H2).
    apply (IH (fun s x s' Hin => Hf s x s' (or_intror Hin)) s1 s'); [|exact H2].
    eapply Hf; eauto.
Qed.

Lemma foldM_total (I : S -> Prop) (f : S -> A -> result S) (xs : list A) :
  (forall s x, In x xs -> I s -> exists s', f s x = inl s' /\ I s') ->
  forall s, I s -> exists s', foldM f xs s = inl s' /\ I s'.
Proof.
  induction xs as [|x xs IH]; simpl; intros Hf s Hs.
  - exists s; split; [reflexivity | exact Hs].
  - destruct (Hf s x (or_introl eq_refl) Hs) as (s1 & H1 & Hs1).
    rewrite H1; simpl. apply IH; [|exact Hs1].
    intros s0 x0 Hin; apply Hf; right; exact Hin.
Qed.

Lemma foldM_steps (f : S -> A -> result S) (xs : list A) (s s' : S) :
  foldM f xs s = inl s' ->
  forall x, In x xs -> exists s0 s1, f s0 x = inl s1.
Proof.
  revert s; induction xs as [|x xs IH]; simpl; intros s H y Hy; [tauto|].
  apply bind_ok in H as (s1 & H1 & H2).
  destruct Hy as [->|Hy]; [eauto | eapply IH; eauto].
Qed.

Lemma mapM_total (f : A -> result B) (xs : list A) :
  (forall x, In x xs -> exists y, f x = inl y) ->
  exists ys, mapM f xs = inl ys.
Proof.
  induction xs as [|x xs IH]; simpl; intros Hf; [eexists; reflexivity|].
  destruct (Hf x (or_introl eq_refl)) as (y & Hy); rewrite Hy; simpl.
  destruct IH as (ys & Hys); [intros; apply Hf; right; assumption|].
  rewrite Hys; simpl. eexists; reflexivity.
Qed.

Lemma mapM_ok (f : A -> result B) (xs : list A) (ys : list B) :
  mapM f xs = inl ys -> Forall2 (fun x y => f x = inl y) xs ys.
Proof.
  revert ys; induction xs as [|x xs IH]; simpl; intros ys H.
  - inversion H; constructor.
  - apply bind_ok in H as (y & Hy & H).
    apply bind_ok in H as (ys' & Hys & H).
    inversion H; subst. constructor; [exact Hy | apply IH; exact Hys].
Qed.

End ResultFacts.

Lemma index_ok_iff {A} (xs : list A) (i : nat) :
  succeeds (index xs i) <-> i < length xs.
Proof.
  unfold succeeds, index. split.
  - intros (a & H). destruct (nth_error xs i) eqn:E; [|discriminate].
    apply nth_error_Some. congruence.
  - intros H. apply nth_error_Some in H.
    destruct (nth_error xs i); [eexists; reflexivity | congruence].
Qed.

(** ** [str.split] *)

Module PyStrFacts.
Import PyStr.

Lemma append_nil_l (x : string) : (EmptyString ++ x)%string = x.
Proof. reflexivity. Qed.

Lemma append_cons (c : ascii) (a x : string) :
  (String c a ++ x)%string = String c (a ++ x)%string.
Proof. reflexivity. Qed.

Lemma prefix_append (sep s : string) :
  String.prefix sep s = true -> exists b, s = (sep ++ b)%string.
Proof.
  revert s; induction sep as [|c sep IH]; intros s H; simpl in *.
  - exists s; reflexivity.
  - destruct s as [|d s]; simpl in H; [discriminate|].
    destruct (ascii_dec c d) as [->|]; [|discriminate].
    destruct (IH s H) as (b & ->). exists b; reflexivity.
Qed.

Lemma append_prefix (sep b : string) : String.prefix sep (sep ++ b) = true.
Proof.
  induction sep as [|c sep IH]; simpl; [destruct b; reflexivity|].
  destruct (ascii_dec c c); [exact IH | congruence].
Qed.

#[local] Opaque String.prefix.

Lemma split_from_nonempty (sep : string) (s : string) (k : nat) :
  1 <= length (split_from sep k s).
Proof.
  revert k; induction s as [|c s IH]; intros k; simpl; [lia|].
  destruct k; [|apply IH].
  destruct (String.prefix sep (String c s)); simpl; [lia|].
  specialize (IH 0). destruct (split_from sep 0 s); simpl in *; lia.
Qed.

Lemma contains_cons (sep : string) (c : ascii) (s : string) :
  contains sep s -> contains sep (String c s).
Proof. intros (a & b & ->). exists (String c a), b. reflexivity. Qed.

Lemma contains_uncons (sep : string) (c : ascii) (s : string) :
  String.prefix sep (String c s) = false ->
  contains sep (String c s) -> contains sep s.
Proof.
  intros Hp (a & b & H). destruct a as [|d a].
  - rewrite H, append_nil_l, append_prefix in Hp. discriminate.
  - rewrite append_cons in H. inversion H; subst. exists a, b; reflexivity.
Qed.

Lemma split_from_two_contains (sep s : string) (k : nat) :
  2 <= length (split_from sep k s) -> contains sep s.
Proof.
  revert k; induction s as [|c s IH]; intros k; simpl; [lia|].
  destruct k as [|k].
  - destruct (String.prefix sep (String c s)) eqn:Hp.
    + intros _. destruct (prefix_append _ _ Hp) as (b & ->).
      exists EmptyString, b; reflexivity.
    + intros H. apply contains_cons, (IH 0).
      destruct (split_from sep 0 s); simpl in *; lia.
  - intros H. apply contains_cons, (IH k), H.
Qed.

Lemma contains_split_two (sep s : string) :
  sep <> EmptyString -> contains sep s -> 2 <= length (split sep s).
Proof.
  intros Hsep. unfold split. induction s as [|c s IH]; intros H.
  - destruct H as (a & b & H).
    destruct a, sep; rewrite ?append_nil_l, ?append_cons in H; congruence.
  - simpl. destruct (String.prefix sep (String c s)) eqn:Hp.
    + simpl. pose proof (split_from_nonempty sep s (String.length sep - 1)). lia.
    + specialize (IH (contains_uncons _ _ _ Hp H)).
      destruct (split_from sep 0 s); simpl in *; lia.
Qed.

(** [s.split(sep)] has a second field exactly when [sep] occurs in [s]. *)
Lemma split_two_iff (sep s : string) :
  sep <> EmptyString -> (2 <= length (split sep s) <-> contains sep s).
Proof.
  intros Hsep; split; [apply split_from_two_contains | apply contains_split_two, Hsep].
Qed.

Lemma split_nonempty (sep s : string) : 1 <= length (split sep s).
Proof. apply split_from_nonempty. Qed.

Lemma containsb_spec (sep s : string) :
  containsb sep s = true <-> contains sep s.
Proof.
  induction s as [|c s IH].
  - simpl. rewrite orb_false_r. split.
    + intros H. destruct (prefix_append _ _ H) as (b & Hb).
      exists EmptyString, b; exact Hb.
    + intros (a & b & H). destruct a; [|discriminate].
      rewrite H, append_nil_l. apply append_prefix.
  - simpl. destruct (String.prefix sep (String c s)) eqn:Hp; simpl.
    + split; [|reflexivity]. intros _.
      destruct (prefix_append _ _ Hp) as (b & Hb).
      exists EmptyString, b; exact Hb.
    + rewrite IH. split; [apply contains_cons | apply contains_uncons, Hp].
Qed.

End PyStrFacts.

(** ** The vocabulary *)

Module VocabFacts.
Import Vocab.

Lemma grows_refl b m : grows b m m.
Proof. split; [reflexivity|]. destruct b; auto. Qed.

Lemma grows_trans b m1 m2 m3 : grows b m1 m2 -> grows b m2 m3 -> grows b m1 m3.
Proof.
  intros [S12 H12] [S23 H23]. split; [etrans; eassumption|].
  destruct b; [|auto].
  intros w i H. destruct (H23 w i H) as [H'|]; [apply H12, H' | right; assumption].
Qed.

Lemma dense_init : dense (word_to_index init).
Proof.
  unfold init; simpl. split; [|split].
  - apply lookup_insert_eq.
  - intros w i H. apply lookup_insert_Some in H as [[_ <-]|[_ H]].
    + rewrite map_size_insert_None by apply lookup_empty. lia.
    + rewrite lookup_empty in H; discriminate.
  - intros w1 w2 i H1 H2.
    apply lookup_insert_Some in H1 as [[<- _]|[_ H1]];
      [|rewrite lookup_empty in H1; discriminate].
    apply lookup_insert_Some in H2 as [[<- _]|[_ H2]];
      [reflexivity | rewrite lookup_empty in H2; discriminate].
Qed.

Lemma dense_insert_fresh (m : gmap string nat) (w : string) :
  dense m -> m !! w = None -> dense (<[w := size m]> m).
Proof.
  intros (Hu & Hb & Hi) Hw. split; [|split].
  - rewrite lookup_insert_ne; [exact Hu | congruence].
  - intros v i H. rewrite map_size_insert_None by exact Hw.
    apply lookup_insert_Some in H as [[_ <-]|[_ H]]; [lia|].
    apply Hb in H; lia.
  - intros v1 v2 i H1 H2.
    apply lookup_insert_Some in H1 as [[<- <-]|[N1 H1]];
      apply lookup_insert_Some in H2 as [[<- E2]|[N2 H2]]; try reflexivity.
    + apply Hb in H2; lia.
    + subst i. apply Hb in H1; lia.
    + eapply Hi; eassumption.
Qed.

Lemma add_word_spec (b : bool) (m : gmap string nat) (w : string) :
  m !! unk = Some 0 ->
  exists m', add_word b m w = inl m' /\ is_Some (m' !! w) /\ grows b m m'.
Proof.
  intros Hu. unfold add_word, getitem.
  destruct b; simpl; destruct (m !! w) eqn:Hw.
  - exists m. split; [reflexivity|]. split; [rewrite Hw; eauto | apply grows_refl].
  - rewrite Hu; simpl. exists (<[w := 0]> m).
    split; [reflexivity|]. split; [rewrite lookup_insert_eq; eauto|].
    split; [apply insert_subseteq, Hw|].
    intros v i H. apply lookup_insert_Some in H as [[_ <-]|[_ H]]; auto.
  - exists m. split; [reflexivity|]. split; [rewrite Hw; eauto | apply grows_refl].
  - exists (<[w := size m]> m).
    split; [reflexivity|]. split; [rewrite lookup_insert_eq; eauto|].
    split; [apply insert_subseteq, Hw|].
    intros Hd; apply dense_insert_fresh; assumption.
Qed.

Lemma add_words_spec (b : bool) (ws : list string) (m : gmap string nat) :
  m !! unk = Some 0 ->
  exists m', foldM (add_word b) ws m = inl m' /\
             (forall w, In w ws -> is_Some (m' !! w)) /\ grows b m m'.
Proof.
  revert m; induction ws as [|w ws IH]; intros m Hu; simpl.
  - exists m. split; [reflexivity|]. split; [tauto | apply grows_refl].
  - destruct (add_word_spec b m w Hu) as (m1 & -> & Hw & G1); simpl.
    destruct (IH m1) as (m' & -> & Hws & G2).
    { eapply lookup_weaken; [exact Hu | apply G1]. }
    exists m'. split; [reflexivity|].
    split; [|eapply grows_trans; eassumption].
    intros v [<-|Hv]; [|apply Hws, Hv].
    destruct Hw as (i & Hi). exists i.
    eapply lookup_weaken; [exact Hi | apply G2].
Qed.

Lemma covers_mono (d d' : dicts) (line : list string) :
  word_to_index d ⊆ word_to_index d' -> tag_to_index d ⊆ tag_to_index d' ->
  covers d line -> covers d' line.
Proof.
  intros Sw St [Hw Ht]. split.
  - intros text E w Hin. destruct (Hw text E w Hin) as (i & Hi).
    exists i. eapply lookup_weaken; eassumption.
  - intros tag E. destruct (Ht tag E) as (i & Hi).
    exists i. eapply lookup_weaken; eassumption.
Qed.

Lemma add_tag_spec (t : gmap string nat) (tag : string) :
  t ⊆ add_tag t tag /\ is_Some (add_tag t tag !! tag).
Proof.
  unfold add_tag. destruct (t !! tag) eqn:E.
  - split; [reflexivity | rewrite E; eauto].
  - split; [apply insert_subseteq, E | rewrite lookup_insert_eq; eauto].
Qed.

Lemma create_dict_line_spec (b : bool) (d : dicts) (line : list string) :
  two_fields line -> word_to_index d !! unk = Some 0 ->
  exists d', create_dict_line b d line = inl d' /\ covers d' line /\
             grows b (word_to_index d) (word_to_index d') /\
             tag_to_index d ⊆ tag_to_index d'.
Proof.
  intros Hl Hu. unfold create_dict_line, index, two_fields in *.
  destruct line as [|tag [|text rest]]; simpl in Hl; try lia. simpl.
  destruct (add_words_spec b (PyStr.split " " text) _ Hu) as (m' & -> & Hws & G).
  simpl. eexists; split; [reflexivity|].
  destruct (add_tag_spec (tag_to_index d) tag) as [St Ht].
  split; [split|split]; simpl; try assumption.
  - intros ? [= <-]. exact Hws.
  - intros ? [= <-]. exact Ht.
Qed.

Lemma create_dict_spec (b : bool) (data : list (list string)) (d : dicts) :
  Forall two_fields data -> word_to_index d !! unk = Some 0 ->
  exists d', create_dict data b d = inl d' /\ Forall (covers d') data /\
             grows b (word_to_index d) (word_to_index d') /\
             tag_to_index d ⊆ tag_to_index d'.
Proof.
  unfold create_dict. revert d; induction data as [|line data IH]; intros d Hl Hu; simpl.
  - exists d. split; [reflexivity|].
    split; [constructor|]. split; [apply grows_refl | reflexivity].
  - inversion Hl as [|? ? Hl1 Hl2]; subst.
    destruct (create_dict_line_spec b d line Hl1 Hu) as (d1 & -> & C1 & G1 & T1).
    simpl. destruct (IH d1 Hl2) as (d' & -> & C & G & T).
    { eapply lookup_weaken; [exact Hu | apply G1]. }
    exists d'. split; [reflexivity|]. split; [|split].
    + constructor; [|exact C]. eapply covers_mono; [apply G | exact T | exact C1].
    + eapply grows_trans; eassumption.
    + etrans; eassumption.
Qed.

(** [create_dict] returns only when every line has its two fields. *)
Lemma create_dict_ok_fields (b : bool) (data : list (list string)) (d d' : dicts) :
  create_dict data b d = inl d' -> Forall two_fields data.
Proof.
  intros H. apply Forall_forall. intros line Hin.
  destruct (foldM_steps _ _ _ _ H line) as (s0 & s1 & Hs).
  { apply list_elem_of_In; exact Hin. }
  unfold create_dict_line in Hs. apply bind_ok in Hs as (text & Ht & _).
  apply (index_ok_iff line 1). exists text; exact Ht.
Qed.

Lemma create_tensor_spec (d : dicts) (data : list (list string)) :
  Forall two_fields data -> Forall (covers d) data ->
  exists r, create_tensor d data = inl r.
Proof.
  intros Hl Hc. apply mapM_total. intros line Hin.
  rewrite Forall_forall in Hl. rewrite Forall_forall in Hc.
  apply list_elem_of_In in Hin.
  specialize (Hl line Hin). destruct (Hc line Hin) as [Hw Ht].
  unfold create_tensor_line, index, two_fields in *.
  destruct line as [|tag [|text rest]]; simpl in Hl; try lia. simpl.
  destruct (mapM_total (getitem (word_to_index d)) (PyStr.split " " text)) as (ws & ->).
  { intros w Hw'. destruct (Hw text eq_refl w Hw') as (i & Hi).
    exists i. unfold getitem. rewrite Hi. reflexivity. }
  simpl. destruct (Ht tag eq_refl) as (i & Hi). unfold getitem. rewrite Hi.
  simpl. eexists; reflexivity.
Qed.

Lemma create_tensor_ok_fields (d : dicts) (data : list (list string)) r :
  create_tensor d data = inl r -> Forall two_fields data.
Proof.
  intros H. apply mapM_ok in H.
  induction H as [|line ex data r H _ IH]; constructor; [|exact IH].
  unfold create_tensor_line in H. apply bind_ok in H as (text & Ht & _).
  apply (index_ok_iff line 1). exists text; exact Ht.
Qed.

End VocabFacts.

Module PrepareFacts.
Import Vocab VocabFacts.

Lemma create_dict_line_error (b : bool) (d : dicts) (line : list string) e :
  word_to_index d !! unk = Some 0 ->
  create_dict_line b d line = inr e -> e = IndexError /\ ~ two_fields line.
Proof.
  intros Hu H. destruct (Nat.le_gt_cases 2 (length line)) as [Hl|Hl].
  - destruct (create_dict_line_spec b d line Hl Hu) as (d' & E & _). congruence.
  - split; [|unfold two_fields; lia].
    unfold create_dict_line, index in H.
    destruct line as [|tag [|text rest]]; simpl in *; try lia; congruence.
Qed.

Lemma create_dict_error (b : bool) (data : list (list string)) (d : dicts) e :
  word_to_index d !! unk = Some 0 ->
  create_dict data b d = inr e -> e = IndexError /\ ~ Forall two_fields data.
Proof.
  unfold create_dict. revert d; induction data as [|line data IH]; intros d Hu H; simpl in H.
  - discriminate.
  - destruct (create_dict_line b d line) as [d1|e1] eqn:E1; simpl in H.
    + destruct (Nat.le_gt_cases 2 (length line)) as [Hl|Hl].
      * destruct (create_dict_line_spec b d line Hl Hu) as (d1' & E1' & _ & G & _).
        assert (d1' = d1) by congruence; subst d1'.
        destruct (IH d1) as [-> Hn]; [eapply lookup_weaken; [exact Hu | apply G] | exact H |].
        split; [reflexivity|]. intros HF; inversion HF; auto.
      * exfalso. unfold create_dict_line, index in E1.
        destruct line as [|tag [|text rest]]; simpl in *; try lia; congruence.
    + inversion H; subst e1.
      destruct (create_dict_line_error b d line e Hu E1) as [-> Hn].
      split; [reflexivity|]. intros HF; inversion HF; auto.
Qed.

Lemma unk_init : word_to_index init !! unk = Some 0.
Proof. apply dense_init. Qed.

(** The cell runs to its end when every line has two fields, and then
    the dictionaries are related as [grows] says. *)
Lemma prepare_spec (train test : list (list string)) :
  Forall two_fields train -> Forall two_fields test ->
  exists p, prepare train test = inl p /\
    dense (word_to_index (after_train p)) /\
    grows true (word_to_index (after_train p)) (word_to_index (final p)) /\
    Forall (covers (after_train p)) train /\
    Forall (covers (final p)) test /\
    create_tensor (final p) train = inl (train_data p) /\
    create_tensor (final p) test = inl (test_data p) /\
    number_of_words p = size (word_to_index (final p)).
Proof.
  intros Htr Hte. unfold prepare.
  destruct (create_dict_spec false train init Htr unk_init) as (d1 & -> & C1 & G1 & T1).
  simpl. destruct G1 as [S1 D1]. specialize (D1 dense_init).
  destruct (create_dict_spec true test d1 Hte) as (d2 & -> & C2 & G2 & T2);
    [apply D1|].
  simpl.
  destruct (create_tensor_spec d2 train Htr) as (tr & Etr).
  { eapply Forall_impl; [exact C1|]. intros line.
    apply covers_mono; [apply G2 | exact T2]. }
  destruct (create_tensor_spec d2 test Hte C2) as (te & Ete).
  rewrite Etr, Ete. simpl.
  eexists; split; [reflexivity|]. simpl.
  split; [exact D1|]. split; [exact G2|]. split; [exact C1|]. split; [exact C2|].
  split; [exact Etr|]. split; [exact Ete | reflexivity].
Qed.

Lemma prepare_ok_fields (train test : list (list string)) p :
  prepare train test = inl p -> Forall two_fields train /\ Forall two_fields test.
Proof.
  unfold prepare. intros H.
  apply bind_ok in H as (d1 & H1 & H). apply bind_ok in H as (d2 & H2 & _).
  split; eapply create_dict_ok_fields; eassumption.
Qed.

Lemma prepare_error (train test : list (list string)) e :
  prepare train test = inr e -> e = IndexError.
Proof.
  unfold prepare. intros H.
  destruct (create_dict train false init) as [d1|e1] eqn:E1; simpl in H.
  2:{ inversion H; subst. eapply create_dict_error; [apply unk_init | exact E1]. }
  pose proof (create_dict_ok_fields _ _ _ _ E1) as Htr.
  destruct (create_dict_spec false train init Htr unk_init) as (d1' & E1' & C1 & G1 & T1).
  assert (d1' = d1) by congruence; subst d1'.
  destruct G1 as [S1 D1]. specialize (D1 dense_init).
  destruct (create_dict test true d1) as [d2|e2] eqn:E2; simpl in H.
  2:{ inversion H; subst. eapply create_dict_error; [apply D1 | exact E2]. }
  pose proof (create_dict_ok_fields _ _ _ _ E2) as Hte.
  destruct (create_dict_spec true test d1 Hte) as (d2' & E2' & C2 & G2 & T2); [apply D1|].
  assert (d2' = d2) by congruence; subst d2'.
  destruct (create_tensor_spec d2 train Htr) as (tr & Etr).
  { eapply Forall_impl; [exact C1|]. intros line.
    apply covers_mono; [apply G2 | exact T2]. }
  destruct (create_tensor_spec d2 test Hte C2) as (te & Ete).
  rewrite Etr, Ete in H. simpl in H. discriminate.
Qed.

(** The indices that [create_tensor] yields are values of the dictionary. *)
Lemma create_tensor_tokens (d : dicts) (data : list (list string)) r :
  create_tensor d data = inl r ->
  forall sent tag tok, In (sent, tag) r -> In tok sent ->
                       exists w, word_to_index d !! w = Some tok.
Proof.
  intros H. apply mapM_ok in H.
  induction H as [|line ex data r H _ IH]; intros sent tag tok Hin Htok; [destruct Hin|].
  destruct Hin as [->|Hin]; [|eapply IH; eassumption].
  unfold create_tensor_line in H.
  apply bind_ok in H as (text & _ & H). apply bind_ok in H as (ws & Hws & H).
  apply bind_ok in H as (tg & _ & H). apply bind_ok in H as (t & _ & H).
  inversion H; subst. apply mapM_ok in Hws.
  clear H. induction Hws as [|w i ws' is' Hw _ IHw]; [destruct Htok|].
  destruct Htok as [<-|Htok]; [|apply IHw, Htok].
  exists w. unfold getitem, ok, raise in Hw.
  destruct (word_to_index d !! w); congruence.
Qed.

Lemma words_of_covered (d : dicts) (data : list (list string)) :
  Forall (covers d) data ->
  forall w, In w (words_of data) -> is_Some (word_to_index d !! w).
Proof.
  intros HF w Hin. unfold words_of in Hin. apply in_flat_map in Hin as (line & Hl & Hw).
  rewrite Forall_forall in HF. apply list_elem_of_In in Hl.
  destruct (HF line Hl) as [Hc _].
  destruct (nth_error line 1) as [text|] eqn:E; [|destruct Hw].
  eapply Hc; [reflexivity | exact Hw].
Qed.

End PrepareFacts.

(** ** Sums of embedding rows *)

Module TensorFacts.
Import Tensor.

Lemma length_vadd (a b : vec) :
  length a = length b -> length (vadd a b) = length a.
Proof. intros H. unfold vadd. rewrite length_zip_with. lia. Qed.

Lemma nth_vadd (a b : vec) (j : nat) :
  length a = length b ->
  nth j (vadd a b) 0%R = (nth j a 0 + nth j b 0)%R.
Proof.
  unfold vadd. revert b j; induction a as [|x a IH]; intros [|y b] j H;
    simpl in H; try discriminate.
  - destruct j; simpl; lra.
  - destruct j; simpl; [reflexivity|]. apply IH. lia.
Qed.

Lemma length_zeros (n : nat) : length (zeros n) = n.
Proof. apply repeat_length. Qed.

Lemma nth_zeros (n j : nat) : nth j (zeros n) 0%R = 0%R.
Proof.
  unfold zeros. revert j; induction n as [|n IH]; intros [|j]; simpl; auto.
Qed.

(** Column [j] of a sum of rows, from an accumulator of the same width. *)
Lemma fold_vadd_spec (n : nat) (rows : mat) (acc : vec) :
  length acc = n -> Forall (fun row => length row = n) rows ->
  length (fold_left vadd rows acc) = n /\
  forall j, nth j (fold_left vadd rows acc) 0%R =
            (nth j acc 0 + fold_right Rplus 0 (map (fun row => nth j row 0) rows))%R.
Proof.
  revert acc; induction rows as [|row rows IH]; intros acc Ha Hr; simpl.
  - split; [exact Ha | intros j; lra].
  - inversion Hr as [|? ? Hrow Hrows]; subst.
    destruct (IH (vadd acc row)) as [Hl Hn];
      [rewrite length_vadd; congruence | exact Hrows |].
    split; [exact Hl|]. intros j. rewrite Hn, nth_vadd by congruence. lra.
Qed.

Lemma sum_dim0_spec (n : nat) (rows : mat) :
  Forall (fun row => length row = n) rows ->
  length (sum_dim0 n rows) = n /\
  forall j, nth j (sum_dim0 n rows) 0%R =
            fold_right Rplus 0%R (map (fun row => nth j row 0%R) rows).
Proof.
  intros Hr. destruct (fold_vadd_spec n rows (zeros n) (length_zeros n) Hr) as [Hl Hn].
  split; [exact Hl|]. intros j. unfold sum_dim0. rewrite Hn, nth_zeros. lra.
Qed.

(** An embedding lookup within the vocabulary returns the rows asked for. *)
Lemma embedding_spec (E : mat) (x : list nat) :
  Forall (fun tok => tok < length E) x ->
  embedding E x = inl (map (fun tok => nth tok E []) x).
Proof.
  unfold embedding. induction x as [|tok x IH]; intros H; simpl; [reflexivity|].
  inversion H as [|? ? Ht Hx]; subst. unfold index at 1.
  rewrite (nth_error_nth' E [] Ht). simpl. rewrite (IH Hx). reflexivity.
Qed.

Lemma embedding_rows (n : nat) (E : mat) (x : list nat) :
  Forall (fun row => length row = n) E ->
  Forall (fun tok => tok < length E) x ->
  Forall (fun row => length row = n) (map (fun tok => nth tok E []) x).
Proof.
  intros HE Hx. apply Forall_forall. intros row Hin.
  apply list_elem_of_In, in_map_iff in Hin as (tok & <- & Htok).
  rewrite Forall_forall in HE. rewrite Forall_forall in Hx. apply HE.
  apply list_elem_of_In, nth_In, Hx, list_elem_of_In, Htok.
Qed.

Lemma token_sum_rows (E : mat) (x : list nat) (j : nat) :
  fold_right Rplus 0%R (map (fun row => nth j row 0%R) (map (fun tok => nth tok E []) x))
  = token_sum E x j.
Proof. unfold token_sum, entry. rewrite map_map. reflexivity. Qed.

Lemma BoW_forward_spec (m : BoW.t) (x : list nat) :
  BoW.wf m -> Forall (fun tok => tok < BoW.nwords m) x ->
  exists out, BoW.forward m x = inl [out] /\ length out = BoW.ntags m /\
    forall j, nth j out 0%R
              = (token_sum (BoW.embedding m) x j + nth j (BoW.bias m) 0)%R.
Proof.
  intros (Hn & Hrows & Hb) Hx. rewrite <- Hn in Hx.
  unfold BoW.forward. rewrite (embedding_spec _ _ Hx). simpl.
  destruct (sum_dim0_spec (BoW.ntags m) _ (embedding_rows _ _ _ Hrows Hx)) as [Hl Hs].
  eexists; split; [reflexivity|]. split.
  - rewrite length_vadd; congruence.
  - intros j. rewrite nth_vadd by congruence. rewrite Hs, token_sum_rows. reflexivity.
Qed.

Lemma CBoW_forward_spec (m : CBoW.t) (x : list nat) :
  CBoW.wf m -> Forall (fun tok => tok < CBoW.nwords m) x ->
  exists s, CBoW.forward m x = inl (linear (CBoW.linear m) [s]) /\
    length s = CBoW.emb_size m /\
    forall j, nth j s 0%R = token_sum (CBoW.embedding m) x j.
Proof.
  intros (Hn & Hrows) Hx. rewrite <- Hn in Hx.
  unfold CBoW.forward. rewrite (embedding_spec _ _ Hx). simpl.
  destruct (sum_dim0_spec (CBoW.emb_size m) _ (embedding_rows _ _ _ Hrows Hx)) as [Hl Hs].
  eexists; split; [reflexivity|]. split; [exact Hl|].
  intros j. rewrite Hs, token_sum_rows. reflexivity.
Qed.

End TensorFacts.

(** ** The loops that train through the library *)

Module LoopFacts.
Import Torch.

Lemma count_event_app (e : event) (a b : list event) :
  count_event e (a ++ b) = count_event e a + count_event e b.
Proof. unfold count_event. rewrite filter_app, length_app. reflexivity. Qed.

Lemma count_event_blocks (e : event) (blk : list event) (k : nat) :
  count_event e (concat (repeat blk k)) = k * count_event e blk.
Proof.
  induction k as [|k IH]; simpl; [reflexivity|].
  rewrite count_event_app, IH. reflexivity.
Qed.

Lemma count_event_calls (e : event) (k : nat) :
  e <> ECall -> count_event e (repeat ECall k) = 0.
Proof.
  intros He. induction k as [|k IH]; [reflexivity|].
  change (repeat ECall (S k)) with ([ECall] ++ repeat ECall k).
  rewrite count_event_app, IH. destruct e; try reflexivity. congruence.
Qed.

Lemma count_epoch_events (n m : nat) :
  count_event ECriterion (epoch_events n m) = n /\
  count_event EBackward (epoch_events n m) = n /\
  count_event EStep (epoch_events n m) = n /\
  count_event EShuffle (epoch_events n m) = 1.
Proof.
  unfold epoch_events.
  rewrite !count_event_app, !count_event_blocks, !count_event_calls by discriminate.
  repeat split; vm_compute count_event; lia.
Qed.

Section Reaches.
Context {I T : Type} (L : lib I T).

Lemma reaches_trans (m0 m1 m2 : module L) :
  reaches L m0 m1 -> reaches L m1 m2 -> reaches L m0 m2.
Proof.
  intros H01 H12. induction H12; [exact H01 | | | | | ];
    constructor; assumption.
Qed.
End Reaches.

Section Text.
Context (L : lib (list nat) nat) (P : pyrandom TextLoop.example).
Import TextLoop.

Lemma fold_train_step_spec (td : list example) :
  forall m l c tr, exists m' l' c',
    fold_left (train_step L) td (m, l, c, tr)
    = (m', l', c', tr ++ concat (repeat train_events (length td))) /\
    reaches L m m'.
Proof.
  induction td as [|[sentence tag] td IH]; intros m l c tr; simpl.
  - exists m, l, c. rewrite app_nil_r. split; [reflexivity | constructor].
  - edestruct IH as (m' & l' & c' & E & Hr). rewrite E.
    exists m', l', c'. split.
    + rewrite <- !app_assoc. reflexivity.
    + eapply reaches_trans; [|exact Hr]. repeat constructor.
Qed.

(** The model that the inner loop leaves is the one that the updates of
    the examples, one after the other, give. *)
Lemma fold_train_step_model (td : list example) :
  forall m l c tr,
    fst (fst (fst (fold_left (train_step L) td (m, l, c, tr))))
    = fold_left (update L) td m.
Proof.
  induction td as [|[sentence tag] td IH]; intros m l c tr; simpl; [reflexivity|].
  rewrite IH. reflexivity.
Qed.

Lemma fold_test_step_spec (m : module L) (test : list example) :
  forall c tr, exists c',
    fold_left (test_step L m) test (c, tr) = (c', tr ++ repeat ECall (length test)).
Proof.
  induction test as [|[sentence tag] test IH]; intros c tr; simpl.
  - exists c. rewrite app_nil_r. reflexivity.
  - edestruct IH as (c' & E). rewrite E. exists c'.
    rewrite <- app_assoc. reflexivity.
Qed.

Lemma pydiv_ok (x : R) (n : nat) : n <> 0 -> pydiv x n = inl (x / INR n)%R.
Proof. intros H. unfold pydiv. destruct n; [congruence | reflexivity]. Qed.

Lemma epoch_spec (label : string) (test : list example) (s : state L P) (ITER : nat) :
  train_data s <> [] -> test <> [] ->
  exists s' a b c,
    epoch L P label test s ITER = inl s' /\
    reaches L (model s) (model s') /\
    trace s' = trace s ++ epoch_events (length (train_data s)) (length test) /\
    stdout s' = stdout s ++ [EpochLog label (ITER + 1) a b c] /\
    Permutation (train_data s) (train_data s').
Proof.
  intros Htr Hte. unfold epoch.
  pose proof (shuffle_permutes P (generator s) (train_data s)) as Hperm.
  unfold train_mode_call, shuffle_call, eval_mode_call.
  destruct (shuffle P (generator s) (train_data s)) as [td g]. simpl in Hperm.
  pose proof (Permutation_length Hperm) as Hlen.
  destruct (fold_train_step_spec td (train_mode L (model s)) 0%R 0
              ((trace s ++ [ETrainMode]) ++ [EShuffle])) as (m' & l' & c' & E & Hr).
  rewrite E. cbv beta iota zeta.
  destruct (fold_test_step_spec (eval_mode L m') test 0
              ((((trace s ++ [ETrainMode]) ++ [EShuffle])
                  ++ concat (repeat train_events (length td))) ++ [EEvalMode]))
    as (tc & E').
  rewrite E'.
  assert (Hn : length td <> 0) by (destruct (train_data s); simpl in *; congruence).
  assert (Hm : length test <> 0) by (destruct test; simpl in *; congruence).
  rewrite !pydiv_ok by assumption. simpl.
  eexists _, _, _, _. split; [reflexivity|]. simpl.
  split; [|split; [|split; [reflexivity | exact Hperm]]].
  - eapply reaches_trans; [apply reaches_train_mode, reaches_refl|].
    eapply reaches_trans; [exact Hr|]. apply reaches_eval_mode, reaches_refl.
  - unfold epoch_events. rewrite Hlen, <- !app_assoc. reflexivity.
Qed.

Lemma text_loop_spec (label : string) (test : list example) (k : nat) :
  forall start (s : state L P),
    train_data s <> [] -> test <> [] ->
    exists s' logs,
      foldM (epoch L P label test) (seq start k) s = inl s' /\
      reaches L (model s) (model s') /\
      trace s' = trace s
                 ++ concat (repeat (epoch_events (length (train_data s)) (length test)) k) /\
      stdout s' = stdout s ++ logs /\
      Forall2 (fun i l => exists a b c, l = EpochLog label (i + 1) a b c)
              (seq start k) logs /\
      Permutation (train_data s) (train_data s').
Proof.
  induction k as [|k IH]; intros start s Htr Hte; simpl.
  - exists s, []. rewrite !app_nil_r.
    repeat (split; [first [reflexivity | constructor]|]). reflexivity.
  - destruct (epoch_spec label test s start Htr Hte)
      as (s1 & a & b & c & E & Hr & Ht & Ho & Hp).
    rewrite E. simpl.
    assert (Htr1 : train_data s1 <> []).
    { intros Hnil. rewrite Hnil in Hp. apply Permutation_nil_r in Hp. auto. }
    destruct (IH (S start) s1 Htr1 Hte) as (s' & logs & E' & Hr' & Ht' & Ho' & Hl & Hp').
    rewrite E'. exists s', (EpochLog label (start + 1) a b c :: logs).
    split; [reflexivity|]. split; [eapply reaches_trans; eassumption|].
    split; [rewrite Ht', Ht, <- (Permutation_length Hp), <- app_assoc; reflexivity|].
    split; [rewrite Ho', Ho, <- app_assoc; reflexivity|].
    split; [constructor; [eauto | exact Hl]|].
    etrans; eassumption.
Qed.

(** What an epoch that returns leaves behind is what [epoch_update]
    gives, and so for the epochs of a loop. *)
Lemma epoch_model (label : string) (test : list example) (s s' : state L P)
      (ITER : nat) :
  epoch L P label test s ITER = inl s' ->
  (model s', generator s', train_data s')
  = epoch_update L P (model s, generator s, train_data s).
Proof.
  unfold epoch, epoch_update, train_mode_call, shuffle_call, eval_mode_call.
  destruct (shuffle P (generator s) (train_data s)) as [td g].
  pose proof (fold_train_step_model td (train_mode L (model s)) 0%R 0
                ((trace s ++ [ETrainMode]) ++ [EShuffle])) as Hm.
  destruct (fold_left (train_step L) td
              (train_mode L (model s), 0%R, 0, (trace s ++ [ETrainMode]) ++ [EShuffle]))
    as [[[m' l'] c'] tr'].
  simpl in Hm. subst m'.
  destruct (fold_left (test_step L (eval_mode L (fold_left (update L) td
                                                   (train_mode L (model s)))))
                      test (0, tr' ++ [EEvalMode])) as [tc tr''].
  intros H. apply bind_ok in H as (a & _ & H).
  apply bind_ok in H as (b & _ & H). apply bind_ok in H as (c & _ & H).
  inversion H; subst; reflexivity.
Qed.

Lemma text_loop_model (label : string) (test : list example) (k : nat) :
  forall start (s s' : state L P),
    foldM (epoch L P label test) (seq start k) s = inl s' ->
    (model s', generator s', train_data s')
    = Nat.iter k (epoch_update L P) (model s, generator s, train_data s).
Proof.
  induction k as [|k IH]; intros start s s' H.
  - inversion H; subst. reflexivity.
  - change (seq start (S k)) with (start :: seq (S start) k) in H.
    cbn [foldM] in H. apply bind_ok in H as (s1 & H1 & H).
    rewrite (IH _ _ _ H), (epoch_model _ _ _ _ _ H1), Nat.iter_succ_r. reflexivity.
Qed.

End Text.

Section HelloLoop.
Context (L : lib Tensor.mat Tensor.mat).
Import Hello.

Lemma hello_loop_spec (x y : Tensor.mat) (k : nat) :
  forall start (s : state L),
    exists logs,
      let s' := fold_left (iteration L x y) (seq start k) s in
      reaches L (model s) (model s') /\
      trace s' = trace s ++ concat (repeat hello_events k) /\
      stdout s' = stdout s ++ logs /\
      Forall2 (fun i l => exists v, l = HelloLog i v) (seq start k) logs.
Proof.
  induction k as [|k IH]; intros start s; simpl.
  - exists []. rewrite !app_nil_r. repeat split; constructor.
  - destruct (IH (S start) (iteration L x y s start)) as (logs & Hr & Ht & Ho & Hl).
    exists (HelloLog start
              (item L (criterion L (call L (train_mode L (model s)) x) y)) :: logs).
    simpl in *. split; [|split; [|split]].
    + eapply reaches_trans; [|exact Hr]. repeat constructor.
    + rewrite Ht. simpl. rewrite <- !app_assoc. reflexivity.
    + rewrite Ho. simpl. rewrite <- app_assoc. reflexivity.
    + constructor; [eauto | exact Hl].
Qed.

(** The model that the loop leaves is the one that as many updates as
    there are iterations give. *)
Lemma hello_loop_model (x y : Tensor.mat) (k : nat) :
  forall start (s : state L),
    model (fold_left (iteration L x y) (seq start k) s)
    = Nat.iter k (update L x y) (model s).
Proof.
  induction k as [|k IH]; intros start s; [reflexivity|].
  change (seq start (S k)) with (start :: seq (S start) k).
  change (fold_left (iteration L x y) (start :: seq (S start) k) s)
    with (fold_left (iteration L x y) (seq (S start) k) (iteration L x y s start)).
  rewrite IH, Nat.iter_succ_r. reflexivity.
Qed.

End HelloLoop.

Lemma first_filed_unturned :
  first_filed (TextLoop.train_bow history_lib (coin_random TextLoop.example)
                                  two_examples (text_start false))
  = Some ([1], 0).
Proof. vm_compute. reflexivity. Qed.

Lemma first_filed_turned :
  first_filed (TextLoop.train_bow history_lib (coin_random TextLoop.example)
                                  two_examples (text_start true))
  = Some ([2], 1).
Proof. vm_compute. reflexivity. Qed.

Lemma run_first_filed (g : bool) (e : TextLoop.example) :
  first_filed (TextLoop.train_bow history_lib (coin_random TextLoop.example)
                                  two_examples (text_start g)) = Some e ->
  exists s, TextLoop.train_bow history_lib (coin_random TextLoop.example)
                               two_examples (text_start g) = inl s /\
            hd_error (fst (TextLoop.model s)) = Some e.
Proof.
  unfold first_filed.
  generalize (TextLoop.train_bow history_lib (coin_random TextLoop.example)
                                 two_examples (text_start g)).
  intros [s|err] H; [|discriminate]. exists s. split; [reflexivity | exact H].
Qed.

End LoopFacts.

(** ** Entries of products, transposes and entrywise maps *)

Module MatrixFacts.
Import Tensor.

Lemma nth_map_in {A B} (f : A -> B) (l : list A) (d : A) (d' : B) (i : nat) :
  i < length l -> nth i (map f l) d' = f (nth i l d).
Proof.
  intros H. rewrite (nth_indep _ d' (f d)) by (rewrite length_map; exact H).
  apply map_nth.
Qed.

Lemma nth_zip_with_in {A B C} (f : A -> B -> C) (a : list A) (b : list B)
      (da : A) (db : B) (d : C) (i : nat) :
  i < length a -> i < length b ->
  nth i (zip_with f a b) d = f (nth i a da) (nth i b db).
Proof.
  revert b i; induction a as [|x a IH]; intros [|y b] i Ha Hb; simpl in *; try lia.
  destruct i; [reflexivity | apply IH; lia].
Qed.

Lemma bigsum_ext (n : nat) (f g : nat -> R) :
  (forall i, i < n -> f i = g i) -> bigsum n f = bigsum n g.
Proof.
  intros H. unfold bigsum. f_equal. apply map_ext_in.
  intros i Hi. apply in_seq in Hi. apply H. lia.
Qed.

Lemma bigsum_S (n : nat) (f : nat -> R) :
  bigsum (S n) f = (f 0%nat + bigsum n (fun i => f (S i)))%R.
Proof.
  unfold bigsum. simpl. rewrite <- seq_shift, map_map. reflexivity.
Qed.

Lemma dot_bigsum (n : nat) (a b : vec) :
  length a = n -> length b = n ->
  dot a b = bigsum n (fun k => nth k a 0 * nth k b 0)%R.
Proof.
  revert a b; induction n as [|n IH]; intros [|x a] [|y b] Ha Hb;
    simpl in *; try discriminate; [reflexivity|].
  rewrite bigsum_S. simpl. unfold dot in *. simpl. f_equal. apply IH; lia.
Qed.

Lemma length_col (j : nat) (m : mat) : length (col j m) = length m.
Proof. apply length_map. Qed.

Lemma nth_col (i j : nat) (m : mat) : nth i (col j m) 0%R = entry m i j.
Proof.
  unfold col, entry.
  transitivity (nth i (map (fun r : list R => nth j r 0%R) m)
                    ((fun r : list R => nth j r 0%R) []));
    [f_equal; destruct j; reflexivity
    | apply (map_nth (fun r : list R => nth j r 0%R) m [] i)].
Qed.

Lemma shape_nth (r c : nat) (m : mat) (i : nat) :
  shape r c m -> i < r -> length (nth i m []) = c.
Proof.
  intros [Hl Hr] Hi. rewrite Forall_forall in Hr. apply Hr.
  apply list_elem_of_In, nth_In. lia.
Qed.

Lemma shape_ncols (r c : nat) (m : mat) : shape r c m -> 0 < r -> ncols m = c.
Proof.
  intros [Hl Hr] Hpos. destruct m as [|row m]; simpl in *; [lia|].
  inversion Hr; assumption.
Qed.

Lemma nth_t (k : nat) (m : mat) : k < ncols m -> nth k (t m) [] = col k m.
Proof.
  intros H. unfold t. rewrite (nth_map_in _ _ 0) by (rewrite length_seq; exact H).
  rewrite seq_nth by exact H. reflexivity.
Qed.

Lemma shape_t (m : mat) : shape (ncols m) (length m) (t m).
Proof.
  split; [unfold t; rewrite length_map, length_seq; reflexivity|].
  apply Forall_forall. intros row Hin.
  apply list_elem_of_In, in_map_iff in Hin as (j & <- & _). apply length_col.
Qed.

Lemma shape_matmul (r c : nat) (a b : mat) :
  shape r c a -> shape r (ncols b) (matmul a b).
Proof.
  intros [Hl _]. split; [unfold matmul; rewrite length_map; exact Hl|].
  apply Forall_forall. intros row Hin.
  apply list_elem_of_In, in_map_iff in Hin as (x & <- & _).
  rewrite length_map. apply shape_t.
Qed.

Lemma shape_matmul_cols (r c c' : nat) (a b : mat) :
  shape r c a -> ncols b = c' -> shape r c' (matmul a b).
Proof. intros Ha <-. eapply shape_matmul, Ha. Qed.

Lemma shape_mmap (f : R -> R) (r c : nat) (a : mat) :
  shape r c a -> shape r c (mmap f a).
Proof.
  intros [Hl Hr]. split; [unfold mmap; rewrite length_map; exact Hl|].
  unfold mmap. rewrite Forall_map. eapply Forall_impl; [exact Hr|].
  intros row H. simpl. rewrite length_map. exact H.
Qed.

Lemma shape_mzip (f : R -> R -> R) (r c : nat) (a b : mat) :
  shape r c a -> shape r c b -> shape r c (mzip f a b).
Proof.
  intros [Hla Hra] [Hlb Hrb]. unfold mzip. split.
  - rewrite length_zip_with. lia.
  - clear Hla Hlb. revert b Hrb; induction Hra as [|x a Hx _ IH];
      intros [|y b] Hb; simpl; try constructor.
    + inversion Hb; subst. rewrite length_zip_with. lia.
    + inversion Hb; subst. apply IH; assumption.
Qed.

Lemma entry_mmap (f : R -> R) (r c : nat) (a : mat) (i j : nat) :
  shape r c a -> i < r -> j < c -> entry (mmap f a) i j = f (entry a i j).
Proof.
  intros Hs Hi Hj. pose proof (shape_nth _ _ _ _ Hs Hi) as Hrow.
  destruct Hs as [Hl _]. unfold entry, mmap.
  rewrite (nth_map_in _ _ []) by lia. apply nth_map_in. lia.
Qed.

Lemma entry_mzip (f : R -> R -> R) (r c : nat) (a b : mat) (i j : nat) :
  shape r c a -> shape r c b -> i < r -> j < c ->
  entry (mzip f a b) i j = f (entry a i j) (entry b i j).
Proof.
  intros Ha Hb Hi Hj.
  pose proof (shape_nth _ _ _ _ Ha Hi) as Hra.
  pose proof (shape_nth _ _ _ _ Hb Hi) as Hrb.
  destruct Ha as [Hla _], Hb as [Hlb _]. unfold entry, mzip.
  rewrite (nth_zip_with_in _ _ _ [] []) by lia.
  apply nth_zip_with_in; lia.
Qed.

Lemma entry_matmul (a b : mat) (i j : nat) :
  i < length a -> j < ncols b ->
  entry (matmul a b) i j = dot (nth i a []) (col j b).
Proof.
  intros Hi Hj. unfold entry, matmul.
  rewrite (nth_map_in _ a [] [] i Hi).
  rewrite (nth_map_in _ (t b) ([] : vec) 0%R j)
    by (destruct (shape_t b) as [Hl _]; rewrite Hl; exact Hj).
  rewrite nth_t by exact Hj. reflexivity.
Qed.

(** Entry [(i, j)] of [a @ b] for [a] of [r] rows of [c] entries and [b]
    of [c] rows. *)
Lemma entry_matmul_sum (r c : nat) (a b : mat) (i j : nat) :
  shape r c a -> length b = c -> i < r -> j < ncols b ->
  entry (matmul a b) i j = bigsum c (fun k => entry a i k * entry b k j)%R.
Proof.
  intros Ha Hb Hi Hj. rewrite entry_matmul by (destruct Ha; lia).
  rewrite (dot_bigsum c);
    [| eapply shape_nth; eassumption | rewrite length_col; exact Hb].
  apply bigsum_ext. intros k _. rewrite nth_col. reflexivity.
Qed.

Lemma entry_t (m : mat) (i k : nat) :
  k < ncols m -> entry (t m) k i = entry m i k.
Proof. intros H. unfold entry at 1. rewrite nth_t by exact H. apply nth_col. Qed.

End MatrixFacts.

(** ** The network written by hand *)

Module NNFacts.
Import Tensor Neural_Network MatrixFacts.

Lemma sigmoid_derivable (x : R) :
  derivable_pt_lim sigmoid x (sigmoidPrime (sigmoid x)).
Proof.
  assert (Hpos : (0 < 1 + exp (- x))%R) by (pose proof (exp_pos (- x)); lra).
  assert (Hg : derivable_pt_lim (fct_cte 1 + comp exp (- id))%F x
                                (0 + exp (- x) * - 1)%R).
  { apply derivable_pt_lim_plus; [apply derivable_pt_lim_const|].
    apply derivable_pt_lim_comp; [|apply derivable_pt_lim_exp].
    apply derivable_pt_lim_opp, derivable_pt_lim_id. }
  assert (Hne : (fct_cte 1 + comp exp (- id))%F x <> 0%R).
  { unfold plus_fct, fct_cte, comp, opp_fct, id. lra. }
  pose proof (derivable_pt_lim_div (fct_cte 1) (fct_cte 1 + comp exp (- id))%F x 0 _
                (derivable_pt_lim_const 1 x) Hg Hne) as Hd.
  apply derivable_pt_lim_ext with (f := (fct_cte 1 / (fct_cte 1 + comp exp (- id)))%F).
  - intros u. reflexivity.
  - match type of Hd with derivable_pt_lim _ _ ?l =>
      replace (sigmoidPrime (sigmoid x)) with l; [exact Hd|] end.
    unfold sigmoidPrime, sigmoid, plus_fct, fct_cte, comp, opp_fct, id, Rsqr.
    field. lra.
Qed.

Lemma weights_train (nn : Neural_Network.t) (X y : mat) :
  weights (train nn X y) = train_weights X y (weights nn).
Proof. reflexivity. Qed.

Section DeltaRule.
Variables (nn : Neural_Network.t) (X y : mat) (n : nat).
Hypotheses (Hn : 0 < n) (HX : shape n 2 X) (Hy : shape n 1 y)
           (HW1 : shape 2 3 (W1 nn)) (HW2 : shape 3 1 (W2 nn)).

Lemma forward_entries :
  let nn1 := snd (forward nn X) in
  let o := fst (forward nn X) in
  W1 nn1 = W1 nn /\ W2 nn1 = W2 nn /\
  shape n 3 (z2 nn1) /\ shape n 1 o /\
  (forall i k, i < n -> k < 3 -> entry (z2 nn1) i k = hidden nn X i k) /\
  (forall i, i < n -> entry o i 0 = out nn X i).
Proof.
  simpl.
  assert (C1 : ncols (W1 nn) = 3) by (eapply shape_ncols; [exact HW1 | lia]).
  assert (C2 : ncols (W2 nn) = 1) by (eapply shape_ncols; [exact HW2 | lia]).
  assert (Sz : shape n 3 (matmul X (W1 nn)))
    by (eapply shape_matmul_cols; [exact HX | exact C1]).
  assert (Sz2 : shape n 3 (mmap sigmoid (matmul X (W1 nn))))
    by apply shape_mmap, Sz.
  assert (Sz3 : shape n 1 (matmul (mmap sigmoid (matmul X (W1 nn))) (W2 nn)))
    by (eapply shape_matmul_cols; [exact Sz2 | exact C2]).
  assert (Ez2 : forall i k, i < n -> k < 3 ->
            entry (mmap sigmoid (matmul X (W1 nn))) i k = hidden nn X i k).
  { intros i k Hi Hk. rewrite (entry_mmap _ n 3) by assumption.
    unfold hidden. f_equal.
    apply (entry_matmul_sum n 2); [exact HX | apply HW1 | exact Hi | lia]. }
  split; [reflexivity|]. split; [reflexivity|].
  split; [exact Sz2|]. split; [apply shape_mmap, Sz3|].
  split; [exact Ez2|].
  intros i Hi. rewrite (entry_mmap _ n 1) by (assumption || lia).
  unfold out. f_equal.
  rewrite (entry_matmul_sum n 3); [| exact Sz2 | apply HW2 | exact Hi | lia].
  apply bigsum_ext. intros k Hk. rewrite Ez2 by assumption. reflexivity.
Qed.

(** What [train] adds to the two weights. *)
Lemma train_entries :
  (forall k, k < 3 ->
     entry (W2 (train nn X y)) k 0
     = (entry (W2 nn) k 0
        + bigsum n (fun i => hidden nn X i k * delta nn X y i))%R) /\
  (forall j k, j < 2 -> k < 3 ->
     entry (W1 (train nn X y)) j k
     = (entry (W1 nn) j k
        + bigsum n (fun i => entry X i j
                             * (delta nn X y i * entry (W2 nn) k 0
                                * sigmoidPrime (hidden nn X i k))))%R).
Proof.
  destruct forward_entries as (E1 & E2 & Sz2 & So & Ez2 & Eo).
  unfold train. destruct (forward nn X) as [o nn1]. simpl in E1, E2, Sz2, So, Ez2, Eo.
  unfold backward. simpl. rewrite E1, E2.
  set (od := mmul (msub y o) (mmap sigmoidPrime o)).
  assert (Sod : shape n 1 od)
    by (apply shape_mzip; [apply shape_mzip; assumption | apply shape_mmap, So]).
  assert (Eod : forall i, i < n -> entry od i 0 = delta nn X y i).
  { intros i Hi. unfold od, mmul, msub.
    rewrite (entry_mzip _ n 1);
      [| apply shape_mzip; assumption | apply shape_mmap, So | exact Hi | lia].
    rewrite (entry_mzip _ n 1), (entry_mmap _ n 1) by (assumption || lia).
    rewrite Eo by exact Hi. reflexivity. }
  assert (C2 : ncols (W2 nn) = 1) by (eapply shape_ncols; [exact HW2 | lia]).
  assert (Cz2 : ncols (z2 nn1) = 3) by (eapply shape_ncols; [exact Sz2 | exact Hn]).
  assert (Cod : ncols od = 1) by (eapply shape_ncols; [exact Sod | exact Hn]).
  assert (CX : ncols X = 2) by (eapply shape_ncols; [exact HX | exact Hn]).
  assert (Stz2 : shape 3 n (Tensor.t (z2 nn1))).
  { pose proof (shape_t (z2 nn1)) as H. rewrite Cz2 in H.
    destruct Sz2 as [Hl _]. rewrite Hl in H. exact H. }
  assert (StW2 : shape 1 3 (Tensor.t (W2 nn))).
  { pose proof (shape_t (W2 nn)) as H. rewrite C2 in H.
    destruct HW2 as [Hl _]. rewrite Hl in H. exact H. }
  assert (CtW2 : ncols (Tensor.t (W2 nn)) = 3) by (eapply shape_ncols; [exact StW2 | lia]).
  assert (StX : shape 2 n (Tensor.t X)).
  { pose proof (shape_t X) as H. rewrite CX in H.
    destruct HX as [Hl _]. rewrite Hl in H. exact H. }
  set (z2e := matmul od (Tensor.t (W2 nn))).
  assert (Sz2e : shape n 3 z2e)
    by (eapply shape_matmul_cols; [exact Sod | exact CtW2]).
  set (z2d := mmul z2e (mmap sigmoidPrime (z2 nn1))).
  assert (Sz2d : shape n 3 z2d)
    by (apply shape_mzip; [exact Sz2e | apply shape_mmap, Sz2]).
  assert (Cz2d : ncols z2d = 3) by (eapply shape_ncols; [exact Sz2d | exact Hn]).
  assert (Ez2d : forall i k, i < n -> k < 3 ->
            entry z2d i k = (delta nn X y i * entry (W2 nn) k 0
                             * sigmoidPrime (hidden nn X i k))%R).
  { intros i k Hi Hk. unfold z2d, mmul.
    rewrite (entry_mzip _ n 3);
      [| exact Sz2e | apply shape_mmap, Sz2 | exact Hi | exact Hk].
    rewrite (entry_mmap _ n 3), Ez2 by assumption. f_equal.
    unfold z2e. rewrite (entry_matmul_sum n 1);
      [| exact Sod | apply StW2 | exact Hi | lia].
    unfold bigsum. simpl. rewrite Eod by exact Hi.
    rewrite entry_t by lia. lra. }
  split.
  - intros k Hk. unfold madd.
    rewrite (entry_mzip _ 3 1);
      [| exact HW2 | eapply shape_matmul_cols; [exact Stz2 | exact Cod] | exact Hk | lia].
    f_equal. rewrite (entry_matmul_sum 3 n);
      [| exact Stz2 | apply Sod | exact Hk | lia].
    apply bigsum_ext. intros i Hi.
    rewrite entry_t, Ez2, Eod by (assumption || lia). reflexivity.
  - intros j k Hj Hk. unfold madd.
    rewrite (entry_mzip _ 2 3);
      [| exact HW1 | eapply shape_matmul_cols; [exact StX | exact Cz2d] | exact Hj | exact Hk].
    f_equal. rewrite (entry_matmul_sum 2 n);
      [| exact StX | apply Sz2d | exact Hj | lia].
    apply bigsum_ext. intros i Hi.
    rewrite entry_t, Ez2d by (assumption || lia). reflexivity.
Qed.

End DeltaRule.

End NNFacts.

(** ** The from-scratch loop *)

Module ScratchFacts.
Import Tensor Scratch.

Lemma iter_shift {A} (f : A -> A) (k : nat) (x : A) :
  Nat.iter k f (f x) = f (Nat.iter k f x).
Proof. induction k as [|k IH]; simpl; [reflexivity | rewrite IH; reflexivity]. Qed.

Lemma iteration_weights (X y : mat) (s : state) (i : nat) :
  Neural_Network.weights (NN (iteration X y s i))
  = Neural_Network.train_weights X y (Neural_Network.weights (NN s)).
Proof. unfold iteration. destruct (i mod 100 =? 0)%nat; reflexivity. Qed.

Lemma iteration_prints (X y : mat) (s : state) (i : nat) :
  i mod 100 = 0 ->
  stdout (iteration X y s i)
  = stdout s ++ [ScratchLoss i (mse y (fst (Neural_Network.forward (NN s) X)))] /\
  trace (iteration X y s i) = trace s ++ [ECall].
Proof.
  intros H. unfold iteration. apply Nat.eqb_eq in H. rewrite H.
  split; reflexivity.
Qed.

Lemma iteration_silent (X y : mat) (s : state) (i : nat) :
  i mod 100 <> 0 ->
  stdout (iteration X y s i) = stdout s /\ trace (iteration X y s i) = trace s.
Proof.
  intros H. unfold iteration. apply Nat.eqb_neq in H. rewrite H.
  split; reflexivity.
Qed.

Lemma scratch_loop_spec (X y : mat) (k : nat) :
  forall start (s : state),
    exists logs,
      let s' := fold_left (iteration X y) (seq start k) s in
      Neural_Network.weights (NN s')
      = Nat.iter k (Neural_Network.train_weights X y) (Neural_Network.weights (NN s)) /\
      trace s' = trace s ++ repeat ECall (length logs) /\
      stdout s' = stdout s ++ logs /\
      Forall2 (fun i l => exists v, l = ScratchLoss i v)
              (filter (fun i => i mod 100 = 0) (seq start k)) logs.
Proof.
  induction k as [|k IH]; intros start s.
  - exists []. simpl. rewrite !app_nil_r. repeat split; constructor.
  - destruct (IH (S start) (iteration X y s start)) as (logs & Hw & Ht & Ho & Hl).
    cbv zeta in *. change (seq start (S k)) with (start :: seq (S start) k).
    change (fold_left (iteration X y) (start :: seq (S start) k) s)
      with (fold_left (iteration X y) (seq (S start) k) (iteration X y s start)).
    rewrite iteration_weights, iter_shift in Hw.
    destruct (Nat.eq_dec (start mod 100) 0) as [E|E].
    + destruct (iteration_prints X y s start E) as [Eo Et].
      eexists (_ :: logs). split; [exact Hw|].
      split; [rewrite Ht, Et, <- app_assoc; reflexivity|].
      split; [rewrite Ho, Eo, <- app_assoc; reflexivity|].
      rewrite filter_cons_True by exact E. constructor; [eauto | exact Hl].
    + destruct (iteration_silent X y s start E) as [Eo Et].
      exists logs. split; [exact Hw|].
      split; [rewrite Ht, Et; reflexivity|].
      split; [rewrite Ho, Eo; reflexivity|].
      rewrite filter_cons_False by exact E. exact Hl.
Qed.

Lemma after_training_stdout (xP : vec) (s : state) :
  stdout (after_training xP s)
  = stdout s ++ [PredictedHeader; InputScaled xP;
                 OutputLine (fst (Neural_Network.forward (NN s) [xP])); Finished].
Proof. unfold after_training. destruct (Neural_Network.forward (NN s) [xP]); reflexivity. Qed.

Lemma fold_seq_first {A} (f : A -> nat -> A) (k : nat) (s : A) :
  fold_left f (seq 0 (S k)) s = fold_left f (seq 1 k) (f s 0).
Proof. reflexivity. Qed.

(** The first line of a run is the loss of the weights that were drawn. *)
Lemma first_line (w1 w2 X y : mat) (xP : vec) :
  hd_error (stdout (notebook w1 w2 X y xP))
  = Some (ScratchLoss 0 (mse y (fst (Neural_Network.forward
                                       (Neural_Network.init w1 w2) X)))).
Proof.
  unfold notebook. rewrite after_training_stdout. unfold training.
  change iterations with (S 999). rewrite fold_seq_first.
  set (s0 := {| NN := Neural_Network.init w1 w2; trace := []; stdout := [] |}).
  destruct (scratch_loop_spec X y 999 1 (iteration X y s0 0)) as (logs & _ & _ & Ho & _).
  cbv zeta in Ho. rewrite Ho.
  destruct (iteration_prints X y s0 0 eq_refl) as [Eo _]. rewrite Eo.
  reflexivity.
Qed.

Lemma sigmoid_0 : Neural_Network.sigmoid 0 = (1 / 2)%R.
Proof. unfold Neural_Network.sigmoid. rewrite Ropp_0, exp_0. lra. Qed.

Lemma sigmoid_1_bounds :
  (1 / 2 < Neural_Network.sigmoid 1 <= 3 / 4)%R.
Proof.
  unfold Neural_Network.sigmoid. rewrite exp_Ropp.
  pose proof exp_le_3 as H3.
  pose proof (exp_increasing 0 1 ltac:(lra)) as H1. rewrite exp_0 in H1.
  set (e := exp 1) in *.
  assert (He : (/ e * e = 1)%R) by (field; lra).
  assert (Hi : (1 / 3 <= / e < 1)%R) by (split; nra).
  set (u := (1 + / e)%R) in *.
  assert (Hu : (1 / u * u = 1)%R) by (unfold u; field; split; lra).
  assert (Hub : (4 / 3 <= u < 2)%R) by (unfold u; lra).
  split; nra.
Qed.

(** The forward pass of the notebook's data with zero weights, and with
    the other draw of [W2]. *)
Ltac at_zero :=
  repeat match goal with
         | |- context [Neural_Network.sigmoid ?a] =>
             lazymatch a with
             | 0%R => fail
             | _ => replace a with 0%R by lra
             end
         end;
  rewrite ?sigmoid_0.

Lemma forward_zero :
  Neural_Network.forward (Neural_Network.init W1_zero W2_zero) X
  = ([[1 / 2]; [1 / 2]; [1 / 2]]%R,
     {| Neural_Network.W1 := W1_zero; Neural_Network.W2 := W2_zero;
        Neural_Network.z := [[0; 0; 0]; [0; 0; 0]; [0; 0; 0]]%R;
        Neural_Network.z2 := [[1 / 2; 1 / 2; 1 / 2]; [1 / 2; 1 / 2; 1 / 2];
                              [1 / 2; 1 / 2; 1 / 2]]%R;
        Neural_Network.z3 := [[0]; [0]; [0]]%R;
        Neural_Network.o_error := []; Neural_Network.o_delta := [];
        Neural_Network.z2_error := []; Neural_Network.z2_delta := [] |}).
Proof.
  unfold Neural_Network.forward, Neural_Network.init, X, W1_zero, W2_zero.
  cbn -[Rplus Rmult Rdiv Rinv Neural_Network.sigmoid].
  at_zero. repeat f_equal; lra.
Qed.

Ltac at_sigmoid_half :=
  repeat match goal with
         | |- context [Neural_Network.sigmoid ?a] =>
             lazymatch a with
             | 0%R => fail
             | 1%R => fail
             | _ => first [replace a with 0%R by lra | replace a with 1%R by lra]
             end
         end;
  rewrite ?sigmoid_0.

Lemma forward_other :
  fst (Neural_Network.forward (Neural_Network.init W1_zero W2_other) X)
  = [[Neural_Network.sigmoid 1]; [Neural_Network.sigmoid 1];
     [Neural_Network.sigmoid 1]].
Proof.
  unfold Neural_Network.forward, Neural_Network.init, X, W1_zero, W2_other.
  cbn -[Rplus Rmult Rdiv Rinv Neural_Network.sigmoid].
  at_sigmoid_half. at_sigmoid_half. reflexivity.
Qed.

(** One call of [train] on the notebook's data, from zero weights. *)
Lemma train_zero :
  Neural_Network.weights
    (Neural_Network.train (Neural_Network.init W1_zero W2_zero) X y)
  = (W1_zero, [[131 / 800]; [131 / 800]; [131 / 800]]%R).
Proof.
  unfold Neural_Network.train. rewrite forward_zero.
  unfold Neural_Network.backward, Neural_Network.weights, X, y, W1_zero, W2_zero,
    Neural_Network.sigmoidPrime.
  cbn -[Rplus Rmult Rdiv Rinv Rminus].
  repeat f_equal; lra.
Qed.

Lemma W2_changed :
  [[131 / 800]; [131 / 800]; [131 / 800]]%R <> W2_zero.
Proof.
  intros H. apply (f_equal (fun m => entry m 0 0)) in H.
  unfold entry, W2_zero in H. cbn [nth] in H. lra.
Qed.

Lemma weights_differ :
  (W1_zero, [[131 / 800]; [131 / 800]; [131 / 800]]%R) <> (W1_zero, W2_zero).
Proof. intros H. apply W2_changed. exact (f_equal snd H). Qed.

Lemma mse_constant (c : R) :
  mse y [[c]; [c]; [c]]
  = (((92 / 100 - c) * (92 / 100 - c) + (100 / 100 - c) * (100 / 100 - c)
      + (89 / 100 - c) * (89 / 100 - c)) / 3)%R.
Proof.
  unfold mse, mean, y. cbn -[Rplus Rmult Rdiv Rinv Rminus]. lra.
Qed.

Lemma losses_differ :
  mse y [[1 / 2]; [1 / 2]; [1 / 2]]%R
  <> mse y [[Neural_Network.sigmoid 1]; [Neural_Network.sigmoid 1];
            [Neural_Network.sigmoid 1]].
Proof.
  rewrite !mse_constant. pose proof sigmoid_1_bounds as [Hl Hu].
  set (c := Neural_Network.sigmoid 1) in *. nra.
Qed.

End ScratchFacts.

(** ** The reporting cell *)

Module ReportFacts.
Import Counterfactual.

Lemma index_nth {A} (l : list A) (i : nat) (d : A) :
  i < length l -> index l i = inl (nth i l d).
Proof. intros H. unfold index. rewrite (nth_error_nth' l d H). reflexivity. Qed.

Lemma enumerate_bound {A} (l : list A) (i : nat) (a : A) :
  In (i, a) (enumerate l) -> i < length l.
Proof.
  unfold enumerate. intros H. apply in_combine_l, in_seq in H. lia.
Qed.

Lemma np_sub_same_length (a b : array) :
  length a = length b -> np_sub a b = inl (zip_with Qminus a b).
Proof. intros H. unfold np_sub. apply Nat.eqb_eq in H. rewrite H. reflexivity. Qed.

Lemma explain_all (x e d : array) (pairs : list (nat * string)) :
  (forall i feat, In (i, feat) pairs ->
                  i < length d /\ i < length x /\ i < length e) ->
  forall out,
    foldM (explain_feature x e d) pairs out
    = inl (out ++ flat_map (fun ifeat : nat * string =>
                              if nonzero (nth (fst ifeat) d 0%Q)
                              then [Change (snd ifeat) (nth (fst ifeat) x 0%Q)
                                           (nth (fst ifeat) e 0%Q)]
                              else []) pairs).
Proof.
  induction pairs as [|[i feat] pairs IH]; intros Hb out; simpl.
  - rewrite app_nil_r. reflexivity.
  - destruct (Hb i feat (or_introl eq_refl)) as (Hd & Hx & He).
    rewrite (index_nth d i 0%Q Hd). simpl.
    destruct (nonzero (nth i d 0%Q)).
    + rewrite (index_nth x i 0%Q Hx), (index_nth e i 0%Q He). simpl.
      rewrite IH by (intros j f Hj; apply (Hb j f); right; exact Hj).
      rewrite <- app_assoc. reflexivity.
    + simpl. apply IH. intros j f Hj; apply (Hb j f); right; exact Hj.
Qed.

Lemma nth_difference (e x : array) (i : nat) :
  i < length e -> i < length x ->
  nth i (zip_with Qminus e x) 0%Q = (nth i e 0 - nth i x 0)%Q.
Proof.
  revert x i. induction e as [|a e IH]; intros [|b x] [|i] He Hx;
    simpl in *; try lia; try reflexivity.
  apply IH; lia.
Qed.

Lemma nonzero_difference (a b : Q) :
  nonzero (a - b) = if Qeq_dec a b then false else true.
Proof.
  unfold nonzero. destruct (Qeq_dec a b) as [E|E].
  - assert (H : Qeq_bool (a - b) 0 = true).
    { apply Qeq_bool_iff. rewrite E. ring. }
    rewrite H. reflexivity.
  - destruct (Qeq_bool (a - b) 0) eqn:H; [|reflexivity].
    exfalso. apply E. apply Qeq_bool_iff in H.
    apply (Qplus_inj_r a b (- b)). unfold Qminus in H. rewrite H. ring.
Qed.

Lemma flat_map_agree {A B} (f g : A -> list B) (l : list A) :
  (forall a, In a l -> f a = g a) -> flat_map f l = flat_map g l.
Proof.
  induction l as [|a l IH]; intros H; simpl; [reflexivity|].
  rewrite (H a (or_introl eq_refl)), IH; [reflexivity|].
  intros b Hb. apply H. right. exact Hb.
Qed.

(** The test [cf_explanation[i] != 0] of the cell holds of the features
    that the example changes. *)
Lemma tested_are_changed (names : list string) (x e : array) :
  length e = length x -> length names = length x ->
  flat_map (fun ifeat : nat * string =>
              if nonzero (nth (fst ifeat) (zip_with Qminus e x) 0%Q)
              then [Change (snd ifeat) (nth (fst ifeat) x 0%Q) (nth (fst ifeat) e 0%Q)]
              else []) (enumerate names)
  = changes names x e.
Proof.
  intros Hl Hn. unfold changes. apply flat_map_agree. intros [i feat] Hin.
  apply enumerate_bound in Hin. simpl.
  rewrite nth_difference by lia. rewrite nonzero_difference.
  destruct (Qeq_dec (nth i e 0%Q) (nth i x 0%Q)); reflexivity.
Qed.

Section Cell.
Context (sk : sklearn).

Lemma report_success (bbm : forest sk) (names : list string) (x elite : array) r :
  report sk bbm names x elite = inl r -> In Success (printed r) ->
  index (predict sk bbm [elite]) 0 = inl desired_class /\
  cf_example r = elite /\ np_sub elite x = inl (cf_explanation r).
Proof.
  unfold report, predict_call. intros H Hin.
  apply bind_ok in H as (d & Hd & H). apply bind_ok in H as (c & Hc & H).
  apply bind_ok in H as (out & Hout & H). inversion H; subst r; clear H.
  simpl in *. destruct (c =? desired_class)%Z eqn:E.
  - apply Z.eqb_eq in E. subst c. auto.
  - inversion Hout; subst out. destruct Hin as [Hin|[]]. discriminate.
Qed.

Lemma report_branches (bbm : forest sk) (names : list string) (x elite : array) (c : Z) :
  length elite = length x -> length names = length x ->
  index (predict sk bbm [elite]) 0 = inl c ->
  report sk bbm names x elite
  = inl {| cf_example := elite;
           cf_explanation := zip_with Qminus elite x;
           printed := if (c =? desired_class)%Z
                      then Success :: changes names x elite
                      else [Failure];
           calls := [CPredict] |}.
Proof.
  intros Hl Hn Hc. unfold report, predict_call.
  rewrite (np_sub_same_length _ _ Hl). simpl. rewrite Hc. simpl.
  destruct (c =? desired_class)%Z; [|reflexivity].
  rewrite explain_all.
  - simpl. rewrite (tested_are_changed names x elite Hl Hn). reflexivity.
  - intros i feat Hin. apply enumerate_bound in Hin.
    rewrite length_zip_with. lia.
Qed.

End Cell.

Section Pipeline.
Context (sk : sklearn) (np : numpy_random) (rs : sklearn_random sk np).
Hypothesis Hrs : honours_random_state rs.

(** A run of the cells, whatever the generator held before. *)
Lemma pipeline_seeded (g0 : generator np) (X : list array) (y : list Z) :
  let sp := fst (train_test_split rs X y (Some SEED) (seed np SEED)) in
  let f := fst (fit rs (Some SEED) (fst (fst sp)) (fst (snd sp)) (seed np SEED)) in
  pipeline sk np rs g0 X y
  = {| np_state := seed np SEED;
       X_train := fst (fst sp); X_test := snd (fst sp);
       y_train := fst (snd sp); y_test := snd (snd sp);
       bbm := f;
       shown := score_cell sk f (snd (fst sp)) (snd (snd sp)) |}.
Proof.
  destruct Hrs as (_ & S2 & _ & F2). intros sp f. subst f sp.
  unfold pipeline, seed_cell, split_cell, fit_cell.
  pose proof (S2 X y SEED (seed np SEED)) as Hg.
  destruct (train_test_split rs X y (Some SEED) (seed np SEED))
    as [[[Xtr Xte] [ytr yte]] g]. simpl in Hg. subst g. simpl.
  pose proof (F2 Xtr ytr SEED (seed np SEED)) as Hg.
  destruct (fit rs (Some SEED) Xtr ytr (seed np SEED)) as [f g].
  simpl in Hg. subst g. reflexivity.
Qed.

End Pipeline.

Lemma drawing_sklearn_honours : honours_random_state drawing_sklearn.
Proof. repeat split. Qed.

End ReportFacts.

(** * The claims *)

(** C5.  The BoW and CBOW classifiers sum token embeddings.  For a
    well-formed model and a non-empty sequence [x] of token indices below
    [nwords], [BoW.forward] returns one row of [ntags] scores whose entry
    [j] is the sum over the tokens of entry [j] of their embedding rows,
    plus entry [j] of the bias; [CBoW.forward] returns the linear layer
    applied to one row of [emb_size] entries, entry [j] of which is the
    sum over the tokens of entry [j] of their embedding rows. *)
Theorem forward_sums_token_embeddings :
  (forall (m : BoW.t) (x : list nat),
      BoW.wf m -> x <> [] -> Forall (fun tok => tok < BoW.nwords m) x ->
      exists out : Tensor.vec,
        BoW.forward m x = inl [out] /\ length out = BoW.ntags m /\
        forall j, j < BoW.ntags m ->
                  nth j out 0%R
                  = (token_sum (BoW.embedding m) x j + nth j (BoW.bias m) 0)%R) /\
  (forall (m : CBoW.t) (x : list nat),
      CBoW.wf m -> x <> [] -> Forall (fun tok => tok < CBoW.nwords m) x ->
      exists s : Tensor.vec,
        CBoW.forward m x = inl (Tensor.linear (CBoW.linear m) [s]) /\
        length s = CBoW.emb_size m /\
        forall j, j < CBoW.emb_size m ->
                  nth j s 0%R = token_sum (CBoW.embedding m) x j).
Proof.
  split.
  - intros m x Hwf _ Hx.
    destruct (TensorFacts.BoW_forward_spec m x Hwf Hx) as (out & E & Hl & Hj).
    exists out; auto.
  - intros m x Hwf _ Hx.
    destruct (TensorFacts.CBoW_forward_spec m x Hwf Hx) as (s & E & Hl & Hj).
    exists s; auto.
Qed.

Lemma forward_sums_token_embeddings_witness :
  exists out : Tensor.vec,
    BoW.forward bow_example sentence_example = inl [out] /\ length out = 2 /\
    forall j, j < 2 ->
              nth j out 0%R
              = (token_sum (BoW.embedding bow_example) sentence_example j
                 + nth j (BoW.bias bow_example) 0)%R.
Proof.
  apply (proj1 forward_sums_token_embeddings bow_example sentence_example).
  - unfold BoW.wf; simpl. repeat split; repeat constructor.
  - discriminate.
  - simpl. repeat constructor.
Defined.

(** C8.  The vocabulary-index invariant.  When the cell has run:
    ["<unk>"] has index 0 after both calls of [create_dict]; after the call
    on the training data every stored index is below the size of the
    dictionary, every training word is stored and two words with one index
    are the same word; a word of the test data that was not stored then is
    stored with the index 0 of ["<unk>"] after the call with
    [check_unk=True]; every token index that [create_tensor] produced is
    below [number_of_words], and so the embedding lookups of [BoW.forward]
    and [CBoW.forward] on the encoded sentences raise nothing. *)
Theorem vocabulary_index_invariant
        (train test : list (list string)) (p : Vocab.prepared) :
  Vocab.prepare train test = inl p ->
  let w1 := Vocab.word_to_index (Vocab.after_train p) in
  let w2 := Vocab.word_to_index (Vocab.final p) in
  let encoded := Vocab.train_data p ++ Vocab.test_data p in
  (w1 !! "<unk>" = Some 0 /\ w2 !! "<unk>" = Some 0) /\
  (forall w i, w1 !! w = Some i -> i < size w1) /\
  (forall w, In w (Vocab.words_of train) -> is_Some (w1 !! w)) /\
  (forall a b i, w1 !! a = Some i -> w1 !! b = Some i -> a = b) /\
  (forall w, In w (Vocab.words_of test) -> w1 !! w = None -> w2 !! w = Some 0) /\
  (forall sent tag tok,
      In (sent, tag) encoded -> In tok sent -> tok < Vocab.number_of_words p) /\
  (forall sent tag, In (sent, tag) encoded ->
      (forall m, BoW.wf m -> BoW.nwords m = Vocab.number_of_words p ->
                 succeeds (BoW.forward m sent)) /\
      (forall m, CBoW.wf m -> CBoW.nwords m = Vocab.number_of_words p ->
                 succeeds (CBoW.forward m sent))).
Proof.
  intros H w1 w2 encoded.
  destruct (PrepareFacts.prepare_ok_fields _ _ _ H) as [Htr Hte].
  destruct (PrepareFacts.prepare_spec train test Htr Hte)
    as (p' & E & D1 & [S12 G12] & C1 & C2 & Etr & Ete & En).
  assert (p' = p) by congruence; subst p'.
  fold w1 in D1, S12, G12. fold w2 in S12, G12.
  destruct D1 as (Hu & Hb & Hi).
  assert (Hbound : forall w i, w2 !! w = Some i -> i < Vocab.number_of_words p).
  { intros w i Hw. rewrite En. fold w2.
    pose proof (map_subseteq_size _ _ S12) as Hs.
    pose proof (Hb _ _ Hu) as H0.
    destruct (G12 w i Hw) as [Hw1| ->]; [apply Hb in Hw1|]; lia. }
  assert (Htok : forall sent tag tok,
             In (sent, tag) encoded -> In tok sent -> tok < Vocab.number_of_words p).
  { intros sent tag tok Hin Htok. unfold encoded in Hin.
    apply in_app_or in Hin as [Hin|Hin];
      [destruct (PrepareFacts.create_tensor_tokens _ _ _ Etr sent tag tok Hin Htok) as (w & Hw)
      |destruct (PrepareFacts.create_tensor_tokens _ _ _ Ete sent tag tok Hin Htok) as (w & Hw)];
      eapply Hbound; exact Hw. }
  split; [split; [exact Hu | eapply lookup_weaken; [exact Hu | exact S12]]|].
  split; [exact Hb|].
  split; [apply PrepareFacts.words_of_covered, C1|].
  split; [exact Hi|].
  split.
  { intros w Hin Hnone.
    destruct (PrepareFacts.words_of_covered _ _ C2 w Hin) as (i & Hw).
    fold w2 in Hw. destruct (G12 w i Hw) as [Hw1| ->]; [congruence | exact Hw]. }
  split; [exact Htok|].
  intros sent tag Hin.
  assert (Hx : forall n, n = Vocab.number_of_words p -> Forall (fun tok => tok < n) sent).
  { intros n ->. apply Forall_forall. intros tok Ht.
    eapply Htok; [exact Hin | apply list_elem_of_In, Ht]. }
  split; intros m Hwf Hn.
  - destruct (TensorFacts.BoW_forward_spec m sent Hwf (Hx _ Hn)) as (out & E' & _).
    exists [out]; exact E'.
  - destruct (TensorFacts.CBoW_forward_spec m sent Hwf (Hx _ Hn)) as (s & E' & _).
    eexists; exact E'.
Qed.

Lemma vocabulary_index_invariant_witness :
  exists p, Vocab.prepare corpus_train corpus_test = inl p /\
    forall sent tag tok,
      In (sent, tag) (Vocab.train_data p ++ Vocab.test_data p) ->
      In tok sent -> tok < Vocab.number_of_words p.
Proof.
  assert (E : exists p, Vocab.prepare corpus_train corpus_test = inl p)
    by (vm_compute; eexists; reflexivity).
  destruct E as (p & E). exists p. split; [exact E|].
  apply (vocabulary_index_invariant corpus_train corpus_test p E).
Defined.

(** C9, as the claim states it, fails: the last line of a file may hold a
    tag, the separator and nothing else.  The line contains [" ||| "], but
    [strip] runs before [split] and removes the blank that ends the
    separator, so [read_data] returns a single field and [create_dict]
    raises on [line[1]]. *)
Lemma separator_in_raw_line_not_enough :
  Forall (PyStr.contains Vocab.sep) ["3 ||| "] /\
  Vocab.read_data ["3 ||| "] = [["3 |||"]] /\
  Vocab.create_dict (Vocab.read_data ["3 ||| "]) false Vocab.init = inr IndexError /\
  Vocab.prepare (Vocab.read_data ["3 ||| "]) (Vocab.read_data []) = inr IndexError.
Proof.
  split; [|split; [|split]].
  - constructor; [|constructor]. exists "3", "". reflexivity.
  - reflexivity.
  - reflexivity.
  - reflexivity.
Qed.

(** C9, amended.  [read_data] returns, for each line, the lowercased and
    stripped line split on [" ||| "]; the cell that builds the dictionaries
    and the tensors runs without an error exactly when every line, after
    [lower] and [strip], contains the separator; when it does raise, it
    raises the [IndexError] of [line[1]]; and a line that, lowercased and
    stripped, has no separator yields a single field, on which [line[1]]
    is out of range. *)
Theorem separator_precondition (f_train f_test : list string) :
  let cleaned raw := PyStr.strip (PyStr.lower raw) in
  (length (Vocab.read_data f_train) = length f_train /\
   forall i raw, nth_error f_train i = Some raw ->
                 nth_error (Vocab.read_data f_train) i
                 = Some (PyStr.split " ||| " (cleaned raw))) /\
  (succeeds (Vocab.prepare (Vocab.read_data f_train) (Vocab.read_data f_test))
   <-> Forall (fun raw => PyStr.contains " ||| " (cleaned raw)) (f_train ++ f_test)) /\
  (forall e, Vocab.prepare (Vocab.read_data f_train) (Vocab.read_data f_test) = inr e ->
             e = IndexError) /\
  (forall raw, ~ PyStr.contains " ||| " (cleaned raw) ->
               exists field, PyStr.split " ||| " (cleaned raw) = [field] /\
                             index [field] 1 = inr IndexError).
Proof.
  intros cleaned.
  assert (Hsep : Vocab.sep <> EmptyString) by discriminate.
  assert (Hfields : forall f,
             Forall Vocab.two_fields (Vocab.read_data f)
             <-> Forall (fun raw => PyStr.contains " ||| " (cleaned raw)) f).
  { intros f. unfold Vocab.read_data. rewrite Forall_map.
    apply Forall_iff. intros raw. unfold Vocab.two_fields.
    apply (PyStrFacts.split_two_iff Vocab.sep (cleaned raw) Hsep). }
  split; [|split; [|split]].
  - unfold Vocab.read_data. split; [apply length_map|].
    intros i raw Hi. rewrite nth_error_map, Hi. reflexivity.
  - rewrite Forall_app, <- !Hfields. split.
    + intros (p & Hp). eapply PrepareFacts.prepare_ok_fields, Hp.
    + intros [Htr Hte].
      destruct (PrepareFacts.prepare_spec _ _ Htr Hte) as (p & Hp & _).
      exists p; exact Hp.
  - apply PrepareFacts.prepare_error.
  - intros raw Hno.
    pose proof (PyStrFacts.split_nonempty Vocab.sep (cleaned raw)) as H1.
    pose proof (PyStrFacts.split_two_iff Vocab.sep (cleaned raw) Hsep) as H2.
    fold Vocab.sep. change (PyStr.contains " ||| " (cleaned raw))
      with (PyStr.contains Vocab.sep (cleaned raw)) in Hno.
    destruct (PyStr.split Vocab.sep (cleaned raw)) as [|field [|f2 rest]] eqn:E;
      simpl in *; [lia | | exfalso; apply Hno, H2; lia].
    exists field. split; reflexivity.
Qed.

(** C10.  [sigmoidPrime] is the derivative of [sigmoid] in terms of the
    output of [sigmoid]: with [sigmoid x = 1 / (1 + exp (- x))], the value
    [sigmoidPrime (sigmoid x) = sigmoid x * (1 - sigmoid x)] is the
    derivative of [sigmoid] at [x], for every real [x]. *)
Theorem sigmoidPrime_is_the_derivative (x : R) :
  Neural_Network.sigmoid x = (1 / (1 + exp (- x)))%R /\
  Neural_Network.sigmoidPrime (Neural_Network.sigmoid x)
  = (Neural_Network.sigmoid x * (1 - Neural_Network.sigmoid x))%R /\
  derivable_pt_lim Neural_Network.sigmoid x
                   (Neural_Network.sigmoidPrime (Neural_Network.sigmoid x)).
Proof.
  split; [reflexivity|]. split; [reflexivity|]. apply NNFacts.sigmoid_derivable.
Qed.

(** C1, as the claim states it, fails on [Neural_Network.backward]: on the
    notebook's data and zero weights, the call of [train] in the second
    iteration of the loop replaces [W2] by values that [backward] computes
    from [sigmoidPrime], and the run makes no call of [loss.backward()] or
    [optimizer.step()]. *)
Lemma backward_computes_the_update_by_hand :
  let s0 := {| Scratch.NN := Neural_Network.init W1_zero W2_zero;
               Scratch.trace := []; Scratch.stdout := [] |} in
  let s1 := Scratch.iteration Scratch.X Scratch.y s0 1 in
  Neural_Network.W2 (Scratch.NN s1) = [[131 / 800]; [131 / 800]; [131 / 800]]%R /\
  Neural_Network.W2 (Scratch.NN s1) <> Neural_Network.W2 (Scratch.NN s0) /\
  Neural_Network.o_delta (Scratch.NN s1)
  = Tensor.mmul (Tensor.msub Scratch.y [[1 / 2]; [1 / 2]; [1 / 2]]%R)
                (Tensor.mmap Neural_Network.sigmoidPrime [[1 / 2]; [1 / 2]; [1 / 2]]%R) /\
  count_event EBackward (Scratch.trace s1) = 0 /\
  count_event EStep (Scratch.trace s1) = 0.
Proof.
  intros s0 s1.
  pose proof (ScratchFacts.iteration_weights Scratch.X Scratch.y s0 1) as Hw.
  fold s1 in Hw.
  change (Neural_Network.train_weights Scratch.X Scratch.y
            (Neural_Network.weights (Scratch.NN s0)))
    with (Neural_Network.weights
            (Neural_Network.train (Neural_Network.init W1_zero W2_zero)
                                  Scratch.X Scratch.y)) in Hw.
  rewrite ScratchFacts.train_zero in Hw.
  pose proof (f_equal snd Hw) as H2.
  change (Neural_Network.W2 (Scratch.NN s1)
          = [[131 / 800]; [131 / 800]; [131 / 800]]%R) in H2.
  split; [exact H2|]. split.
  - rewrite H2. apply ScratchFacts.W2_changed.
  - split; [|split; reflexivity].
    unfold s1, s0, Scratch.iteration.
    change ((1 mod 100 =? 0)%nat) with false. cbv iota. cbn [Scratch.NN].
    unfold Neural_Network.train. rewrite ScratchFacts.forward_zero. reflexivity.
Qed.

(** C1, amended.  In the loops of the BoW, CBOW, Deep CBOW and hello-world
    notebooks the gradients and the updates are the library's: the model
    after the loop is the model before it, changed by nothing but the
    library's own operations ([zero_grad], [loss.backward()],
    [optimizer.step()], [model.train()], [model.eval()]), one update
    [step (backward loss (zero_grad m))] for each training example of each
    epoch ([epoch_update]) or for each iteration ([Hello.update]), and the
    run calls [loss.backward()] once for each call of [optimizer.step()].
    The from-scratch notebook computes its gradients itself: [sigmoidPrime]
    is the derivative of [sigmoid], and for [n] samples [train] adds to
    [W2[k][0]] the sum over the samples of [hidden * delta] and to
    [W1[j][k]] the sum over the samples of
    [X[i][j] * delta * W2[k][0] * sigmoidPrime(hidden)]. *)
Theorem gradients_by_the_library_or_by_backward :
  (forall (L : Torch.lib (list nat) nat) (P : Torch.pyrandom TextLoop.example)
          (test : list TextLoop.example) (s : TextLoop.state L P),
      TextLoop.train_data s <> [] -> test <> [] ->
      forall loop, loop = TextLoop.train_bow L P \/ loop = TextLoop.train_cbow L P ->
      exists s' tr,
        loop test s = inl s' /\
        Torch.reaches L (TextLoop.model s) (TextLoop.model s') /\
        (TextLoop.model s', TextLoop.generator s', TextLoop.train_data s')
        = Nat.iter 10 (TextLoop.epoch_update L P)
                   (TextLoop.model s, TextLoop.generator s, TextLoop.train_data s) /\
        TextLoop.trace s' = TextLoop.trace s ++ tr /\
        count_event EBackward tr = count_event EStep tr /\
        count_event EStep tr = 10 * length (TextLoop.train_data s)) /\
  (forall (L : Torch.lib Tensor.mat Tensor.mat) (x y : Tensor.mat) (s : Hello.state L),
      exists tr,
        Torch.reaches L (Hello.model s) (Hello.model (Hello.training L x y s)) /\
        Hello.model (Hello.training L x y s)
        = Nat.iter 150 (Hello.update L x y) (Hello.model s) /\
        Hello.trace (Hello.training L x y s) = Hello.trace s ++ tr /\
        count_event EBackward tr = count_event EStep tr /\
        count_event EStep tr = 150) /\
  (forall x, derivable_pt_lim Neural_Network.sigmoid x
               (Neural_Network.sigmoidPrime (Neural_Network.sigmoid x))) /\
  (forall (nn : Neural_Network.t) (X y : Tensor.mat) (n : nat),
      0 < n -> Tensor.shape n 2 X -> Tensor.shape n 1 y ->
      Tensor.shape 2 3 (Neural_Network.W1 nn) ->
      Tensor.shape 3 1 (Neural_Network.W2 nn) ->
      (forall k, k < 3 ->
         Tensor.entry (Neural_Network.W2 (Neural_Network.train nn X y)) k 0
         = (Tensor.entry (Neural_Network.W2 nn) k 0
            + Tensor.bigsum n (fun i => Neural_Network.hidden nn X i k
                                        * Neural_Network.delta nn X y i))%R) /\
      (forall j k, j < 2 -> k < 3 ->
         Tensor.entry (Neural_Network.W1 (Neural_Network.train nn X y)) j k
         = (Tensor.entry (Neural_Network.W1 nn) j k
            + Tensor.bigsum n
                 (fun i => Tensor.entry X i j
                           * (Neural_Network.delta nn X y i
                              * Tensor.entry (Neural_Network.W2 nn) k 0
                              * Neural_Network.sigmoidPrime
                                  (Neural_Network.hidden nn X i k))))%R)).
Proof.
  split; [|split; [|split]].
  - intros L P test s Htr Hte loop Hloop.
    assert (G : forall label, exists s' tr,
               foldM (TextLoop.epoch L P label test) (seq 0 10) s = inl s' /\
               Torch.reaches L (TextLoop.model s) (TextLoop.model s') /\
               (TextLoop.model s', TextLoop.generator s', TextLoop.train_data s')
               = Nat.iter 10 (TextLoop.epoch_update L P)
                          (TextLoop.model s, TextLoop.generator s,
                           TextLoop.train_data s) /\
               TextLoop.trace s' = TextLoop.trace s ++ tr /\
               count_event EBackward tr = count_event EStep tr /\
               count_event EStep tr = 10 * length (TextLoop.train_data s)).
    { intros label.
      destruct (LoopFacts.text_loop_spec L P label test 10 0 s Htr Hte)
        as (s1 & logs1 & E1 & R1 & T1 & _).
      pose proof (LoopFacts.count_epoch_events
                    (length (TextLoop.train_data s)) (length test)) as (_ & Cb & Cs & _).
      exists s1. eexists. split; [exact E1|]. split; [exact R1|].
      split; [exact (LoopFacts.text_loop_model L P label test 10 0 s s1 E1)|].
      split; [exact T1|].
      rewrite !LoopFacts.count_event_blocks, Cb, Cs. split; reflexivity. }
    destruct Hloop as [-> | ->]; apply G.
  - intros L x y s.
    destruct (LoopFacts.hello_loop_spec L x y 150 0 s) as (logs & Hr & Ht & _).
    eexists. split; [exact Hr|].
    split; [exact (LoopFacts.hello_loop_model L x y 150 0 s)|].
    split; [exact Ht|].
    rewrite !LoopFacts.count_event_blocks. split; reflexivity.
  - apply NNFacts.sigmoid_derivable.
  - intros nn X y n Hn HX Hy HW1 HW2.
    apply (NNFacts.train_entries nn X y n Hn HX Hy HW1 HW2).
Qed.

Lemma gradients_by_the_library_or_by_backward_witness :
  (exists s' tr,
      TextLoop.train_bow history_lib (coin_random TextLoop.example)
                         two_examples (text_start false) = inl s' /\
      (TextLoop.model s', TextLoop.generator s', TextLoop.train_data s')
      = Nat.iter 10 (TextLoop.epoch_update history_lib (coin_random TextLoop.example))
                 (([], None), false, two_examples) /\
      TextLoop.trace s' = [] ++ tr /\
      count_event EBackward tr = count_event EStep tr /\
      count_event EStep tr = 20) /\
  Tensor.entry (Neural_Network.W2
                  (Neural_Network.train (Neural_Network.init W1_zero W2_zero)
                                        Scratch.X Scratch.y)) 0 0
  = (Tensor.entry W2_zero 0 0
     + Tensor.bigsum 3
         (fun i => Neural_Network.hidden (Neural_Network.init W1_zero W2_zero)
                                         Scratch.X i 0
                   * Neural_Network.delta (Neural_Network.init W1_zero W2_zero)
                                          Scratch.X Scratch.y i))%R.
Proof.
  split.
  - destruct (proj1 gradients_by_the_library_or_by_backward
                    history_lib (coin_random TextLoop.example)
                    two_examples (text_start false))
      with (loop := TextLoop.train_bow history_lib (coin_random TextLoop.example))
      as (s' & tr & E & _ & M & T & Cb & Cs).
    + discriminate.
    + discriminate.
    + left; reflexivity.
    + exists s', tr. split; [exact E|]. split; [exact M|]. split; [exact T|].
      split; [exact Cb | exact Cs].
  - refine (proj1 (proj2 (proj2 (proj2 gradients_by_the_library_or_by_backward))
                         (Neural_Network.init W1_zero W2_zero) Scratch.X Scratch.y 3
                         _ _ _ _ _) 0 _).
    + lia.
    + split; [reflexivity | repeat constructor].
    + split; [reflexivity | repeat constructor].
    + split; [reflexivity | repeat constructor].
    + split; [reflexivity | repeat constructor].
    + lia.
Defined.

(** C2, as the claim states it, fails on the from-scratch loop: its second
    iteration computes no loss and calls no optimizer, and the weights
    change all the same. *)
Lemma scratch_iteration_calls_no_optimizer :
  let s0 := {| Scratch.NN := Neural_Network.init W1_zero W2_zero;
               Scratch.trace := []; Scratch.stdout := [] |} in
  let s1 := Scratch.iteration Scratch.X Scratch.y s0 1 in
  Scratch.stdout s1 = [] /\
  count_event ECriterion (Scratch.trace s1) = 0 /\
  count_event EStep (Scratch.trace s1) = 0 /\
  Neural_Network.weights (Scratch.NN s1) <> Neural_Network.weights (Scratch.NN s0).
Proof.
  intros s0 s1. split; [reflexivity|]. split; [reflexivity|]. split; [reflexivity|].
  unfold s1. rewrite ScratchFacts.iteration_weights.
  unfold Neural_Network.train_weights. simpl fst. simpl snd.
  rewrite ScratchFacts.train_zero. apply ScratchFacts.weights_differ.
Qed.

(** C2, amended.  In the loops of the BoW, CBOW, Deep CBOW and hello-world
    notebooks every pass over a training example calls the criterion once
    and [optimizer.step()] once, and the model changes by these calls
    alone: a run of ten epochs over [n] training and [m] test sentences
    makes the calls of ten epochs, in their order, an epoch holds [n]
    criterion calls and [n] steps, and the model after the run is the model
    before it after ten times the updates of an epoch, each update the
    step of the optimizer on the back-propagated loss of the criterion;
    the hello-world loop makes the calls of 150 iterations, each with one
    criterion call and one step, and leaves the model that 150 such
    updates give.  The from-scratch loop calls neither: an iteration
    replaces the weights by what [train] computes, adds no criterion call
    and no step, and prints a loss only when [i % 100 == 0]. *)
Theorem loops_update_through_the_optimizer :
  (forall (L : Torch.lib (list nat) nat) (P : Torch.pyrandom TextLoop.example)
          (test : list TextLoop.example) (s : TextLoop.state L P),
      TextLoop.train_data s <> [] -> test <> [] ->
      forall loop, loop = TextLoop.train_bow L P \/ loop = TextLoop.train_cbow L P ->
      let n := length (TextLoop.train_data s) in
      let m := length test in
      exists s',
        loop test s = inl s' /\
        TextLoop.trace s' = TextLoop.trace s ++ concat (repeat (epoch_events n m) 10) /\
        epoch_events n m
        = [ETrainMode; EShuffle] ++ concat (repeat train_events n)
          ++ [EEvalMode] ++ repeat ECall m /\
        count_event ECriterion (epoch_events n m) = n /\
        count_event EStep (epoch_events n m) = n /\
        Torch.reaches L (TextLoop.model s) (TextLoop.model s') /\
        (TextLoop.model s', TextLoop.generator s', TextLoop.train_data s')
        = Nat.iter 10 (TextLoop.epoch_update L P)
                   (TextLoop.model s, TextLoop.generator s, TextLoop.train_data s) /\
        (forall mdl ex,
            TextLoop.update L mdl ex
            = Torch.step L (Torch.backward L
                              (Torch.criterion L (Torch.call L mdl (fst ex)) (snd ex))
                              (Torch.zero_grad L mdl)))) /\
  (forall (L : Torch.lib Tensor.mat Tensor.mat) (x y : Tensor.mat) (s : Hello.state L),
      Hello.trace (Hello.training L x y s)
      = Hello.trace s ++ concat (repeat hello_events 150) /\
      count_event ECriterion hello_events = 1 /\
      count_event EStep hello_events = 1 /\
      Torch.reaches L (Hello.model s) (Hello.model (Hello.training L x y s)) /\
      Hello.model (Hello.training L x y s)
      = Nat.iter 150 (Hello.update L x y) (Hello.model s)) /\
  (forall (X y : Tensor.mat) (s : Scratch.state) (i : nat),
      let s' := Scratch.iteration X y s i in
      Neural_Network.weights (Scratch.NN s')
      = Neural_Network.train_weights X y (Neural_Network.weights (Scratch.NN s)) /\
      count_event ECriterion (Scratch.trace s') = count_event ECriterion (Scratch.trace s) /\
      count_event EStep (Scratch.trace s') = count_event EStep (Scratch.trace s) /\
      (i mod 100 <> 0 -> Scratch.stdout s' = Scratch.stdout s)).
Proof.
  split; [|split].
  - intros L P test s Htr Hte loop Hloop n m.
    assert (G : forall label, exists s',
               foldM (TextLoop.epoch L P label test) (seq 0 10) s = inl s' /\
               TextLoop.trace s'
               = TextLoop.trace s ++ concat (repeat (epoch_events n m) 10) /\
               epoch_events n m
               = [ETrainMode; EShuffle] ++ concat (repeat train_events n)
                 ++ [EEvalMode] ++ repeat ECall m /\
               count_event ECriterion (epoch_events n m) = n /\
               count_event EStep (epoch_events n m) = n /\
               Torch.reaches L (TextLoop.model s) (TextLoop.model s') /\
               (TextLoop.model s', TextLoop.generator s', TextLoop.train_data s')
               = Nat.iter 10 (TextLoop.epoch_update L P)
                          (TextLoop.model s, TextLoop.generator s,
                           TextLoop.train_data s) /\
               (forall mdl ex,
                   TextLoop.update L mdl ex
                   = Torch.step L (Torch.backward L
                                     (Torch.criterion L (Torch.call L mdl (fst ex))
                                                      (snd ex))
                                     (Torch.zero_grad L mdl)))).
    { intros label.
      destruct (LoopFacts.text_loop_spec L P label test 10 0 s Htr Hte)
        as (s1 & logs1 & E1 & R1 & T1 & _).
      pose proof (LoopFacts.count_epoch_events n m) as (Cc & _ & Cs & _).
      exists s1. split; [exact E1|]. split; [exact T1|]. split; [reflexivity|].
      split; [exact Cc|]. split; [exact Cs|]. split; [exact R1|].
      split; [exact (LoopFacts.text_loop_model L P label test 10 0 s s1 E1)|].
      intros mdl ex. reflexivity. }
    destruct Hloop as [-> | ->]; apply G.
  - intros L x y s.
    destruct (LoopFacts.hello_loop_spec L x y 150 0 s) as (logs & Hr & Ht & _).
    split; [exact Ht|]. split; [reflexivity|]. split; [reflexivity|].
    split; [exact Hr|]. exact (LoopFacts.hello_loop_model L x y 150 0 s).
  - intros X y s i s'. split; [apply ScratchFacts.iteration_weights|].
    destruct (Nat.eq_dec (i mod 100) 0) as [E|E].
    + destruct (ScratchFacts.iteration_prints X y s i E) as [_ Et].
      unfold s'. rewrite Et, !LoopFacts.count_event_app.
      change (count_event ECriterion [ECall]) with 0.
      change (count_event EStep [ECall]) with 0.
      split; [lia|]. split; [lia | tauto].
    + destruct (ScratchFacts.iteration_silent X y s i E) as [Eo Et].
      unfold s'. rewrite Et. auto.
Qed.

Lemma loops_update_through_the_optimizer_witness :
  exists s',
    TextLoop.train_bow history_lib (coin_random TextLoop.example)
                       two_examples (text_start false) = inl s' /\
    TextLoop.trace s' = [] ++ concat (repeat (epoch_events 2 2) 10) /\
    (TextLoop.model s', TextLoop.generator s', TextLoop.train_data s')
    = Nat.iter 10 (TextLoop.epoch_update history_lib (coin_random TextLoop.example))
               (([], None), false, two_examples).
Proof.
  destruct (proj1 loops_update_through_the_optimizer
                  history_lib (coin_random TextLoop.example)
                  two_examples (text_start false))
    with (loop := TextLoop.train_bow history_lib (coin_random TextLoop.example))
    as (s' & E & T & _ & _ & _ & _ & M & _).
  - discriminate.
  - discriminate.
  - left; reflexivity.
  - exists s'. split; [exact E|]. split; [exact T | exact M].
Defined.

(** C6, as the claim states it, fails twice.  What the from-scratch
    notebook prints after its loop is the prediction and the closing
    message, and no line of it reports a loss or an accuracy: the losses
    are printed inside the loop.  And the BoW loop does not reach its
    tenth epoch when the test data are empty: the first epoch ends in the
    division by [len(test_data)]. *)
Lemma nothing_reported_after_the_loop :
  let s := Scratch.training Scratch.X Scratch.y
             {| Scratch.NN := Neural_Network.init W1_zero W2_zero;
                Scratch.trace := []; Scratch.stdout := [] |} in
  let after := [PredictedHeader; InputScaled Scratch.xPredicted;
                OutputLine (fst (Neural_Network.forward (Scratch.NN s)
                                                        [Scratch.xPredicted]));
                Finished] in
  (Scratch.stdout (Scratch.notebook W1_zero W2_zero Scratch.X Scratch.y Scratch.xPredicted)
   = Scratch.stdout s ++ after /\
   forallb (fun l => negb (reports_metric l)) after = true) /\
  TextLoop.train_bow history_lib (coin_random TextLoop.example) [] (text_start false)
  = inr ZeroDivisionError.
Proof.
  intros s after. split; [|vm_compute; reflexivity].
  split; [|reflexivity].
  unfold Scratch.notebook. apply ScratchFacts.after_training_stdout.
Qed.

(** C6, amended.  Every training loop runs a fixed number of iterations
    and then ends.  On non-empty training and test data the BoW loop and
    the CBOW loop run ten epochs: they shuffle ten times and print the ten
    lines of the epochs 1 to 10, each inside its epoch.  The hello-world
    loop runs 150 iterations and prints the 150 lines of the iterations 0
    to 149; the cell after it prints one prediction.  The from-scratch
    loop calls [train] 1000 times and prints the loss at the iterations 0,
    100, ..., 900; after it the notebook prints the prediction and
    "Finished training!".  The lines that report a loss or an accuracy are
    those of the loops. *)
Theorem loops_run_a_fixed_number_of_iterations :
  (forall (L : Torch.lib (list nat) nat) (P : Torch.pyrandom TextLoop.example)
          (test : list TextLoop.example) (s : TextLoop.state L P),
      TextLoop.train_data s <> [] -> test <> [] ->
      forall label loop,
        (label = "ITER" /\ loop = TextLoop.train_bow L P) \/
        (label = "epoch" /\ loop = TextLoop.train_cbow L P) ->
        exists s' tr logs,
          loop test s = inl s' /\
          TextLoop.trace s' = TextLoop.trace s ++ tr /\
          count_event EShuffle tr = 10 /\
          TextLoop.stdout s' = TextLoop.stdout s ++ logs /\
          Forall2 (fun i l => exists a b c, l = EpochLog label (i + 1) a b c)
                  (seq 0 10) logs) /\
  (forall (L : Torch.lib Tensor.mat Tensor.mat) (x y sample : Tensor.mat)
          (scalar : Torch.output L -> R) (s : Hello.state L),
      exists logs,
        Hello.trace (Hello.training L x y s)
        = Hello.trace s ++ concat (repeat hello_events 150) /\
        Hello.stdout (Hello.training L x y s) = Hello.stdout s ++ logs /\
        Forall2 (fun i l => exists v, l = HelloLog i v) (seq 0 150) logs /\
        exists v, Hello.stdout (Hello.test_cell L scalar sample (Hello.training L x y s))
                  = Hello.stdout (Hello.training L x y s) ++ [HelloPredicted v]) /\
  (forall (X y : Tensor.mat) (xP : Tensor.vec) (s : Scratch.state),
      exists logs,
        Neural_Network.weights (Scratch.NN (Scratch.training X y s))
        = Nat.iter 1000 (Neural_Network.train_weights X y)
                   (Neural_Network.weights (Scratch.NN s)) /\
        Scratch.stdout (Scratch.training X y s) = Scratch.stdout s ++ logs /\
        Forall2 (fun i l => exists v, l = ScratchLoss i v)
                [0; 100; 200; 300; 400; 500; 600; 700; 800; 900] logs /\
        exists o, Scratch.stdout (Scratch.after_training xP (Scratch.training X y s))
                  = Scratch.stdout (Scratch.training X y s)
                    ++ [PredictedHeader; InputScaled xP; OutputLine o; Finished]).
Proof.
  split; [|split].
  - intros L P test s Htr Hte label loop Hloop.
    destruct (LoopFacts.text_loop_spec L P label test 10 0 s Htr Hte)
      as (s' & logs & E & _ & T & O & F & _).
    exists s'. eexists. exists logs.
    split; [destruct Hloop as [[-> ->] | [-> ->]]; exact E|].
    split; [exact T|]. split; [|split; [exact O | exact F]].
    rewrite LoopFacts.count_event_blocks.
    pose proof (LoopFacts.count_epoch_events
                  (length (TextLoop.train_data s)) (length test)) as (_ & _ & _ & ->).
    reflexivity.
  - intros L x y sample scalar s.
    destruct (LoopFacts.hello_loop_spec L x y 150 0 s) as (logs & _ & Ht & Ho & Hl).
    exists logs. split; [exact Ht|]. split; [exact Ho|]. split; [exact Hl|].
    eexists. reflexivity.
  - intros X y xP s.
    destruct (ScratchFacts.scratch_loop_spec X y 1000 0 s) as (logs & Hw & _ & Ho & Hl).
    exists logs. split; [exact Hw|]. split; [exact Ho|]. split; [exact Hl|].
    eexists. apply ScratchFacts.after_training_stdout.
Qed.

Lemma loops_run_a_fixed_number_of_iterations_witness :
  exists s' tr logs,
    TextLoop.train_bow history_lib (coin_random TextLoop.example)
                       two_examples (text_start true) = inl s' /\
    TextLoop.trace s' = TextLoop.trace (text_start true) ++ tr /\
    count_event EShuffle tr = 10 /\
    TextLoop.stdout s' = TextLoop.stdout (text_start true) ++ logs /\
    Forall2 (fun i l => exists a b c, l = EpochLog "ITER" (i + 1) a b c)
            (seq 0 10) logs.
Proof.
  apply (proj1 loops_run_a_fixed_number_of_iterations
               history_lib (coin_random TextLoop.example)
               two_examples (text_start true)).
  - discriminate.
  - discriminate.
  - left. split; reflexivity.
Defined.

(** C7, as the claim states it, fails.  The from-scratch notebook sets no
    seed: [torch.randn] draws the weights, and two draws give two
    different first losses on the same data.  The BoW notebook calls
    [random.shuffle] on an unseeded generator: from two states of the
    generator the examples reach the optimizer in two different orders,
    and with a library that files the examples it is trained on the two
    trained models differ. *)
Lemma unseeded_runs_differ :
  (exists lossA lossB,
      hd_error (Scratch.stdout (Scratch.notebook W1_zero W2_zero
                                  Scratch.X Scratch.y Scratch.xPredicted))
      = Some (ScratchLoss 0 lossA) /\
      hd_error (Scratch.stdout (Scratch.notebook W1_zero W2_other
                                  Scratch.X Scratch.y Scratch.xPredicted))
      = Some (ScratchLoss 0 lossB) /\
      lossA <> lossB) /\
  (exists sA sB,
      TextLoop.train_bow history_lib (coin_random TextLoop.example)
                         two_examples (text_start false) = inl sA /\
      TextLoop.train_bow history_lib (coin_random TextLoop.example)
                         two_examples (text_start true) = inl sB /\
      TextLoop.model sA <> TextLoop.model sB).
Proof.
  split.
  - eexists _, _. split; [apply ScratchFacts.first_line|].
    split; [apply ScratchFacts.first_line|].
    rewrite ScratchFacts.forward_zero, ScratchFacts.forward_other.
    apply ScratchFacts.losses_differ.
  - destruct (LoopFacts.run_first_filed false _ LoopFacts.first_filed_unturned)
      as (sA & EA & HA).
    destruct (LoopFacts.run_first_filed true _ LoopFacts.first_filed_turned)
      as (sB & EB & HB).
    exists sA, sB. split; [exact EA|]. split; [exact EB|].
    intros Heq. rewrite Heq in HA. congruence.
Qed.

(** C7, amended.  In the counterfactual-explanations notebook, where
    [SEED = 42] is passed as [random_state] to [train_test_split] and
    [RandomForestClassifier] and set by [np.random.seed], and with a
    scikit-learn that draws from a generator of its own when it is given
    an integer [random_state], two runs on the same data give the same
    split, the same trained model and the same printed accuracy, whatever
    the state of numpy's generator was when each run started: the split
    is the one that [train_test_split] gives for [random_state=42] from
    any state of the generator, the forest the one that [fit] gives for
    [random_state=42] from any state, the printed scores are those of
    this forest on this test part, and numpy's generator is left as
    [np.random.seed(42)] set it. *)
Theorem seeded_pipeline_is_deterministic
        (sk : Counterfactual.sklearn) (np : Counterfactual.numpy_random)
        (rs : Counterfactual.sklearn_random sk np)
        (g1 g2 : Counterfactual.generator np)
        (X : list Counterfactual.array) (y : list Z) :
  Counterfactual.honours_random_state rs ->
  let run1 := Counterfactual.pipeline sk np rs g1 X y in
  let run2 := Counterfactual.pipeline sk np rs g2 X y in
  run1 = run2 /\
  Counterfactual.np_state sk np run1 = Counterfactual.seed np 42 /\
  (forall g,
      ((Counterfactual.X_train sk np run1, Counterfactual.X_test sk np run1),
       (Counterfactual.y_train sk np run1, Counterfactual.y_test sk np run1))
      = fst (Counterfactual.train_test_split rs X y (Some 42) g)) /\
  (forall g,
      Counterfactual.bbm sk np run1
      = fst (Counterfactual.fit rs (Some 42) (Counterfactual.X_train sk np run1)
                                (Counterfactual.y_train sk np run1) g)) /\
  Counterfactual.shown sk np run1
  = [Counterfactual.Accuracy
       (Counterfactual.accuracy_score
          sk (Counterfactual.y_test sk np run1)
          (Counterfactual.predict sk (Counterfactual.bbm sk np run1)
                                  (Counterfactual.X_test sk np run1)))
       (Counterfactual.balanced_accuracy_score
          sk (Counterfactual.y_test sk np run1)
          (Counterfactual.predict sk (Counterfactual.bbm sk np run1)
                                  (Counterfactual.X_test sk np run1)))].
Proof.
  intros Hrs run1 run2. subst run1 run2.
  rewrite !(ReportFacts.pipeline_seeded sk np rs Hrs).
  destruct Hrs as (S1 & _ & F1 & _).
  cbn [Counterfactual.np_state Counterfactual.X_train Counterfactual.X_test
       Counterfactual.y_train Counterfactual.y_test Counterfactual.bbm
       Counterfactual.shown].
  split; [reflexivity|]. split; [reflexivity|]. split; [|split].
  - intros g. rewrite (S1 X y 42 g (Counterfactual.seed np Counterfactual.SEED)).
    change 42 with Counterfactual.SEED.
    destruct (fst (Counterfactual.train_test_split
                     rs X y (Some Counterfactual.SEED)
                     (Counterfactual.seed np Counterfactual.SEED)))
      as [[Xtr Xte] [ytr yte]].
    reflexivity.
  - intros g. apply (F1 _ _ 42).
  - reflexivity.
Qed.

Lemma seeded_pipeline_is_deterministic_witness :
  Counterfactual.pipeline grown_sklearn counting_numpy drawing_sklearn 0
                          [[2 # 1]; [3 # 1]; [5 # 2]] [0; 1; 1]%Z
  = Counterfactual.pipeline grown_sklearn counting_numpy drawing_sklearn 7
                            [[2 # 1]; [3 # 1]; [5 # 2]] [0; 1; 1]%Z /\
  Counterfactual.bbm grown_sklearn counting_numpy
    (Counterfactual.pipeline grown_sklearn counting_numpy drawing_sklearn 0
                             [[2 # 1]; [3 # 1]; [5 # 2]] [0; 1; 1]%Z)
  = fst (Counterfactual.fit drawing_sklearn (Some 42) [[2 # 1]; [3 # 1]; [5 # 2]]
                            [0; 1; 1]%Z 9).
Proof.
  destruct (seeded_pipeline_is_deterministic
              grown_sklearn counting_numpy drawing_sklearn 0 7
              [[2 # 1]; [3 # 1]; [5 # 2]] [0; 1; 1]%Z
              ReportFacts.drawing_sklearn_honours)
    as (E & _ & _ & F & _).
  split; [exact E | exact (F 9)].
Defined.

(** C3, as the claim states it, fails in its second half: the cell prints
    whatever [cogs.elite] holds once the forest gives it the desired class,
    and does not look for a smaller change.  With a forest that says "low
    risk" from savings 9/4 on, a user with savings 2 and the elite 5/2 the
    cell prints the explanation, and the change 1/4, smaller than 1/2,
    flips the label as well. *)
Lemma elite_need_not_be_minimal :
  exists r,
    Counterfactual.report threshold_sklearn tt ["savings"] [2 # 1] [5 # 2] = inl r /\
    Counterfactual.printed r
    = [Counterfactual.Success;
       Counterfactual.Change "savings" (2 # 1) (5 # 2)] /\
    Counterfactual.smaller [1 # 4] (Counterfactual.cf_explanation r) = true /\
    index (Counterfactual.predict threshold_sklearn tt
             [Counterfactual.np_add [2 # 1] [1 # 4]]) 0
    = inl Counterfactual.desired_class.
Proof.
  eexists. split; [vm_compute; reflexivity|].
  split; [vm_compute; reflexivity|]. split; vm_compute; reflexivity.
Qed.

(** C3, amended.  A counterfactual explanation that the notebook prints
    ([cf_explanation = cogs.elite - x], printed only in the success branch)
    is a change of the input that makes the black-box classifier predict
    the desired class: when the explanation is printed,
    [bbm.predict([cf_example])[0]] equals [desired_class], with
    [cf_example] the elite that the search returned. *)
Theorem reported_explanation_flips_the_label
        (sk : Counterfactual.sklearn) (bbm : Counterfactual.forest sk)
        (feature_names : list string) (x elite : Counterfactual.array)
        (r : Counterfactual.reported) :
  Counterfactual.report sk bbm feature_names x elite = inl r ->
  In Counterfactual.Success (Counterfactual.printed r) ->
  index (Counterfactual.predict sk bbm [Counterfactual.cf_example r]) 0
  = inl Counterfactual.desired_class /\
  Counterfactual.cf_example r = elite /\
  Counterfactual.np_sub elite x = inl (Counterfactual.cf_explanation r).
Proof.
  intros H Hin.
  destruct (ReportFacts.report_success sk bbm feature_names x elite r H Hin)
    as (Hp & He & Hd).
  rewrite He. auto.
Qed.

Lemma reported_explanation_flips_the_label_witness :
  exists r,
    Counterfactual.report threshold_sklearn tt ["savings"] [2 # 1] [5 # 2] = inl r /\
    index (Counterfactual.predict threshold_sklearn tt [Counterfactual.cf_example r]) 0
    = inl Counterfactual.desired_class.
Proof.
  assert (E : exists r,
             Counterfactual.report threshold_sklearn tt ["savings"] [2 # 1] [5 # 2] = inl r /\
             In Counterfactual.Success (Counterfactual.printed r)).
  { eexists. split; [vm_compute; reflexivity|]. left. reflexivity. }
  destruct E as (r & E & Hin). exists r. split; [exact E|].
  apply (reported_explanation_flips_the_label
           threshold_sklearn tt ["savings"] [2 # 1] [5 # 2] r E Hin).
Defined.

(** C4.  When the forest does not give the desired class for the best
    example found, the cell only prints the failure message: it returns
    without raising, calls [predict] once and leaves nothing behind but
    [cf_example] and [cf_explanation]; when the prediction is the desired
    class it prints the success message and then, in the order of
    [feature_names], one line for each feature whose value in
    [cf_example] differs from its value in [x], with the two values, and
    no line for a feature that keeps its value. *)
Theorem report_prints_failure_or_changes
        (sk : Counterfactual.sklearn) (bbm : Counterfactual.forest sk)
        (feature_names : list string) (x elite : Counterfactual.array) (c : Z) :
  length elite = length x -> length feature_names = length x ->
  index (Counterfactual.predict sk bbm [elite]) 0 = inl c ->
  let cf_explanation := zip_with Qminus elite x in
  (c <> Counterfactual.desired_class ->
   Counterfactual.report sk bbm feature_names x elite
   = inl {| Counterfactual.cf_example := elite;
            Counterfactual.cf_explanation := cf_explanation;
            Counterfactual.printed := [Counterfactual.Failure];
            Counterfactual.calls := [Counterfactual.CPredict] |}) /\
  (c = Counterfactual.desired_class ->
   Counterfactual.report sk bbm feature_names x elite
   = inl {| Counterfactual.cf_example := elite;
            Counterfactual.cf_explanation := cf_explanation;
            Counterfactual.printed :=
              Counterfactual.Success
                :: flat_map (fun ifeat : nat * string =>
                               if Qeq_dec (nth (fst ifeat) elite 0%Q)
                                          (nth (fst ifeat) x 0%Q)
                               then []
                               else [Counterfactual.Change
                                       (snd ifeat)
                                       (nth (fst ifeat) x 0%Q)
                                       (nth (fst ifeat) elite 0%Q)])
                            (combine (seq 0 (length feature_names)) feature_names);
            Counterfactual.calls := [Counterfactual.CPredict] |}).
Proof.
  intros Hl Hn Hc d.
  pose proof (ReportFacts.report_branches sk bbm feature_names x elite c Hl Hn Hc) as H.
  split; intros Hcase; rewrite H.
  - apply Z.eqb_neq in Hcase. rewrite Hcase. reflexivity.
  - apply Z.eqb_eq in Hcase. rewrite Hcase. reflexivity.
Qed.

Lemma report_prints_failure_or_changes_witness :
  Counterfactual.report threshold_sklearn tt ["savings"; "age"]
                        [2 # 1; 34 # 1] [2 # 1; 40 # 1]
  = inl {| Counterfactual.cf_example := [2 # 1; 40 # 1];
           Counterfactual.cf_explanation := zip_with Qminus [2 # 1; 40 # 1] [2 # 1; 34 # 1];
           Counterfactual.printed := [Counterfactual.Failure];
           Counterfactual.calls := [Counterfactual.CPredict] |} /\
  Counterfactual.report threshold_sklearn tt ["savings"; "age"]
                        [2 # 1; 34 # 1] [5 # 2; 34 # 1]
  = inl {| Counterfactual.cf_example := [5 # 2; 34 # 1];
           Counterfactual.cf_explanation := zip_with Qminus [5 # 2; 34 # 1] [2 # 1; 34 # 1];
           Counterfactual.printed :=
             [Counterfactual.Success;
              Counterfactual.Change "savings" (2 # 1) (5 # 2)];
           Counterfactual.calls := [Counterfactual.CPredict] |}.
Proof.
  split.
  - apply (proj1 (report_prints_failure_or_changes
                    threshold_sklearn tt ["savings"; "age"]
                    [2 # 1; 34 # 1] [2 # 1; 40 # 1] 0%Z
                    eq_refl eq_refl eq_refl)).
    discriminate.
  - apply (proj2 (report_prints_failure_or_changes
                    threshold_sklearn tt ["savings"; "age"]
                    [2 # 1; 34 # 1] [5 # 2; 34 # 1] 1%Z
                    eq_refl eq_refl eq_refl)).
    reflexivity.
Defined.

(** * Further properties of the code *)

(** ** Cleaning and splitting a line *)

Module CleaningFacts.
Import PyStr Cleaning.

Lemma lower_char_idem (c : ascii) : lower_char (lower_char c) = lower_char c.
Proof. destruct c as [[] [] [] [] [] [] [] []]; reflexivity. Qed.

Lemma isspace_lower_char (c : ascii) : isspace (lower_char c) = isspace c.
Proof. destruct c as [[] [] [] [] [] [] [] []]; reflexivity. Qed.

Lemma lower_idem (s : string) : lower (lower s) = lower s.
Proof.
  induction s as [|c s IH]; simpl; [reflexivity|].
  rewrite lower_char_idem, IH. reflexivity.
Qed.

Lemma lower_lstrip (s : string) : lower (lstrip s) = lstrip (lower s).
Proof.
  induction s as [|c s IH]; simpl; [reflexivity|].
  rewrite isspace_lower_char. destruct (isspace c); [exact IH | reflexivity].
Qed.

Lemma lower_rstrip (s : string) : lower (rstrip s) = rstrip (lower s).
Proof.
  induction s as [|c s IH]; simpl; [reflexivity|].
  rewrite <- IH, isspace_lower_char.
  destruct (rstrip s) as [|d r]; simpl; [destruct (isspace c)|]; reflexivity.
Qed.

Lemma rstrip_idem (s : string) : rstrip (rstrip s) = rstrip s.
Proof.
  induction s as [|c s IH]; simpl; [reflexivity|].
  destruct (rstrip s) as [|d r] eqn:E.
  - destruct (isspace c) eqn:Ec; simpl; [reflexivity | rewrite Ec; reflexivity].
  - cbn [rstrip]. cbn [rstrip] in IH. rewrite IH. reflexivity.
Qed.

Lemma length_lstrip (s : string) : String.length (lstrip s) <= String.length s.
Proof.
  induction s as [|c s IH]; simpl; [lia|]. destruct (isspace c); simpl; lia.
Qed.

Lemma lstrip_head (s : string) :
  lstrip s = EmptyString \/ exists c r, lstrip s = String c r /\ isspace c = false.
Proof.
  induction s as [|c s IH]; simpl; [left; reflexivity|].
  destruct (isspace c) eqn:E; [exact IH | right; eauto].
Qed.

Lemma lstrip_rstrip_lstrip (s : string) : lstrip (rstrip (lstrip s)) = rstrip (lstrip s).
Proof.
  destruct (lstrip_head s) as [->|(c & r & -> & Hc)]; [reflexivity|].
  cbn [rstrip]. destruct (rstrip r); [rewrite Hc|]; cbn [lstrip]; rewrite Hc; reflexivity.
Qed.

Lemma strip_idem (s : string) : strip (strip s) = strip s.
Proof. unfold strip. rewrite lstrip_rstrip_lstrip. apply rstrip_idem. Qed.

Lemma lower_strip (s : string) : lower (strip s) = strip (lower s).
Proof. unfold strip. rewrite lower_rstrip, lower_lstrip. reflexivity. Qed.

Lemma clean_idem (raw : string) : clean (clean raw) = clean raw.
Proof.
  unfold clean. rewrite (lower_strip (lower raw)), lower_idem, strip_idem.
  reflexivity.
Qed.

Lemma clean_lower (raw : string) : clean (lower raw) = clean raw.
Proof. unfold clean. rewrite lower_idem. reflexivity. Qed.

Lemma clean_strip (raw : string) : clean (strip raw) = clean raw.
Proof. unfold clean. rewrite lower_strip, strip_idem. reflexivity. Qed.

Lemma string_app_assoc (a b c : string) :
  ((a ++ b) ++ c)%string = (a ++ b ++ c)%string.
Proof.
  induction a as [|x a IH]; [reflexivity|].
  rewrite !PyStrFacts.append_cons, IH. reflexivity.
Qed.

Lemma string_app_nil_r (a : string) : (a ++ EmptyString)%string = a.
Proof.
  induction a as [|x a IH]; [reflexivity|].
  rewrite PyStrFacts.append_cons, IH. reflexivity.
Qed.

Lemma string_app_inj (a b x y : string) :
  String.length a = String.length b ->
  (a ++ x)%string = (b ++ y)%string -> a = b /\ x = y.
Proof.
  revert b; induction a as [|c a IH]; intros [|d b] Hl H; simpl in Hl; try discriminate.
  - split; [reflexivity | exact H].
  - rewrite !PyStrFacts.append_cons in H. inversion H; subst.
    destruct (IH b) as [-> ->]; [lia | assumption | split; reflexivity].
Qed.

Lemma string_length_app (a b : string) :
  String.length (a ++ b) = String.length a + String.length b.
Proof.
  induction a as [|x a IH]; [reflexivity|].
  rewrite PyStrFacts.append_cons. simpl. rewrite IH. reflexivity.
Qed.

Lemma join_cons_char (sep : string) (c : ascii) (p : string) (ps : list string) :
  String.concat sep (String c p :: ps) = String c (String.concat sep (p :: ps)).
Proof. destruct ps; reflexivity. Qed.

Lemma join_two (sep f : string) (rest : list string) :
  rest <> [] -> String.concat sep (f :: rest) = (f ++ sep ++ String.concat sep rest)%string.
Proof. destruct rest; [congruence | reflexivity]. Qed.

Lemma split_from_not_nil (sep s : string) (k : nat) : split_from sep k s <> [].
Proof.
  pose proof (PyStrFacts.split_from_nonempty sep s k) as H.
  destruct (split_from sep k s); simpl in H; [lia | discriminate].
Qed.

Lemma split_from_cons_S (sep : string) (k : nat) (c : ascii) (s : string) :
  split_from sep (S k) (String c s) = split_from sep k s.
Proof. reflexivity. Qed.

Lemma split_from_cons_0 (sep : string) (c : ascii) (s : string) :
  split_from sep 0 (String c s)
  = if String.prefix sep (String c s)
    then EmptyString :: split_from sep (String.length sep - 1) s
    else match split_from sep 0 s with
         | p :: ps => String c p :: ps
         | [] => [String c EmptyString]
         end.
Proof. reflexivity. Qed.

(** Joining the fields behind the characters that are passed over gives
    the text back. *)
Lemma split_from_join (sep s : string) :
  sep <> EmptyString ->
  forall k, k <= String.length s ->
    exists pre, String.length pre = k /\
                s = (pre ++ String.concat sep (split_from sep k s))%string.
Proof.
  intros Hsep. induction s as [|c s IH]; intros k Hk.
  - simpl in Hk. assert (k = 0) by lia; subst k. exists EmptyString.
    split; reflexivity.
  - destruct k as [|k].
    + exists EmptyString. split; [reflexivity|].
      rewrite PyStrFacts.append_nil_l, split_from_cons_0.
      destruct (String.prefix sep (String c s)) eqn:Hp.
      * destruct (PyStrFacts.prefix_append _ _ Hp) as (b & Hb).
        assert (Hlen : String.length sep - 1 <= String.length s).
        { apply (f_equal String.length) in Hb. rewrite string_length_app in Hb.
          simpl in Hb. lia. }
        destruct (IH _ Hlen) as (pre & Hpre & Es).
        rewrite join_two by apply split_from_not_nil.
        rewrite PyStrFacts.append_nil_l.
        assert (Hl : String.length (String c pre) = String.length sep).
        { simpl. rewrite Hpre. destruct sep; [congruence | simpl; lia]. }
        assert (E : (String c pre ++ String.concat sep (split_from sep (String.length sep - 1) s))%string
                    = (sep ++ b)%string).
        { rewrite PyStrFacts.append_cons, <- Es. exact Hb. }
        destruct (string_app_inj _ _ _ _ Hl E) as [Ec Ej].
        rewrite Ej. exact Hb.
      * destruct (IH 0 ltac:(lia)) as (pre & Hpre & Es).
        destruct pre; [|discriminate]. rewrite PyStrFacts.append_nil_l in Es.
        destruct (split_from sep 0 s) as [|p ps] eqn:E;
          [exfalso; eapply split_from_not_nil; exact E|].
        rewrite join_cons_char, <- Es. reflexivity.
    + rewrite split_from_cons_S.
      destruct (IH k ltac:(simpl in Hk; lia)) as (pre & Hpre & Es).
      exists (String c pre). split; [simpl; lia|].
      rewrite PyStrFacts.append_cons, <- Es. reflexivity.
Qed.

Lemma join_split (sep s : string) :
  sep <> EmptyString -> String.concat sep (split sep s) = s.
Proof.
  intros Hsep. destruct (split_from_join sep s Hsep 0 ltac:(lia)) as (pre & Hpre & Es).
  destruct pre; [|discriminate]. symmetry. exact Es.
Qed.

Lemma first_field_prefix (sep s p : string) (ps : list string) :
  sep <> EmptyString -> split sep s = p :: ps -> exists r, s = (p ++ r)%string.
Proof.
  intros Hsep E. pose proof (join_split sep s Hsep) as H. rewrite E in H.
  destruct ps as [|q ps].
  - exists EmptyString. simpl in H. rewrite string_app_nil_r. congruence.
  - rewrite join_two in H by discriminate. eexists. symmetry. exact H.
Qed.

Lemma prefix_app (sep x r : string) :
  String.prefix sep x = true -> String.prefix sep (x ++ r) = true.
Proof.
  intros H. destruct (PyStrFacts.prefix_append _ _ H) as (b & ->).
  rewrite string_app_assoc. apply PyStrFacts.append_prefix.
Qed.

Lemma not_contains_empty (sep : string) :
  sep <> EmptyString -> ~ contains sep EmptyString.
Proof.
  intros Hsep (a & b & H). destruct a, sep;
    rewrite ?PyStrFacts.append_nil_l, ?PyStrFacts.append_cons in H; congruence.
Qed.

(** No field holds the separator. *)
Lemma split_from_fields (sep s : string) :
  sep <> EmptyString ->
  forall k, Forall (fun f => ~ contains sep f) (split_from sep k s).
Proof.
  intros Hsep. induction s as [|c s IH]; intros k.
  - constructor; [apply not_contains_empty, Hsep | constructor].
  - destruct k as [|k]; [|rewrite split_from_cons_S; apply IH].
    rewrite split_from_cons_0.
    destruct (String.prefix sep (String c s)) eqn:Hp.
    + constructor; [apply not_contains_empty, Hsep | apply IH].
    + specialize (IH 0).
      destruct (split_from sep 0 s) as [|p ps] eqn:E;
        [exfalso; eapply split_from_not_nil; exact E|].
      inversion IH as [|? ? Hp0 Hps]; subst. constructor; [|exact Hps].
      intros Hc. apply Hp0.
      destruct (first_field_prefix sep s p ps Hsep E) as (r & Hr).
      eapply PyStrFacts.contains_uncons; [|exact Hc].
      destruct (String.prefix sep (String c p)) eqn:Hcp; [|reflexivity].
      apply (prefix_app _ _ r) in Hcp.
      rewrite PyStrFacts.append_cons, <- Hr, Hp in Hcp. discriminate.
Qed.

End CleaningFacts.

(** X1.  [read_data] loses nothing of a cleaned line: for every line of
    the file, joining the fields it returns with [" ||| "] gives the
    lowercased, stripped line back; there is at least one field, and no
    field holds the separator. *)
Theorem read_data_fields_rebuild_the_line (f : list string) :
  Forall2 (fun raw fields =>
             String.concat Vocab.sep fields = Cleaning.clean raw /\
             fields <> [] /\
             Forall (fun field => ~ PyStr.contains Vocab.sep field) fields)
          f (Vocab.read_data f).
Proof.
  assert (Hsep : Vocab.sep <> EmptyString) by discriminate.
  unfold Vocab.read_data. induction f as [|raw f IH]; simpl; constructor; [|exact IH].
  fold (Cleaning.clean raw). split; [|split].
  - apply CleaningFacts.join_split, Hsep.
  - apply CleaningFacts.split_from_not_nil.
  - apply CleaningFacts.split_from_fields, Hsep.
Qed.

(** X2.  [read_data] does not see the case of a line nor the white space
    around it: lowercasing the lines first, stripping them first, or doing
    both, changes nothing of what it returns. *)
Theorem read_data_ignores_case_and_margins (f : list string) :
  Vocab.read_data (map PyStr.lower f) = Vocab.read_data f /\
  Vocab.read_data (map PyStr.strip f) = Vocab.read_data f /\
  Vocab.read_data (map Cleaning.clean f) = Vocab.read_data f.
Proof.
  unfold Vocab.read_data. rewrite !map_map.
  split; [|split]; apply map_ext; intros raw.
  - change (PyStr.split Vocab.sep (Cleaning.clean (PyStr.lower raw))
            = PyStr.split Vocab.sep (Cleaning.clean raw)).
    rewrite CleaningFacts.clean_lower. reflexivity.
  - change (PyStr.split Vocab.sep (Cleaning.clean (PyStr.strip raw))
            = PyStr.split Vocab.sep (Cleaning.clean raw)).
    rewrite CleaningFacts.clean_strip. reflexivity.
  - change (PyStr.split Vocab.sep (Cleaning.clean (Cleaning.clean raw))
            = PyStr.split Vocab.sep (Cleaning.clean raw)).
    rewrite CleaningFacts.clean_idem. reflexivity.
Qed.

(** ** The dictionaries: tags, keys, encoding *)

Module DictFacts.
Import Vocab Tags.

Lemma prepare_inv (train test : list (list string)) (p : prepared) :
  prepare train test = inl p ->
  create_dict train false init = inl (after_train p) /\
  create_dict test true (after_train p) = inl (final p) /\
  create_tensor (final p) train = inl (train_data p) /\
  create_tensor (final p) test = inl (test_data p) /\
  number_of_words p = size (word_to_index (final p)) /\
  number_of_tags p = size (tag_to_index (final p)).
Proof.
  unfold prepare. intros H.
  apply bind_ok in H as (d1 & H1 & H).
  apply bind_ok in H as (d2 & H2 & H).
  apply bind_ok in H as (tr & H3 & H).
  apply bind_ok in H as (te & H4 & H).
  inversion H; subst; simpl. auto 10.
Qed.

Lemma numbered_empty : numbered ∅.
Proof.
  split; [|split].
  - intros k i H. rewrite lookup_empty in H. discriminate.
  - intros k1 k2 i H. rewrite lookup_empty in H. discriminate.
  - intros i H. rewrite map_size_empty in H. lia.
Qed.

Lemma numbered_add_tag (t : gmap string nat) (tag : string) :
  numbered t -> numbered (add_tag t tag).
Proof.
  intros (Hb & Hi & Hs). unfold add_tag.
  destruct (t !! tag) as [i|] eqn:E; [split; [|split]; assumption|].
  split; [|split].
  - intros k i H. rewrite map_size_insert_None by exact E.
    apply lookup_insert_Some in H as [[_ <-]|[_ H]]; [lia | apply Hb in H; lia].
  - intros k1 k2 i H1 H2.
    apply lookup_insert_Some in H1 as [[<- <-]|[N1 H1]];
      apply lookup_insert_Some in H2 as [[<- E2]|[N2 H2]].
    + reflexivity.
    + apply Hb in H2. lia.
    + subst i. apply Hb in H1. lia.
    + eapply Hi; eassumption.
  - intros i H. rewrite map_size_insert_None in H by exact E.
    destruct (decide (i = size t)) as [->|N].
    + exists tag. apply lookup_insert_eq.
    + destruct (Hs i ltac:(lia)) as (k & Hk). exists k.
      rewrite lookup_insert_ne; [exact Hk | congruence].
Qed.

Lemma add_tag_keys (t : gmap string nat) (tag k : string) :
  is_Some (add_tag t tag !! k) <-> is_Some (t !! k) \/ k = tag.
Proof.
  unfold add_tag. destruct (t !! tag) as [i|] eqn:E.
  - split; [auto | intros [H| ->]; [exact H | eauto]].
  - rewrite lookup_insert_is_Some. split.
    + intros [->|[_ H]]; auto.
    + intros [H| ->]; [|auto]. destruct (decide (tag = k)); auto.
Qed.

Lemma fold_add_tag_numbered (l : list string) (t : gmap string nat) :
  numbered t -> numbered (fold_left add_tag l t).
Proof.
  revert t; induction l as [|tag l IH]; intros t H; simpl; [exact H|].
  apply IH, numbered_add_tag, H.
Qed.

Lemma fold_add_tag_keys (l : list string) (t : gmap string nat) (k : string) :
  is_Some (fold_left add_tag l t !! k) <-> is_Some (t !! k) \/ In k l.
Proof.
  revert t; induction l as [|tag l IH]; intros t; simpl; [tauto|].
  rewrite IH, add_tag_keys. intuition.
Qed.

Lemma fold_add_tag_subseteq (l : list string) (t : gmap string nat) :
  t ⊆ fold_left add_tag l t.
Proof.
  revert t; induction l as [|tag l IH]; intros t; simpl; [reflexivity|].
  etrans; [apply (VocabFacts.add_tag_spec t tag) | apply IH].
Qed.

(** The tag dictionary does not depend on the words: [create_dict] adds
    the tags of the lines, one after the other. *)
Lemma create_dict_tags (b : bool) (data : list (list string)) (d d' : dicts) :
  create_dict data b d = inl d' ->
  tag_to_index d' = fold_left add_tag (tags_of data) (tag_to_index d).
Proof.
  unfold create_dict. revert d; induction data as [|line data IH]; intros d H; simpl in H.
  - inversion H; subst. reflexivity.
  - apply bind_ok in H as (d1 & H1 & H). rewrite (IH _ H).
    unfold create_dict_line in H1.
    apply bind_ok in H1 as (text & _ & H1).
    apply bind_ok in H1 as (w2i & _ & H1).
    apply bind_ok in H1 as (tag & Ht & H1).
    unfold index in Ht. destruct line as [|tag' rest]; simpl in Ht; [discriminate|].
    inversion Ht; subst. inversion H1; subst; simpl. reflexivity.
Qed.

Lemma create_tensor_tags (d : dicts) (data : list (list string)) r :
  create_tensor d data = inl r ->
  forall sent tag, In (sent, tag) r -> exists k, tag_to_index d !! k = Some tag.
Proof.
  unfold create_tensor. intros H sent tag Hin.
  apply mapM_ok in H. revert Hin. induction H as [|line y data r Hy _ IH]; simpl; [tauto|].
  intros [->|Hin]; [|exact (IH Hin)].
  unfold create_tensor_line in Hy.
  apply bind_ok in Hy as (text & _ & Hy).
  apply bind_ok in Hy as (ws & _ & Hy).
  apply bind_ok in Hy as (name & _ & Hy).
  apply bind_ok in Hy as (i & Hi & Hy).
  inversion Hy; subst. exists name. unfold getitem in Hi.
  destruct (tag_to_index d !! name); [inversion Hi; reflexivity | discriminate].
Qed.

Lemma add_word_keys (b : bool) (m m' : gmap string nat) (w k : string) :
  add_word b m w = inl m' ->
  (is_Some (m' !! k) <-> is_Some (m !! k) \/ k = w).
Proof.
  assert (Hins : forall v, is_Some (<[w := v]> m !! k) <-> is_Some (m !! k) \/ k = w).
  { intros v. rewrite lookup_insert_is_Some. split.
    - intros [->|[_ H]]; auto.
    - intros [H| ->]; [|auto]. destruct (decide (w = k)); auto. }
  unfold add_word. destruct b; simpl; destruct (m !! w) as [i|] eqn:E; intros H.
  - inversion H; subst. split; [auto | intros [H'| ->]; [exact H' | eauto]].
  - apply bind_ok in H as (u & _ & H). inversion H; subst. apply Hins.
  - inversion H; subst. split; [auto | intros [H'| ->]; [exact H' | eauto]].
  - inversion H; subst. apply Hins.
Qed.

Lemma add_words_keys (b : bool) (ws : list string) (m m' : gmap string nat) (k : string) :
  foldM (add_word b) ws m = inl m' ->
  (is_Some (m' !! k) <-> is_Some (m !! k) \/ In k ws).
Proof.
  revert m; induction ws as [|w ws IH]; intros m H; simpl in H.
  - inversion H; subst. simpl. tauto.
  - apply bind_ok in H as (m1 & H1 & H). rewrite (IH _ H), (add_word_keys _ _ _ _ k H1).
    simpl. intuition.
Qed.

Lemma create_dict_keys (b : bool) (data : list (list string)) (d d' : dicts) (k : string) :
  create_dict data b d = inl d' ->
  (is_Some (word_to_index d' !! k)
   <-> is_Some (word_to_index d !! k) \/ In k (words_of data)).
Proof.
  unfold create_dict. revert d; induction data as [|line data IH]; intros d H; simpl in H.
  - inversion H; subst. simpl. tauto.
  - apply bind_ok in H as (d1 & H1 & H). rewrite (IH _ H).
    unfold create_dict_line in H1.
    apply bind_ok in H1 as (text & Ht & H1).
    apply bind_ok in H1 as (w2i & Hw & H1).
    apply bind_ok in H1 as (tag & _ & H1).
    inversion H1; subst. cbn [word_to_index]. unfold index in Ht.
    unfold words_of; cbn [flat_map]; fold (words_of data).
    destruct (nth_error line 1) as [text'|]; [|discriminate].
    inversion Ht; subst. rewrite (add_words_keys _ _ _ _ k Hw), in_app_iff. tauto.
Qed.

Lemma init_keys (k : string) : is_Some (word_to_index init !! k) <-> k = unk.
Proof.
  unfold init; simpl. rewrite lookup_insert_is_Some, lookup_empty.
  split; [intros [->|[_ [x Hx]]]; [reflexivity | discriminate] | intros ->; auto].
Qed.

Lemma getitems_ok (d : gmap string nat) (ws : list string) :
  (forall w, In w ws -> is_Some (d !! w)) ->
  exists toks, mapM (getitem d) ws = inl toks.
Proof.
  intros H. apply mapM_total. intros w Hw. destruct (H w Hw) as (i & Hi).
  exists i. unfold getitem. rewrite Hi. reflexivity.
Qed.

Lemma getitems_error (d : gmap string nat) (ws : list string) e :
  mapM (getitem d) ws = inr e ->
  e = KeyError /\ exists w, In w ws /\ d !! w = None.
Proof.
  induction ws as [|w ws IH]; simpl; [discriminate|].
  unfold getitem at 1. destruct (d !! w) as [i|] eqn:E; simpl.
  - destruct (mapM (getitem d) ws) as [toks|e'] eqn:E'; simpl; [discriminate|].
    intros H; inversion H; subst. destruct (IH eq_refl) as (-> & w' & Hin & Hw').
    split; [reflexivity | eauto].
  - intros H; inversion H; subst. split; [reflexivity | eauto].
Qed.

Lemma getitems_tokens (d : gmap string nat) (ws : list string) (toks : list nat) :
  mapM (getitem d) ws = inl toks ->
  Forall2 (fun w tok => d !! w = Some tok) ws toks.
Proof.
  intros H. apply mapM_ok in H. induction H as [|w tok ws toks Hw _ IH]; constructor;
    [|exact IH].
  unfold getitem in Hw. destruct (d !! w); [inversion Hw; reflexivity | discriminate].
Qed.

(** Token lists decide the words when the dictionary is injective on
    them. *)
Lemma tokens_inj (d : gmap string nat) (ws ws' : list string) (toks : list nat) :
  (forall a b i, In a ws -> In b ws' -> d !! a = Some i -> d !! b = Some i -> a = b) ->
  Forall2 (fun w tok => d !! w = Some tok) ws toks ->
  Forall2 (fun w tok => d !! w = Some tok) ws' toks ->
  ws = ws'.
Proof.
  intros Hinj H. revert ws' Hinj.
  induction H as [|w tok ws toks Hw _ IH]; intros ws' Hinj H'; inversion H'; subst;
    [reflexivity|].
  f_equal.
  - eapply Hinj; [left; reflexivity | left; reflexivity | exact Hw | eassumption].
  - apply IH; [|assumption]. intros a b i Ha Hb. apply Hinj; right; assumption.
Qed.

Lemma words_of_line (data : list (list string)) (line : list string) (text w : string) :
  In line data -> nth_error line 1 = Some text -> In w (PyStr.split " " text) ->
  In w (words_of data).
Proof.
  intros Hl Ht Hw. unfold words_of. apply in_flat_map. exists line.
  split; [exact Hl | rewrite Ht; exact Hw].
Qed.

Lemma create_tensor_lines (d : dicts) (data : list (list string)) r :
  create_tensor d data = inl r ->
  Forall2 (fun line ex =>
             exists text, nth_error line 1 = Some text /\
               Forall2 (fun w tok => word_to_index d !! w = Some tok)
                       (PyStr.split " " text) (fst ex))
          data r.
Proof.
  unfold create_tensor. intros H. apply mapM_ok in H.
  induction H as [|line y data r Hy _ IH]; constructor; [|exact IH].
  unfold create_tensor_line in Hy.
  apply bind_ok in Hy as (text & Ht & Hy).
  apply bind_ok in Hy as (ws & Hws & Hy).
  apply bind_ok in Hy as (name & _ & Hy).
  apply bind_ok in Hy as (i & _ & Hy).
  inversion Hy; subst. cbn [fst]. exists text. split; [|apply getitems_tokens, Hws].
  unfold index in Ht.
  destruct (nth_error line 1) as [text'|]; [inversion Ht; reflexivity | discriminate].
Qed.

Lemma Forall2_combine_In {A B} (Q : A -> B -> Prop) (xs : list A) (ys : list B) :
  Forall2 Q xs ys -> forall x y, In (x, y) (combine xs ys) -> Q x y.
Proof.
  induction 1 as [|x0 y0 xs ys H0 _ IH]; simpl; [tauto|].
  intros x y [E|Hin]; [inversion E; subst; exact H0 | exact (IH x y Hin)].
Qed.

Lemma prepare_index_bound (train test : list (list string)) (p : prepared) :
  prepare train test = inl p ->
  size (word_to_index (after_train p)) <= size (word_to_index (final p)) /\
  forall w i, word_to_index (final p) !! w = Some i ->
              i < size (word_to_index (after_train p)).
Proof.
  intros H. destruct (PrepareFacts.prepare_ok_fields _ _ _ H) as [Htr Hte].
  destruct (PrepareFacts.prepare_spec train test Htr Hte)
    as (p' & E & D1 & [S12 G12] & _).
  assert (p' = p) by congruence; subst p'.
  destruct D1 as (Hu & Hb & _).
  split; [apply map_subseteq_size, S12|].
  intros w i Hw. destruct (G12 w i Hw) as [Hw1| ->]; [exact (Hb _ _ Hw1)|].
  exact (Hb _ _ Hu).
Qed.

Lemma prepare_keys (train test : list (list string)) (p : prepared) :
  prepare train test = inl p ->
  (forall w, is_Some (word_to_index (after_train p) !! w)
             <-> w = unk \/ In w (words_of train)) /\
  (forall w, is_Some (word_to_index (final p) !! w)
             <-> w = unk \/ In w (words_of train) \/ In w (words_of test)).
Proof.
  intros H. destruct (prepare_inv _ _ _ H) as (H1 & H2 & _).
  assert (K1 : forall w, is_Some (word_to_index (after_train p) !! w)
                         <-> w = unk \/ In w (words_of train)).
  { intros w. rewrite (create_dict_keys _ _ _ _ w H1), init_keys. tauto. }
  split; [exact K1|].
  intros w. rewrite (create_dict_keys _ _ _ _ w H2), K1. tauto.
Qed.

End DictFacts.

(** X3.  Tags are numbered like a fresh vocabulary, in both calls of
    [create_dict]: when the cell has run, the indices of [tag_to_index]
    are exactly the numbers below [number_of_tags], each the index of one
    tag, and this already holds after the call on the training data; the
    keys are the tags of the two data sets; every tag index that
    [create_tensor] produced is below [number_of_tags]; and a tag that
    only the test data has gets a new index, at or above the number of
    training tags and below [number_of_tags]. *)
Theorem tag_indices_are_numbered
        (train test : list (list string)) (p : Vocab.prepared) :
  Vocab.prepare train test = inl p ->
  let t1 := Vocab.tag_to_index (Vocab.after_train p) in
  let t2 := Vocab.tag_to_index (Vocab.final p) in
  Tags.numbered t1 /\ Tags.numbered t2 /\
  Vocab.number_of_tags p = size t2 /\
  (forall k, is_Some (t2 !! k)
             <-> In k (Tags.tags_of train) \/ In k (Tags.tags_of test)) /\
  (forall sent tag, In (sent, tag) (Vocab.train_data p ++ Vocab.test_data p) ->
                    tag < Vocab.number_of_tags p) /\
  (forall k i, In k (Tags.tags_of test) -> t1 !! k = None ->
               t2 !! k = Some i -> size t1 <= i < size t2).
Proof.
  intros H t1 t2.
  destruct (DictFacts.prepare_inv _ _ _ H) as (H1 & H2 & Etr & Ete & _ & En).
  pose proof (DictFacts.create_dict_tags _ _ _ _ H1) as E1.
  pose proof (DictFacts.create_dict_tags _ _ _ _ H2) as E2.
  fold t1 in E1, E2. fold t2 in E2. fold t2 in En.
  change (Vocab.tag_to_index Vocab.init) with (∅ : gmap string nat) in E1.
  assert (N1 : Tags.numbered t1).
  { rewrite E1. apply DictFacts.fold_add_tag_numbered, DictFacts.numbered_empty. }
  assert (N2 : Tags.numbered t2).
  { rewrite E2. apply DictFacts.fold_add_tag_numbered, N1. }
  assert (S12 : t1 ⊆ t2) by (rewrite E2; apply DictFacts.fold_add_tag_subseteq).
  split; [exact N1|]. split; [exact N2|]. split; [exact En|].
  split; [|split].
  - intros k. rewrite E2, DictFacts.fold_add_tag_keys, E1, DictFacts.fold_add_tag_keys.
    rewrite lookup_empty. split; [intros [[[x Hx]|Hk]|Hk]; [discriminate|auto|auto] | tauto].
  - intros sent tag Hin. rewrite En.
    apply in_app_or in Hin as [Hin|Hin];
      [destruct (DictFacts.create_tensor_tags _ _ _ Etr sent tag Hin) as (k & Hk)
      |destruct (DictFacts.create_tensor_tags _ _ _ Ete sent tag Hin) as (k & Hk)];
      exact (proj1 N2 _ _ Hk).
  - intros k i _ Hnone Hk. split; [|exact (proj1 N2 _ _ Hk)].
    destruct (le_lt_dec (size t1) i) as [Hle|Hlt]; [exact Hle|].
    destruct (proj2 (proj2 N1) i Hlt) as (k' & Hk').
    pose proof (lookup_weaken _ _ _ _ Hk' S12) as Hk2.
    assert (k' = k) by (eapply (proj1 (proj2 N2)); eassumption).
    subst k'. congruence.
Qed.

Lemma tag_indices_are_numbered_witness :
  exists p, Vocab.prepare corpus_train corpus_test = inl p /\
    forall sent tag,
      In (sent, tag) (Vocab.train_data p ++ Vocab.test_data p) ->
      tag < Vocab.number_of_tags p.
Proof.
  assert (E : exists p, Vocab.prepare corpus_train corpus_test = inl p)
    by (vm_compute; eexists; reflexivity).
  destruct E as (p & E). exists p. split; [exact E|].
  apply (tag_indices_are_numbered corpus_train corpus_test p E).
Defined.

(** X4.  What the word dictionary holds, and which rows of the embedding
    are never used.  When the cell has run, the keys of [word_to_index]
    after the first call of [create_dict] are ["<unk>"] and the words of
    the training data, and after the second call also the words of the
    test data.  Every token index that [create_tensor] produced is below
    the size the dictionary had after the first call, while
    [number_of_words] is the size after the second call: it is larger
    exactly when the test data has a word the training data lacks, and the
    rows of an embedding with [number_of_words] rows from that first size
    on are selected by no encoded sentence. *)
Theorem dictionary_keys_and_unused_rows
        (train test : list (list string)) (p : Vocab.prepared) :
  Vocab.prepare train test = inl p ->
  let w1 := Vocab.word_to_index (Vocab.after_train p) in
  let w2 := Vocab.word_to_index (Vocab.final p) in
  (forall w, is_Some (w1 !! w) <-> w = "<unk>" \/ In w (Vocab.words_of train)) /\
  (forall w, is_Some (w2 !! w)
             <-> w = "<unk>" \/ In w (Vocab.words_of train)
                 \/ In w (Vocab.words_of test)) /\
  (forall sent tag tok,
      In (sent, tag) (Vocab.train_data p ++ Vocab.test_data p) ->
      In tok sent -> tok < size w1) /\
  size w1 <= Vocab.number_of_words p /\
  ((exists w, In w (Vocab.words_of test) /\ w1 !! w = None)
   <-> size w1 < Vocab.number_of_words p).
Proof.
  intros H w1 w2.
  destruct (DictFacts.prepare_inv _ _ _ H) as (H1 & H2 & Etr & Ete & En & _).
  destruct (DictFacts.prepare_keys _ _ _ H) as [K1 K2].
  destruct (DictFacts.prepare_index_bound _ _ _ H) as [Hsz Hb].
  fold w1 in K1, Hsz, Hb. fold w2 in K2, Hsz, Hb, En.
  assert (S12 : w1 ⊆ w2).
  { destruct (PrepareFacts.prepare_ok_fields _ _ _ H) as [Htr Hte].
    destruct (PrepareFacts.prepare_spec train test Htr Hte) as (p' & E & _ & [S _] & _).
    assert (p' = p) by congruence; subst p'. exact S. }
  split; [exact K1|]. split; [exact K2|]. split; [|split].
  - intros sent tag tok Hin Htok.
    apply in_app_or in Hin as [Hin|Hin];
      [destruct (PrepareFacts.create_tensor_tokens _ _ _ Etr sent tag tok Hin Htok) as (w & Hw)
      |destruct (PrepareFacts.create_tensor_tokens _ _ _ Ete sent tag tok Hin Htok) as (w & Hw)];
      exact (Hb _ _ Hw).
  - rewrite En. exact Hsz.
  - rewrite En. split.
    + intros (w & Hin & Hnone).
      apply map_subset_size. split; [exact S12|].
      intros S21. destruct (proj2 (K2 w)) as (i & Hi); [auto|].
      pose proof (lookup_weaken _ _ _ _ Hi S21). congruence.
    + intros Hlt. destruct (decide (w2 ∖ w1 = ∅)) as [E|N].
      * exfalso. assert (S21 : w2 ⊆ w1).
        { apply map_subseteq_spec. intros k v Hk.
          destruct (w1 !! k) as [v'|] eqn:Ek.
          - pose proof (lookup_weaken _ _ _ _ Ek S12). congruence.
          - assert (Hd : (w2 ∖ w1) !! k = Some v)
              by (apply lookup_difference_Some; auto).
            rewrite E, lookup_empty in Hd. discriminate. }
        apply map_subseteq_size in S21. lia.
      * apply map_choose in N as (k & v & Hkv).
        apply lookup_difference_Some in Hkv as [Hk2 Hk1].
        exists k. split; [|exact Hk1].
        assert (Hs : is_Some (w2 !! k)) by eauto.
        apply K2 in Hs. destruct Hs as [Hu|[Hk|Hk]]; [exfalso | exfalso | exact Hk];
          (destruct (proj2 (K1 k)) as (i & Hi); [auto | congruence]).
Qed.

Lemma dictionary_keys_and_unused_rows_witness :
  exists p, Vocab.prepare corpus_train corpus_test = inl p /\
    Vocab.number_of_words p >= size (Vocab.word_to_index (Vocab.after_train p)).
Proof.
  assert (E : exists p, Vocab.prepare corpus_train corpus_test = inl p)
    by (vm_compute; eexists; reflexivity).
  destruct E as (p & E). exists p. split; [exact E|].
  apply (dictionary_keys_and_unused_rows corpus_train corpus_test p E).
Defined.

(** X5.  [sentence_to_tensor] has no fallback to ["<unk>"].  When the cell
    has run, a sentence all of whose words are ["<unk>"] or words of the
    training or test data is turned into as many token indices as it has
    words, all below [number_of_words], so that a [BoW] model of that size
    accepts them; a sentence with any other word raises [KeyError]. *)
Theorem sentence_to_tensor_needs_known_words
        (train test : list (list string)) (p : Vocab.prepared) (sentence : string) :
  Vocab.prepare train test = inl p ->
  let w2 := Vocab.word_to_index (Vocab.final p) in
  let known := fun w => w = "<unk>" \/ In w (Vocab.words_of train)
                        \/ In w (Vocab.words_of test) in
  ((forall w, In w (PyStr.split " " sentence) -> known w) ->
   exists toks, Pretest.sentence_to_tensor w2 sentence = inl toks /\
     length toks = length (PyStr.split " " sentence) /\
     Forall (fun tok => tok < Vocab.number_of_words p) toks /\
     forall m, BoW.wf m -> BoW.nwords m = Vocab.number_of_words p ->
               succeeds (BoW.forward m toks)) /\
  ((exists w, In w (PyStr.split " " sentence) /\ ~ known w) ->
   Pretest.sentence_to_tensor w2 sentence = inr KeyError).
Proof.
  intros H w2 known.
  destruct (DictFacts.prepare_keys _ _ _ H) as [_ K2].
  destruct (DictFacts.prepare_index_bound _ _ _ H) as [Hsz Hb].
  destruct (DictFacts.prepare_inv _ _ _ H) as (_ & _ & _ & _ & En & _).
  fold w2 in K2, Hsz, Hb, En. unfold Pretest.sentence_to_tensor. split.
  - intros Hk.
    destruct (DictFacts.getitems_ok w2 (PyStr.split " " sentence)) as (toks & E).
    { intros w Hw. apply K2, Hk, Hw. }
    exists toks. pose proof (DictFacts.getitems_tokens _ _ _ E) as F.
    assert (Hlt : Forall (fun tok => tok < Vocab.number_of_words p) toks).
    { clear E. induction F as [|w tok ws toks Hw _ IH]; constructor.
      - apply Hb in Hw. lia.
      - apply IH. intros w' Hw'. apply Hk. right; exact Hw'. }
    split; [exact E|]. split; [symmetry; eapply Forall2_length; exact F|].
    split; [exact Hlt|].
    intros m Hwf Hn. rewrite <- Hn in Hlt.
    destruct (TensorFacts.BoW_forward_spec m toks Hwf Hlt) as (out & E' & _).
    exists [out]; exact E'.
  - intros (w & Hw & Hnk).
    destruct (mapM (getitem w2) (PyStr.split " " sentence)) as [toks|e] eqn:E.
    + exfalso. apply DictFacts.getitems_tokens in E.
      clear -E Hw Hnk K2. induction E as [|w0 tok ws toks Hw0 _ IH]; [destruct Hw|].
      destruct Hw as [->|Hw]; [|exact (IH Hw)].
      apply Hnk, K2. eauto.
    + destruct (DictFacts.getitems_error _ _ _ E) as [-> _]. reflexivity.
Qed.

Lemma sentence_to_tensor_needs_known_words_witness :
  exists p, Vocab.prepare corpus_train corpus_test = inl p /\
    exists toks,
      Pretest.sentence_to_tensor (Vocab.word_to_index (Vocab.final p)) "i love dogs"
      = inl toks /\ length toks = 3.
Proof.
  assert (E : exists p, Vocab.prepare corpus_train corpus_test = inl p)
    by (vm_compute; eexists; reflexivity).
  destruct E as (p & E). exists p. split; [exact E|].
  destruct (proj1 (sentence_to_tensor_needs_known_words
                     corpus_train corpus_test p "i love dogs" E))
    as (toks & Ht & Hl & _).
  - intros w Hw. right; left. vm_compute in Hw. vm_compute. tauto.
  - exists toks. split; [exact Ht | exact Hl].
Defined.

(** X6.  The training texts are encoded without loss.  When the cell has
    run, [train_data] and [test_data] have one example for each line read,
    and if two lines of the training data got the same list of token
    indices, then their texts [line[1]] are the same. *)
Theorem training_texts_are_encoded_without_loss
        (train test : list (list string)) (p : Vocab.prepared) :
  Vocab.prepare train test = inl p ->
  length (Vocab.train_data p) = length train /\
  length (Vocab.test_data p) = length test /\
  forall line1 ex1 line2 ex2 text1 text2,
    In (line1, ex1) (combine train (Vocab.train_data p)) ->
    In (line2, ex2) (combine train (Vocab.train_data p)) ->
    nth_error line1 1 = Some text1 -> nth_error line2 1 = Some text2 ->
    fst ex1 = fst ex2 -> text1 = text2.
Proof.
  intros H.
  destruct (DictFacts.prepare_inv _ _ _ H) as (_ & _ & Etr & Ete & _).
  destruct (DictFacts.prepare_keys _ _ _ H) as [K1 _].
  destruct (PrepareFacts.prepare_ok_fields _ _ _ H) as [Htr Hte].
  destruct (PrepareFacts.prepare_spec train test Htr Hte)
    as (p' & E & (_ & _ & Hinj) & [S12 _] & _).
  assert (p' = p) by congruence; subst p'.
  pose proof (DictFacts.create_tensor_lines _ _ _ Etr) as Ftr.
  pose proof (DictFacts.create_tensor_lines _ _ _ Ete) as Fte.
  split; [symmetry; eapply Forall2_length; exact Ftr|].
  split; [symmetry; eapply Forall2_length; exact Fte|].
  intros line1 ex1 line2 ex2 text1 text2 In1 In2 T1 T2 Etok.
  pose proof (in_combine_l _ _ _ _ In1) as L1.
  pose proof (in_combine_l _ _ _ _ In2) as L2.
  destruct (DictFacts.Forall2_combine_In _ _ _ Ftr _ _ In1) as (t1 & T1' & F1).
  destruct (DictFacts.Forall2_combine_In _ _ _ Ftr _ _ In2) as (t2 & T2' & F2).
  assert (t1 = text1) by congruence. assert (t2 = text2) by congruence. subst t1 t2.
  rewrite Etok in F1.
  assert (Ews : PyStr.split " " text1 = PyStr.split " " text2).
  { eapply DictFacts.tokens_inj; [|exact F1|exact F2].
    intros a b i Ha Hb Ha2 Hb2.
    destruct (proj2 (K1 a)) as (ia & Hia);
      [right; exact (DictFacts.words_of_line _ _ _ _ L1 T1 Ha)|].
    destruct (proj2 (K1 b)) as (ib & Hib);
      [right; exact (DictFacts.words_of_line _ _ _ _ L2 T2 Hb)|].
    pose proof (lookup_weaken _ _ _ _ Hia S12) as Hia2.
    pose proof (lookup_weaken _ _ _ _ Hib S12) as Hib2.
    assert (ia = i) by congruence. assert (ib = i) by congruence. subst ia ib.
    eapply Hinj; eassumption. }
  rewrite <- (CleaningFacts.join_split " " text1), <- (CleaningFacts.join_split " " text2)
    by discriminate.
  rewrite Ews. reflexivity.
Qed.

Lemma training_texts_are_encoded_without_loss_witness :
  exists p, Vocab.prepare corpus_train corpus_test = inl p /\
    length (Vocab.train_data p) = 2 /\ length (Vocab.test_data p) = 1.
Proof.
  assert (E : exists p, Vocab.prepare corpus_train corpus_test = inl p)
    by (vm_compute; eexists; reflexivity).
  destruct E as (p & E). exists p. split; [exact E|].
  destruct (training_texts_are_encoded_without_loss corpus_train corpus_test p E)
    as (H1 & H2 & _).
  split; [exact H1 | exact H2].
Defined.

(** ** The deep model: what [forward] returns *)

Module DeepFacts.
Import Tensor.

Lemma hidden_layers_total (m : DeepCBoW.t) (h : mat) :
  length (DeepCBoW.linears m) = DeepCBoW.num_layers m ->
  exists h', DeepCBoW.hidden_layers m h = inl h'.
Proof.
  intros Hl. unfold DeepCBoW.hidden_layers.
  destruct (foldM_total (fun _ => True) (DeepCBoW.layer m)
                        (seq 0 (DeepCBoW.num_layers m))) with (s := h)
    as (h' & E & _); [|exact I|eauto].
  intros s i Hi _. apply in_seq in Hi. unfold DeepCBoW.layer, index.
  destruct (nth_error (DeepCBoW.linears m) i) as [l|] eqn:El.
  - simpl. eauto.
  - apply nth_error_None in El. lia.
Qed.

Lemma deep_wf_layers (m : DeepCBoW.t) :
  DeepCBoW.wf m -> length (DeepCBoW.linears m) = DeepCBoW.num_layers m.
Proof.
  intros (_ & F & _). apply Forall2_length in F. rewrite length_seq in F. lia.
Qed.

Lemma length_linear (l : Linear) (h : mat) : length (linear l h) = length h.
Proof. unfold linear. apply length_map. Qed.

Lemma layer_rows (m : DeepCBoW.t) (h h' : mat) (i : nat) :
  DeepCBoW.layer m h i = inl h' -> length h' = length h.
Proof.
  unfold DeepCBoW.layer. intros H. apply bind_ok in H as (l & _ & H).
  inversion H; subst. unfold mmap. rewrite length_map. apply length_linear.
Qed.

Lemma hidden_layers_rows (m : DeepCBoW.t) (h h' : mat) :
  DeepCBoW.hidden_layers m h = inl h' -> length h' = length h.
Proof.
  unfold DeepCBoW.hidden_layers.
  apply (foldM_invariant (fun s => length s = length h)); [|reflexivity].
  intros s i s' _ Hs Hi. apply layer_rows in Hi. congruence.
Qed.

End DeepFacts.

(** X9.  What [forward] of the deep model returns.  For a well-formed
    [DeepCBoW] model and a sentence whose token indices are all below
    [nwords], [forward] returns a tensor of one row of [ntags] scores,
    whatever the number of tokens and of hidden layers. *)
Theorem deep_forward_returns_one_row_of_scores (m : DeepCBoW.t) (x : list nat) :
  DeepCBoW.wf m -> Forall (fun tok => tok < DeepCBoW.nwords m) x ->
  exists row, DeepCBoW.forward m x = inl [row] /\ length row = DeepCBoW.ntags m.
Proof.
  intros Hwf H. pose proof (DeepFacts.deep_wf_layers m Hwf) as Hl.
  destruct Hwf as ((Hn & _) & _ & (HW & _) & Hb & _). rewrite <- Hn in H.
  unfold DeepCBoW.forward. rewrite (TensorFacts.embedding_spec _ _ H). simpl.
  destruct (DeepFacts.hidden_layers_total m
              (Tensor.view_1 (Tensor.sum_dim0 (DeepCBoW.emb_size m)
                 (map (fun tok => nth tok (DeepCBoW.embedding m) []) x))) Hl)
    as (h & Hh).
  rewrite Hh. simpl.
  pose proof (DeepFacts.hidden_layers_rows _ _ _ Hh) as Hrows.
  destruct h as [|hrow [|? ?]]; simpl in Hrows; try discriminate.
  unfold Tensor.linear; simpl. eexists. split; [reflexivity|].
  rewrite TensorFacts.length_vadd; rewrite length_map;
    [exact HW | exact (eq_trans HW (eq_sym Hb))].
Qed.

Lemma deep_forward_returns_one_row_of_scores_witness :
  exists row,
    DeepCBoW.forward deep_example sentence_example = inl [row] /\ length row = 2.
Proof.
  assert (W : DeepCBoW.wf deep_example).
  { unfold DeepCBoW.wf, DeepCBoW.layer_wf, Tensor.shape; simpl.
    split; [split; [reflexivity | repeat constructor]|].
    split; [repeat constructor|].
    split; [split; [reflexivity | repeat constructor]|].
    split; [reflexivity | discriminate]. }
  apply (deep_forward_returns_one_row_of_scores deep_example sentence_example W).
  unfold sentence_example; simpl. repeat constructor.
Defined.

(** ** The epochs of the text loop: what is divided by what *)

Module EpochFacts.
Import Torch TextLoop.

Section Text.
Context (L : lib (list nat) nat) (P : pyrandom TextLoop.example).

Lemma train_step_count (acc : module L * R * nat * list event) (ex : example) :
  snd (fst (train_step L acc ex)) <= S (snd (fst acc)).
Proof.
  destruct acc as [[[m l] c] tr], ex as [sentence tag]. simpl.
  destruct (argmax L (call L m sentence) =? tag)%nat; simpl; lia.
Qed.

Lemma fold_train_step_count (td : list example) :
  forall acc, snd (fst (fold_left (train_step L) td acc)) <= snd (fst acc) + length td.
Proof.
  induction td as [|ex td IH]; intros acc; simpl; [lia|].
  etrans; [apply IH|]. pose proof (train_step_count acc ex). lia.
Qed.

Lemma test_step_count (m : module L) (acc : nat * list event) (ex : example) :
  fst (test_step L m acc ex) <= S (fst acc).
Proof.
  destruct acc as [c tr], ex as [sentence tag]. simpl.
  destruct (argmax L (call L m sentence) =? tag)%nat; simpl; lia.
Qed.

Lemma fold_test_step_count (m : module L) (test : list example) :
  forall acc, fst (fold_left (test_step L m) test acc) <= fst acc + length test.
Proof.
  induction test as [|ex test IH]; intros acc; simpl; [lia|].
  etrans; [apply IH|]. pose proof (test_step_count m acc ex). lia.
Qed.

Lemma fraction_bounds (c n : nat) :
  c <= n -> n <> 0 -> (0 <= INR c / INR n <= 1)%R.
Proof.
  intros Hc Hn. assert (0 < INR n)%R by (apply lt_0_INR; lia).
  pose proof (pos_INR c). apply le_INR in Hc. split.
  - apply Rmult_le_pos; [assumption | left; apply Rinv_0_lt_compat; assumption].
  - apply Rmult_le_reg_r with (INR n); [assumption|].
    unfold Rdiv. rewrite Rmult_assoc, Rinv_l by lra. lra.
Qed.

(** One epoch either divides by an empty data set or prints two
    fractions. *)
Lemma epoch_cases (label : string) (test : list example) (s : state L P) (ITER : nat) :
  ((train_data s = [] \/ test = []) ->
   epoch L P label test s ITER = inr ZeroDivisionError) /\
  (train_data s <> [] -> test <> [] ->
   exists s' a b c,
     epoch L P label test s ITER = inl s' /\
     stdout s' = stdout s ++ [EpochLog label (ITER + 1) a b c] /\
     (0 <= b <= 1)%R /\ (0 <= c <= 1)%R /\
     Permutation (train_data s) (train_data s')).
Proof.
  unfold epoch, train_mode_call, shuffle_call, eval_mode_call.
  pose proof (shuffle_permutes P (generator s) (train_data s)) as Hperm.
  destruct (shuffle P (generator s) (train_data s)) as [td g]. simpl in Hperm.
  pose proof (Permutation_length Hperm) as Hlen.
  pose proof (fold_train_step_count td
                (train_mode L (model s), 0%R, 0, (trace s ++ [ETrainMode]) ++ [EShuffle]))
    as Hc.
  destruct (fold_left (train_step L) td
              (train_mode L (model s), 0%R, 0, (trace s ++ [ETrainMode]) ++ [EShuffle]))
    as [[[m' l'] c'] tr'].
  simpl in Hc.
  pose proof (fold_test_step_count (eval_mode L m') test (0, tr' ++ [EEvalMode])) as Hc'.
  destruct (fold_left (test_step L (eval_mode L m')) test (0, tr' ++ [EEvalMode]))
    as [tc tr''].
  simpl in Hc'. split.
  - intros [Hnil|Hnil].
    + rewrite Hnil in Hlen. simpl in Hlen. rewrite <- Hlen. reflexivity.
    + subst test. unfold pydiv. simpl.
      destruct (length td =? 0)%nat; reflexivity.
  - intros Htr Hte.
    assert (Hn : length td <> 0) by (destruct (train_data s); simpl in *; congruence).
    assert (Hm : length test <> 0) by (destruct test; simpl in *; congruence).
    rewrite !LoopFacts.pydiv_ok by assumption. simpl.
    eexists _, _, _, _. split; [reflexivity|]. simpl.
    split; [reflexivity|].
    split; [apply fraction_bounds; assumption|].
    split; [apply fraction_bounds; assumption | exact Hperm].
Qed.

Lemma epochs_raise (label : string) (test : list example) (k start : nat)
      (s : state L P) :
  train_data s = [] \/ test = [] ->
  foldM (epoch L P label test) (seq start (S k)) s = inr ZeroDivisionError.
Proof.
  intros H. simpl. rewrite (proj1 (epoch_cases label test s start) H). reflexivity.
Qed.

Lemma epochs_print_fractions (label : string) (test : list example) (k : nat) :
  forall start (s : state L P),
    train_data s <> [] -> test <> [] ->
    exists s' logs,
      foldM (epoch L P label test) (seq start k) s = inl s' /\
      stdout s' = stdout s ++ logs /\ length logs = k /\
      Forall (fun l => exists n a b c, l = EpochLog label n a b c /\
                         (0 <= b <= 1)%R /\ (0 <= c <= 1)%R) logs /\
      Permutation (train_data s) (train_data s').
Proof.
  induction k as [|k IH]; intros start s Htr Hte; simpl.
  - exists s, []. rewrite app_nil_r.
    split; [reflexivity|]. split; [reflexivity|]. split; [reflexivity|].
    split; [constructor | reflexivity].
  - destruct (proj2 (epoch_cases label test s start) Htr Hte)
      as (s1 & a & b & c & E & Ho & Hb & Hc & Hp).
    rewrite E. simpl.
    assert (Htr1 : train_data s1 <> []).
    { intros Hnil. rewrite Hnil in Hp. apply Permutation_nil_r in Hp. auto. }
    destruct (IH (S start) s1 Htr1 Hte) as (s' & logs & E' & Ho' & Hl & Hf & Hp').
    rewrite E'. exists s', (EpochLog label (start + 1) a b c :: logs).
    split; [reflexivity|].
    split; [rewrite Ho', Ho, <- app_assoc; reflexivity|].
    split; [simpl; congruence|].
    split; [constructor; [eauto 10 | exact Hf]|].
    etrans; eassumption.
Qed.

End Text.

End EpochFacts.

(** X10.  The text loops divide by the sizes of the two data sets.  With
    no training example or no test example, [train_bow] and the loop of
    the CBOW notebooks raise [ZeroDivisionError].  Otherwise they return,
    having printed ten lines, and the two accuracies of every line lie
    between 0 and 1; the training data is then the data before the loop
    in another order. *)
Theorem text_loops_divide_by_the_data_sizes
        (L : Torch.lib (list nat) nat) (P : Torch.pyrandom TextLoop.example)
        (test : list TextLoop.example) (s : TextLoop.state L P) :
  ((TextLoop.train_data s = [] \/ test = []) ->
   TextLoop.train_bow L P test s = inr ZeroDivisionError /\
   TextLoop.train_cbow L P test s = inr ZeroDivisionError) /\
  (TextLoop.train_data s <> [] -> test <> [] ->
   forall run, run = TextLoop.train_bow L P \/ run = TextLoop.train_cbow L P ->
     exists s' logs,
       run test s = inl s' /\
       TextLoop.stdout s' = TextLoop.stdout s ++ logs /\ length logs = 10 /\
       Forall (fun l => exists label n a b c, l = EpochLog label n a b c /\
                          (0 <= b <= 1)%R /\ (0 <= c <= 1)%R) logs /\
       Permutation (TextLoop.train_data s) (TextLoop.train_data s')).
Proof.
  split.
  - intros H. split; apply (EpochFacts.epochs_raise L P _ test 9 0 s H).
  - intros Htr Hte run Hrun.
    assert (G : forall label,
               exists s' logs,
                 foldM (TextLoop.epoch L P label test) (seq 0 TextLoop.epochs) s = inl s' /\
                 TextLoop.stdout s' = TextLoop.stdout s ++ logs /\ length logs = 10 /\
                 Forall (fun l => exists label n a b c, l = EpochLog label n a b c /\
                                    (0 <= b <= 1)%R /\ (0 <= c <= 1)%R) logs /\
                 Permutation (TextLoop.train_data s) (TextLoop.train_data s')).
    { intros label.
      destruct (EpochFacts.epochs_print_fractions L P label test TextLoop.epochs 0 s Htr Hte)
        as (s' & logs & E & Ho & Hl & Hf & Hp).
      exists s', logs. split; [exact E|]. split; [exact Ho|]. split; [exact Hl|].
      split; [|exact Hp].
      eapply Forall_impl; [exact Hf|]. intros l (n & a & b & c & Hl'). eauto 10. }
    destruct Hrun as [-> | ->]; apply G.
Qed.

Lemma text_loops_divide_by_the_data_sizes_witness :
  exists s' logs,
    TextLoop.train_bow history_lib (coin_random TextLoop.example)
                       two_examples (text_start false) = inl s' /\
    TextLoop.stdout s' = logs /\ length logs = 10.
Proof.
  destruct (proj2 (text_loops_divide_by_the_data_sizes
                     history_lib (coin_random TextLoop.example)
                     two_examples (text_start false))
                  ltac:(discriminate) ltac:(discriminate)
                  (TextLoop.train_bow history_lib (coin_random TextLoop.example))
                  (or_introl eq_refl))
    as (s' & logs & E & Ho & Hl & _).
  exists s', logs. split; [exact E|]. split; [exact Ho | exact Hl].
Defined.

(** ** Picking the user of the counterfactual notebook *)

Module UserPickFacts.
Import Counterfactual UserPick.

Lemma argwhere_nil (k : nat) (p : list Z) :
  argwhere_from k p = [] -> Forall (fun c => c = desired_class) p.
Proof.
  revert k; induction p as [|c p IH]; intros k H; simpl in H; [constructor|].
  destruct (c =? desired_class)%Z eqn:Ec; [|discriminate].
  constructor; [apply Z.eqb_eq, Ec | eapply IH, H].
Qed.

Lemma length_argwhere (k : nat) (p : list Z) :
  length (argwhere_from k p) = length (filter (fun c => c <> desired_class) p).
Proof.
  revert k; induction p as [|c p IH]; intros k; simpl; [reflexivity|].
  destruct (c =? desired_class)%Z eqn:Ec.
  - apply Z.eqb_eq in Ec. rewrite filter_cons_False by tauto. apply IH.
  - apply Z.eqb_neq in Ec. rewrite filter_cons_True by exact Ec. simpl. f_equal. apply IH.
Qed.

(** The last index found is the largest index of an undesired
    prediction. *)
Lemma argwhere_last (p : list Z) :
  forall k, argwhere_from k p <> [] ->
    let idx := List.last (argwhere_from k p) 0 in
    k <= idx < k + length p /\
    (exists c, nth_error p (idx - k) = Some c /\ c <> desired_class) /\
    (forall j c, idx < j -> nth_error p (j - k) = Some c -> c = desired_class).
Proof.
  induction p as [|c p IH]; intros k H; [contradiction|]. simpl in H |- *.
  destruct (c =? desired_class)%Z eqn:Ec.
  - destruct (IH (S k) H) as (Hb & (c' & Hc' & Hn) & Hafter).
    set (idx := List.last (argwhere_from (S k) p) 0) in *.
    split; [lia|]. split.
    + exists c'. split; [|exact Hn].
      replace (idx - k) with (S (idx - S k)) by lia. exact Hc'.
    + intros j c0 Hj Hc0. replace (j - k) with (S (j - S k)) in Hc0 by lia.
      exact (Hafter j c0 Hj Hc0).
  - apply Z.eqb_neq in Ec.
    destruct (argwhere_from (S k) p) as [|i rest] eqn:Er.
    + simpl. split; [lia|]. split.
      * exists c. rewrite Nat.sub_diag. split; [reflexivity | exact Ec].
      * intros j c0 Hj Hc0. replace (j - k) with (S (j - S k)) in Hc0 by lia.
        simpl in Hc0. apply argwhere_nil in Er. rewrite Forall_forall in Er.
        apply Er, list_elem_of_In. eapply nth_error_In, Hc0.
    + assert (Hne : argwhere_from (S k) p <> []) by (rewrite Er; discriminate).
      destruct (IH (S k) Hne) as (Hb & (c' & Hc' & Hn) & Hafter).
      rewrite Er in Hb, Hc', Hafter.
      change (List.last (k :: i :: rest) 0) with (List.last (i :: rest) 0).
      set (idx := List.last (i :: rest) 0) in *.
      split; [lia|]. split.
      * exists c'. split; [|exact Hn].
        replace (idx - k) with (S (idx - S k)) by lia. exact Hc'.
      * intros j c0 Hj Hc0. replace (j - k) with (S (j - S k)) in Hc0 by lia.
        exact (Hafter j c0 Hj Hc0).
Qed.

End UserPickFacts.

(** X11.  Picking the unhappy user needs two of them.  With predictions
    [p] for the test samples, [np.argwhere(p != desired_class).squeeze()[-1]]
    raises [IndexError] when fewer than two predictions are undesired (with
    exactly one, [squeeze] leaves an array without dimensions); with two
    or more the cell picks the sample of the largest index whose
    prediction is undesired. *)
Theorem picking_the_user_needs_two_undesired
        (X_test : list Counterfactual.array) (p : list Z) :
  length p = length X_test ->
  let undesired := length (filter (fun c => c <> Counterfactual.desired_class) p) in
  (undesired < 2 -> UserPick.pick X_test p = inr IndexError) /\
  (2 <= undesired ->
   exists idx x,
     UserPick.pick X_test p = inl (idx, x) /\
     nth_error X_test idx = Some x /\
     (exists c, nth_error p idx = Some c /\ c <> Counterfactual.desired_class) /\
     (forall j c, nth_error p j = Some c -> c <> Counterfactual.desired_class ->
                  j <= idx)).
Proof.
  intros Hlen undesired. unfold undesired.
  rewrite <- (UserPickFacts.length_argwhere 0 p). unfold UserPick.pick.
  pose proof (UserPickFacts.argwhere_last p 0) as Hlast.
  destruct (UserPick.argwhere_from 0 p) as [|i [|i' rest]] eqn:Ea; simpl length.
  - split; [reflexivity | lia].
  - split; [reflexivity | lia].
  - split; [lia|]. intros _.
    destruct (Hlast ltac:(discriminate)) as (Hb & (c & Hc & Hn) & Hafter).
    set (idx := List.last (i :: i' :: rest) 0) in *.
    rewrite Nat.sub_0_r in Hc.
    assert (Hi : idx < length X_test) by lia.
    destruct (nth_error X_test idx) as [x|] eqn:Ex;
      [|apply nth_error_None in Ex; lia].
    exists idx, x. unfold UserPick.squeeze_last. fold idx. simpl.
    unfold index. rewrite Ex. simpl.
    split; [reflexivity|]. split; [reflexivity|]. split; [eauto|].
    intros j c0 Hj Hc0. destruct (le_lt_dec j idx) as [Hle|Hlt]; [exact Hle|].
    exfalso. apply Hc0. apply (Hafter j c0 Hlt). rewrite Nat.sub_0_r. exact Hj.
Qed.

Lemma picking_the_user_needs_two_undesired_witness :
  UserPick.pick [[1 # 1]; [2 # 1]; [3 # 1]] [0; 1; 1]%Z = inr IndexError /\
  exists x, UserPick.pick [[1 # 1]; [2 # 1]; [3 # 1]] [0; 0; 1]%Z = inl (1, x).
Proof.
  split.
  - apply (proj1 (picking_the_user_needs_two_undesired
                    [[1 # 1]; [2 # 1]; [3 # 1]] [0; 1; 1]%Z eq_refl)).
    vm_compute. lia.
  - destruct (proj2 (picking_the_user_needs_two_undesired
                       [[1 # 1]; [2 # 1]; [3 # 1]] [0; 0; 1]%Z eq_refl))
      as (idx & x & E & _).
    + vm_compute. lia.
    + exists x. rewrite E. vm_compute in E. inversion E; subst. reflexivity.
Defined.

(** ** The computational graph *)

(** X12.  The gradients of the computational graph.  For
    [c = a + b; d = b + 1; e = c * d] the derivative of [e] in [a] is [d],
    the one path from [a] to [e], and the derivative in [b] is [c + d], the
    sum over the two paths from [b]; at the notebook's inputs [a = 2] and
    [b = 1] the value of [e] is 6 and the two gradients are 2 and 5. *)
Theorem graph_gradients_sum_over_paths (a b : R) :
  derivable_pt_lim (fun a' => Graph.e a' b) a (Graph.d b) /\
  derivable_pt_lim (fun b' => Graph.e a b') b (Graph.c a b + Graph.d b)%R /\
  Graph.e 2 1 = 6%R /\ Graph.d 1 = 2%R /\ (Graph.c 2 1 + Graph.d 1 = 5)%R.
Proof.
  split; [|split; [|unfold Graph.e, Graph.c, Graph.d; repeat split; lra]].
  - apply derivable_pt_lim_ext
      with (f := ((id + fct_cte b) * fct_cte (b + 1))%F);
      [intros x; reflexivity|].
    replace (Graph.d b) with ((1 + 0) * fct_cte (b + 1) a
                              + (id + fct_cte b)%F a * 0)%R
      by (unfold Graph.d, fct_cte, plus_fct, id; lra).
    apply derivable_pt_lim_mult; [|apply derivable_pt_lim_const].
    apply derivable_pt_lim_plus; [apply derivable_pt_lim_id | apply derivable_pt_lim_const].
  - apply derivable_pt_lim_ext
      with (f := ((fct_cte a + id) * (id + fct_cte 1))%F);
      [intros x; reflexivity|].
    replace (Graph.c a b + Graph.d b)%R
      with ((0 + 1) * (id + fct_cte 1)%F b + (fct_cte a + id)%F b * (1 + 0))%R
      by (unfold Graph.c, Graph.d, fct_cte, plus_fct, id; lra).
    apply derivable_pt_lim_mult; apply derivable_pt_lim_plus;
      first [apply derivable_pt_lim_id | apply derivable_pt_lim_const].
Qed.

(** ** The scaling cell *)

Module ScalingFacts.
Import Tensor Scaling MatrixFacts.

Lemma fold_Rmax_spec (rest : vec) :
  forall a,
    In (fold_left Rmax rest a) (a :: rest) /\
    (forall b, In b (a :: rest) -> (b <= fold_left Rmax rest a)%R).
Proof.
  induction rest as [|x rest IH]; intros a; simpl.
  - split; [left; reflexivity | intros b [->|[]]; lra].
  - destruct (IH (Rmax a x)) as [Hin Hle]. split.
    + destruct Hin as [E|Hin]; [|right; right; exact Hin].
      rewrite <- E. unfold Rmax. destruct (Rle_dec a x); auto.
    + intros b Hb.
      assert (Hm : (Rmax a x <= fold_left Rmax rest (Rmax a x))%R)
        by (apply Hle; left; reflexivity).
      destruct Hb as [->|[->|Hb]].
      * pose proof (Rmax_l b x). lra.
      * pose proof (Rmax_r a b). lra.
      * apply Hle. right; exact Hb.
Qed.

Lemma vmax_in (v : vec) : v <> [] -> In (vmax v) v.
Proof. destruct v as [|a rest]; [congruence|]. intros _. apply fold_Rmax_spec. Qed.

Lemma vmax_ge (v : vec) (b : R) : In b v -> (b <= vmax v)%R.
Proof. destruct v as [|a rest]; [intros []|]. apply fold_Rmax_spec. Qed.

Lemma nth_max_dim0 (X : mat) (j : nat) :
  j < ncols X -> nth j (max_dim0 X) 0%R = vmax (col j X).
Proof.
  intros Hj. unfold max_dim0.
  rewrite (nth_map_in (fun j => vmax (col j X)) (seq 0 (ncols X)) 0 0%R j)
    by (rewrite length_seq; exact Hj).
  rewrite seq_nth by exact Hj. reflexivity.
Qed.

Lemma entry_scale (n c : nat) (X : mat) (i j : nat) :
  0 < n -> shape n c X -> i < n -> j < c ->
  entry (scale X) i j = (entry X i j / vmax (col j X))%R.
Proof.
  intros Hn HX Hi Hj.
  pose proof (shape_ncols _ _ _ HX Hn) as Hc.
  pose proof (shape_nth _ _ _ _ HX Hi) as Hrow. destruct HX as [Hl _].
  unfold scale, div_rows, entry.
  assert (Hi' : i < length X) by (rewrite Hl; exact Hi).
  rewrite (nth_map_in (fun row => zip_with Rdiv row (max_dim0 X)) X
                      ([] : vec) ([] : vec) i Hi').
  rewrite (nth_zip_with_in Rdiv _ _ 0%R 0%R 0%R);
    [| rewrite Hrow; exact Hj
     | unfold max_dim0; rewrite length_map, length_seq, Hc; exact Hj].
  rewrite nth_max_dim0 by (rewrite Hc; exact Hj). reflexivity.
Qed.

Lemma shape_scale (n c : nat) (X : mat) :
  0 < n -> shape n c X -> shape n c (scale X).
Proof.
  intros Hn HX. pose proof (shape_ncols _ _ _ HX Hn) as Hc. destruct HX as [Hl Hr].
  unfold scale, div_rows. split; [rewrite length_map; exact Hl|].
  apply Forall_map. eapply Forall_impl; [exact Hr|]. intros row Hrow. simpl.
  rewrite length_zip_with. unfold max_dim0. rewrite length_map, length_seq, Hc.
  simpl in Hrow. rewrite Hrow. apply Nat.min_id.
Qed.

Lemma col_entry_in (n c : nat) (X : mat) (i j : nat) :
  shape n c X -> i < n -> In (entry X i j) (col j X).
Proof.
  intros [Hl _] Hi. rewrite <- nth_col. apply nth_In. rewrite length_col. lia.
Qed.

Lemma col_in_entry (X : mat) (j : nat) (a : R) :
  In a (col j X) -> exists i, i < length X /\ entry X i j = a.
Proof.
  intros H. apply (In_nth _ _ 0%R) in H as (i & Hi & E).
  rewrite length_col in Hi. rewrite nth_col in E. eauto.
Qed.

End ScalingFacts.

(** X13.  The scaling cell maps positive data into the unit interval.
    For a matrix [X] with rows and positive entries,
    [torch.div(X, torch.max(X, 0)[0])] has the shape of [X], every entry
    of it is at least 0 and at most 1, and every column has an entry equal
    to 1. *)
Theorem scaling_maps_into_the_unit_interval (n c : nat) (X : Tensor.mat) :
  0 < n -> Tensor.shape n c X ->
  (forall i j, i < n -> j < c -> (0 < Tensor.entry X i j)%R) ->
  Tensor.shape n c (Scaling.scale X) /\
  (forall i j, i < n -> j < c -> (0 <= Tensor.entry (Scaling.scale X) i j <= 1)%R) /\
  (forall j, j < c -> exists i, i < n /\ Tensor.entry (Scaling.scale X) i j = 1%R).
Proof.
  intros Hn HX Hpos.
  assert (Hmax : forall j, j < c ->
            exists i, i < n /\ Tensor.entry X i j = Scaling.vmax (Tensor.col j X)).
  { intros j Hj. destruct (ScalingFacts.col_in_entry X j (Scaling.vmax (Tensor.col j X)))
      as (i & Hi & E).
    - apply ScalingFacts.vmax_in. destruct HX as [Hl _].
      destruct X; simpl in *; [lia | discriminate].
    - exists i. destruct HX as [Hl _]. split; [lia | exact E]. }
  assert (Hmpos : forall j, j < c -> (0 < Scaling.vmax (Tensor.col j X))%R).
  { intros j Hj. destruct (Hmax j Hj) as (i & Hi & <-). apply Hpos; assumption. }
  split; [apply ScalingFacts.shape_scale; assumption|]. split.
  - intros i j Hi Hj. rewrite (ScalingFacts.entry_scale n c) by assumption.
    pose proof (Hmpos j Hj) as Hm. pose proof (Hpos i j Hi Hj) as Hp.
    pose proof (ScalingFacts.vmax_ge _ _ (ScalingFacts.col_entry_in n c X i j HX Hi)) as Hle.
    split.
    + apply Rlt_le, Rdiv_lt_0_compat; assumption.
    + apply Rmult_le_reg_r with (Scaling.vmax (Tensor.col j X)); [exact Hm|].
      unfold Rdiv. rewrite Rmult_assoc, Rinv_l by lra. lra.
  - intros j Hj. destruct (Hmax j Hj) as (i & Hi & E). exists i. split; [exact Hi|].
    rewrite (ScalingFacts.entry_scale n c) by assumption. rewrite E.
    pose proof (Hmpos j Hj). field. lra.
Qed.

Lemma scaling_maps_into_the_unit_interval_witness :
  Tensor.shape 3 2 (Scaling.scale Scaling.X_raw) /\
  exists i, i < 3 /\ Tensor.entry (Scaling.scale Scaling.X_raw) i 0 = 1%R.
Proof.
  assert (HX : Tensor.shape 3 2 Scaling.X_raw)
    by (split; [reflexivity | repeat constructor]).
  assert (Hpos : forall i j, i < 3 -> j < 2 -> (0 < Tensor.entry Scaling.X_raw i j)%R).
  { intros i j Hi Hj.
    destruct i as [|[|[|i]]]; [| | |lia]; destruct j as [|[|j]]; try lia;
      unfold Tensor.entry, Scaling.X_raw; simpl; lra. }
  destruct (scaling_maps_into_the_unit_interval 3 2 Scaling.X_raw
              ltac:(lia) HX Hpos) as (Hs & _ & Hone).
  split; [exact Hs | apply Hone; lia].
Defined.

(** ** One call of [train] and the printed loss *)

Module DescentFacts.
Import Tensor Neural_Network MatrixFacts Descent.

Lemma nth_insert_eq {A} (l : list A) (i : nat) (x d : A) :
  i < length l -> nth i (<[i := x]> l) d = x.
Proof. intros H. rewrite nth_lookup, list_lookup_insert_eq by exact H. reflexivity. Qed.

Lemma nth_insert_ne {A} (l : list A) (i j : nat) (x d : A) :
  i <> j -> nth j (<[i := x]> l) d = nth j l d.
Proof. intros H. rewrite !nth_lookup, list_lookup_insert_ne by exact H. reflexivity. Qed.

Lemma shape_set_entry (r c : nat) (m : mat) (i j : nat) (v : R) :
  shape r c m -> i < r -> shape r c (set_entry m i j v).
Proof.
  intros [Hl Hr] Hi. unfold set_entry. split; [rewrite length_insert; exact Hl|].
  apply Forall_insert; [exact Hr|]. cbv beta. rewrite length_insert.
  rewrite Forall_forall in Hr. apply Hr, list_elem_of_In, nth_In. rewrite Hl. exact Hi.
Qed.

Lemma entry_set_entry (r c : nat) (m : mat) (i j i' j' : nat) (v : R) :
  shape r c m -> i < r -> j < c ->
  entry (set_entry m i j v) i' j'
  = if ((i' =? i) && (j' =? j))%nat then v else entry m i' j'.
Proof.
  intros Hs Hi Hj. pose proof (shape_nth _ _ _ _ Hs Hi) as Hrow. destruct Hs as [Hl _].
  unfold set_entry, entry.
  destruct (Nat.eqb_spec i' i) as [->|Hne]; simpl.
  - rewrite nth_insert_eq by (rewrite Hl; exact Hi).
    destruct (Nat.eqb_spec j' j) as [->|Hne'].
    + apply nth_insert_eq. rewrite Hrow. exact Hj.
    + apply nth_insert_ne. congruence.
  - rewrite nth_insert_ne by congruence. reflexivity.
Qed.

(** The entries of a matrix of one column, in a row. *)
Lemma concat_column (m : mat) :
  forall n, shape n 1 m -> concat m = map (fun i => entry m i 0) (seq 0 n).
Proof.
  induction m as [|row m IH]; intros n [Hl Hr]; simpl in Hl; subst n; [reflexivity|].
  inversion Hr as [|? ? Hrow Hrows]; subst.
  destruct row as [|a [|? ?]]; simpl in Hrow; try discriminate.
  simpl. f_equal. rewrite <- seq_shift, map_map.
  apply (IH (length m)). split; [reflexivity | exact Hrows].
Qed.

Lemma mse_entries (n : nat) (y o : mat) :
  shape n 1 y -> shape n 1 o ->
  Scratch.mse y o
  = (bigsum n (fun i => (entry y i 0 - entry o i 0) * (entry y i 0 - entry o i 0))
     / INR n)%R.
Proof.
  intros Hy Ho. unfold Scratch.mse, mean.
  assert (Hm : shape n 1 (mmap (fun d => d * d)%R (msub y o)))
    by (apply shape_mmap, shape_mzip; assumption).
  rewrite (concat_column _ n Hm), length_map, length_seq. f_equal.
  unfold vsum. change (fold_right Rplus 0%R (map ?f (seq 0 n))) with (bigsum n f).
  apply bigsum_ext. intros i Hi.
  rewrite (entry_mmap _ n 1) by (try lia; apply shape_mzip; assumption).
  unfold msub. rewrite (entry_mzip _ n 1) by (assumption || lia). reflexivity.
Qed.

Lemma derivable_bigsum (n : nat) :
  forall (F : nat -> R -> R) (G : nat -> R) (x : R),
    (forall i, i < n -> derivable_pt_lim (F i) x (G i)) ->
    derivable_pt_lim (fun w => bigsum n (fun i => F i w)) x (bigsum n G).
Proof.
  induction n as [|n IH]; intros F G x H.
  - apply derivable_pt_lim_ext with (f := fct_cte 0); [intros; reflexivity|].
    apply derivable_pt_lim_const.
  - apply derivable_pt_lim_ext
      with (f := (F 0 + (fun w => bigsum n (fun i => F (S i) w)))%F).
    + intros w. rewrite bigsum_S. reflexivity.
    + rewrite bigsum_S. apply derivable_pt_lim_plus; [apply H; lia|].
      apply (IH (fun i => F (S i)) (fun i => G (S i))). intros i Hi. apply H. lia.
Qed.

Lemma bigsum_pick (n k : nat) (a : nat -> R) :
  k < n -> bigsum n (fun i => if (i =? k)%nat then a i else 0%R) = a k.
Proof.
  revert k a; induction n as [|n IH]; intros k a Hk; [lia|].
  rewrite bigsum_S. destruct k as [|k]; simpl.
  - assert (Z : forall m, bigsum m (fun _ => 0%R) = 0%R).
    { induction m as [|m IHm]; [reflexivity|]. rewrite bigsum_S, IHm. lra. }
    rewrite Z. lra.
  - rewrite (IH k (fun i => a (S i))) by lia. lra.
Qed.

(** The derivative of one squared error, given that of the input of the
    last sigmoid. *)
Lemma derivable_sq_error (t : R) (s : R -> R) (x ds : R) :
  derivable_pt_lim s x ds ->
  derivable_pt_lim (fun w => (t - sigmoid (s w)) * (t - sigmoid (s w)))%R x
    (- 2 * ((t - sigmoid (s x)) * sigmoidPrime (sigmoid (s x))) * ds)%R.
Proof.
  intros Hs.
  pose proof (derivable_pt_lim_comp s sigmoid x ds _ Hs (NNFacts.sigmoid_derivable (s x)))
    as Hc.
  pose proof (derivable_pt_lim_minus (fct_cte t) (comp sigmoid s) x 0 _
                (derivable_pt_lim_const t x) Hc) as Hm.
  pose proof (derivable_pt_lim_mult _ _ x _ _ Hm Hm) as Hq.
  eapply derivable_pt_lim_ext; [|
    match type of Hq with derivable_pt_lim _ _ ?l =>
      replace (- 2 * ((t - sigmoid (s x)) * sigmoidPrime (sigmoid (s x))) * ds)%R with l;
      [exact Hq|] end].
  - intros w. reflexivity.
  - unfold minus_fct, fct_cte, comp. lra.
Qed.

Lemma bigsum_scal (n : nat) (c : R) (a : nat -> R) :
  bigsum n (fun i => c * a i)%R = (c * bigsum n a)%R.
Proof.
  revert a; induction n as [|n IH]; intros a.
  - unfold bigsum; simpl. lra.
  - rewrite !bigsum_S, IH. lra.
Qed.

Lemma derivable_pick (c old x : R) (b : bool) :
  derivable_pt_lim (fun w => c * (if b then w else old))%R x (if b then c else 0%R).
Proof.
  destruct b.
  - apply derivable_pt_lim_ext with (f := mult_real_fct c id); [intros; reflexivity|].
    replace c with (c * 1)%R at 2 by lra.
    apply derivable_pt_lim_scal, derivable_pt_lim_id.
  - apply derivable_pt_lim_ext with (f := fct_cte (c * old)); [intros; reflexivity|].
    apply derivable_pt_lim_const.
Qed.

Lemma derivable_mean (n : nat) (B : R -> R) (x l : R) :
  derivable_pt_lim B x l ->
  derivable_pt_lim (fun w => B w / INR n)%R x (l / INR n)%R.
Proof.
  intros H.
  apply derivable_pt_lim_ext with (f := mult_real_fct (/ INR n) B).
  - intros w. unfold mult_real_fct. lra.
  - replace (l / INR n)%R with (/ INR n * l)%R by (unfold Rdiv; lra).
    apply derivable_pt_lim_scal, H.
Qed.

Section Step.
Variables (nn : Neural_Network.t) (X y : mat) (n : nat).
Hypotheses (Hn : 0 < n) (HX : shape n 2 X) (Hy : shape n 1 y)
           (HW1 : shape 2 3 (W1 nn)) (HW2 : shape 3 1 (W2 nn)).

Lemma loss_in_W2_entries (k : nat) (w : R) :
  k < 3 ->
  loss_in_W2 nn X y k w
  = (bigsum n (fun i => (entry y i 0 - sigmoid (s2 nn X k i w))
                        * (entry y i 0 - sigmoid (s2 nn X k i w))) / INR n)%R.
Proof.
  intros Hk. unfold loss_in_W2.
  assert (HW2' : shape 3 1 (W2 (with_W2 nn k w)))
    by (apply shape_set_entry; assumption).
  destruct (NNFacts.forward_entries (with_W2 nn k w) X n Hn HX HW1 HW2')
    as (_ & _ & _ & So & _ & Eo).
  rewrite (mse_entries n) by assumption. f_equal.
  apply bigsum_ext. intros i Hi. rewrite Eo by exact Hi.
  assert (E : out (with_W2 nn k w) X i = sigmoid (s2 nn X k i w)).
  { unfold out, s2. f_equal. apply bigsum_ext. intros k' Hk'.
    change (W2 (with_W2 nn k w)) with (set_entry (W2 nn) k 0 w).
    rewrite (entry_set_entry 3 1) by (assumption || lia).
    rewrite Nat.eqb_refl, andb_true_r. reflexivity. }
  rewrite E. reflexivity.
Qed.

Lemma s2_here (k i : nat) :
  sigmoid (s2 nn X k i (entry (W2 nn) k 0)) = out nn X i.
Proof.
  unfold s2, out. f_equal. apply bigsum_ext. intros k' _.
  destruct (Nat.eqb_spec k' k) as [->|_]; reflexivity.
Qed.

Lemma s2_derivable (k i : nat) (x : R) :
  k < 3 -> derivable_pt_lim (s2 nn X k i) x (hidden nn X i k).
Proof.
  intros Hk. unfold s2.
  rewrite <- (bigsum_pick 3 k (fun k' => hidden nn X i k') Hk).
  apply (derivable_bigsum 3
           (fun k' w => hidden nn X i k'
                        * (if (k' =? k)%nat then w else entry (W2 nn) k' 0))%R).
  intros k' _. apply derivable_pick.
Qed.

Lemma loss_in_W2_derivable (k : nat) :
  k < 3 ->
  derivable_pt_lim (loss_in_W2 nn X y k) (entry (W2 nn) k 0)
    (- 2 * bigsum n (fun i => hidden nn X i k * delta nn X y i) / INR n)%R.
Proof.
  intros Hk.
  apply derivable_pt_lim_ext
    with (f := fun w => (bigsum n (fun i => (entry y i 0 - sigmoid (s2 nn X k i w))
                                           * (entry y i 0 - sigmoid (s2 nn X k i w)))
                         / INR n)%R);
    [intros w; symmetry; apply loss_in_W2_entries, Hk|].
  apply derivable_mean. rewrite <- bigsum_scal.
  apply (derivable_bigsum n
           (fun i w => (entry y i 0 - sigmoid (s2 nn X k i w))
                       * (entry y i 0 - sigmoid (s2 nn X k i w)))%R).
  intros i _.
  pose proof (derivable_sq_error (entry y i 0) (s2 nn X k i) (entry (W2 nn) k 0) _
                (s2_derivable k i (entry (W2 nn) k 0) Hk)) as H.
  rewrite s2_here in H. fold (delta nn X y i) in H.
  replace (-2 * (hidden nn X i k * delta nn X y i))%R
    with (-2 * delta nn X y i * hidden nn X i k)%R by lra.
  exact H.
Qed.

Lemma loss_in_W1_entries (j k : nat) (w : R) :
  j < 2 -> k < 3 ->
  loss_in_W1 nn X y j k w
  = (bigsum n (fun i => (entry y i 0 - sigmoid (s1 nn X j k i w))
                        * (entry y i 0 - sigmoid (s1 nn X j k i w))) / INR n)%R.
Proof.
  intros Hj Hk. unfold loss_in_W1.
  assert (HW1' : shape 2 3 (W1 (with_W1 nn j k w)))
    by (apply shape_set_entry; assumption).
  destruct (NNFacts.forward_entries (with_W1 nn j k w) X n Hn HX HW1' HW2)
    as (_ & _ & _ & So & _ & Eo).
  rewrite (mse_entries n) by assumption. f_equal.
  apply bigsum_ext. intros i Hi. rewrite Eo by exact Hi.
  assert (E : out (with_W1 nn j k w) X i = sigmoid (s1 nn X j k i w)).
  { unfold out, s1. f_equal. apply bigsum_ext. intros k' Hk'.
    f_equal. unfold hidden, u1. f_equal. apply bigsum_ext. intros j' Hj'.
    change (W1 (with_W1 nn j k w)) with (set_entry (W1 nn) j k w).
    rewrite (entry_set_entry 2 3) by assumption. reflexivity. }
  rewrite E. reflexivity.
Qed.

Lemma u1_here (j k i k' : nat) :
  sigmoid (u1 nn X j k i k' (entry (W1 nn) j k)) = hidden nn X i k'.
Proof.
  unfold u1, hidden. f_equal. apply bigsum_ext. intros j' _.
  destruct (Nat.eqb_spec j' j) as [->|_]; [|reflexivity].
  destruct (Nat.eqb_spec k' k) as [->|_]; reflexivity.
Qed.

Lemma s1_here (j k i : nat) :
  sigmoid (s1 nn X j k i (entry (W1 nn) j k)) = out nn X i.
Proof.
  unfold s1, out. f_equal. apply bigsum_ext. intros k' _. rewrite u1_here. reflexivity.
Qed.

Lemma u1_derivable (j k i k' : nat) (x : R) :
  j < 2 ->
  derivable_pt_lim (u1 nn X j k i k') x (if (k' =? k)%nat then entry X i j else 0%R).
Proof.
  intros Hj. unfold u1.
  replace (if (k' =? k)%nat then entry X i j else 0%R)
    with (bigsum 2 (fun j' => if (j' =? j)%nat
                              then (if (k' =? k)%nat then entry X i j' else 0%R)
                              else 0%R))
    by (rewrite (bigsum_pick 2 j (fun j' => if (k' =? k)%nat then entry X i j' else 0%R) Hj);
        reflexivity).
  apply (derivable_bigsum 2
           (fun j' w => entry X i j'
                        * (if ((j' =? j) && (k' =? k))%nat then w
                           else entry (W1 nn) j' k'))%R).
  intros j' _.
  pose proof (derivable_pick (entry X i j') (entry (W1 nn) j' k') x
                             ((j' =? j) && (k' =? k))%nat) as H.
  destruct (j' =? j)%nat, (k' =? k)%nat; exact H.
Qed.

Lemma s1_derivable (j k i : nat) :
  j < 2 -> k < 3 ->
  derivable_pt_lim (s1 nn X j k i) (entry (W1 nn) j k)
    (sigmoidPrime (hidden nn X i k) * entry X i j * entry (W2 nn) k 0)%R.
Proof.
  intros Hj Hk. unfold s1.
  rewrite <- (bigsum_pick 3 k
                (fun k' => sigmoidPrime (hidden nn X i k') * entry X i j
                           * entry (W2 nn) k' 0)%R Hk).
  apply (derivable_bigsum 3
           (fun k' w => sigmoid (u1 nn X j k i k' w) * entry (W2 nn) k' 0)%R).
  intros k' _.
  pose proof (derivable_pt_lim_comp (u1 nn X j k i k') sigmoid (entry (W1 nn) j k) _ _
                (u1_derivable j k i k' (entry (W1 nn) j k) Hj)
                (NNFacts.sigmoid_derivable _)) as Hc.
  rewrite u1_here in Hc.
  pose proof (derivable_pt_lim_mult _ _ _ _ _ Hc
                (derivable_pt_lim_const (entry (W2 nn) k' 0) (entry (W1 nn) j k))) as Hm.
  eapply derivable_pt_lim_ext; [|
    match type of Hm with derivable_pt_lim _ _ ?l =>
      match goal with |- derivable_pt_lim _ _ ?g => replace g with l; [exact Hm|] end
    end].
  - intros w. reflexivity.
  - unfold fct_cte, comp. rewrite u1_here.
    destruct (k' =? k)%nat; lra.
Qed.

Lemma loss_in_W1_derivable (j k : nat) :
  j < 2 -> k < 3 ->
  derivable_pt_lim (loss_in_W1 nn X y j k) (entry (W1 nn) j k)
    (- 2 * bigsum n (fun i => entry X i j
                              * (delta nn X y i * entry (W2 nn) k 0
                                 * sigmoidPrime (hidden nn X i k))) / INR n)%R.
Proof.
  intros Hj Hk.
  apply derivable_pt_lim_ext
    with (f := fun w => (bigsum n (fun i => (entry y i 0 - sigmoid (s1 nn X j k i w))
                                           * (entry y i 0 - sigmoid (s1 nn X j k i w)))
                         / INR n)%R);
    [intros w; symmetry; apply loss_in_W1_entries; assumption|].
  apply derivable_mean. rewrite <- bigsum_scal.
  apply (derivable_bigsum n
           (fun i w => (entry y i 0 - sigmoid (s1 nn X j k i w))
                       * (entry y i 0 - sigmoid (s1 nn X j k i w)))%R).
  intros i _.
  pose proof (derivable_sq_error (entry y i 0) (s1 nn X j k i) (entry (W1 nn) j k) _
                (s1_derivable j k i Hj Hk)) as H.
  rewrite s1_here in H. fold (delta nn X y i) in H.
  match type of H with derivable_pt_lim _ _ ?l =>
    match goal with |- derivable_pt_lim _ _ ?g => replace g with l; [exact H | lra] end
  end.
Qed.

Lemma loss_here :
  (forall k, k < 3 ->
     loss_in_W2 nn X y k (entry (W2 nn) k 0) = Scratch.mse y (fst (forward nn X))) /\
  (forall j k, j < 2 -> k < 3 ->
     loss_in_W1 nn X y j k (entry (W1 nn) j k) = Scratch.mse y (fst (forward nn X))).
Proof.
  destruct (NNFacts.forward_entries nn X n Hn HX HW1 HW2) as (_ & _ & _ & So & _ & Eo).
  assert (E : Scratch.mse y (fst (forward nn X))
              = (bigsum n (fun i => (entry y i 0 - out nn X i)
                                    * (entry y i 0 - out nn X i)) / INR n)%R).
  { rewrite (mse_entries n) by assumption. f_equal.
    apply bigsum_ext. intros i Hi. rewrite Eo by exact Hi. reflexivity. }
  split.
  - intros k Hk. rewrite loss_in_W2_entries, E by exact Hk. f_equal.
    apply bigsum_ext. intros i _. rewrite s2_here. reflexivity.
  - intros j k Hj Hk. rewrite loss_in_W1_entries, E by assumption. f_equal.
    apply bigsum_ext. intros i _. rewrite s1_here. reflexivity.
Qed.

Lemma half_n (g s : R) :
  g = (- 2 * s / INR n)%R -> (INR n / 2 * g = - s)%R.
Proof.
  intros ->. assert (0 < INR n)%R by (apply lt_0_INR; exact Hn). field. lra.
Qed.

End Step.

End DescentFacts.

(** X14.  One call of [train] is a step of gradient descent on the loss
    that the loop prints.  For [n] samples and weights of the shapes of
    [__init__], the printed loss [torch.mean((y - NN(X))**2)] is
    differentiable in every weight, and [train] replaces every entry of
    [W2] and of [W1] by its value minus [n / 2] times the partial
    derivative of that loss in that entry, all derivatives being taken at
    the weights before the call. *)
Theorem train_is_a_gradient_step
        (nn : Neural_Network.t) (X y : Tensor.mat) (n : nat) :
  0 < n -> Tensor.shape n 2 X -> Tensor.shape n 1 y ->
  Tensor.shape 2 3 (Neural_Network.W1 nn) ->
  Tensor.shape 3 1 (Neural_Network.W2 nn) ->
  (forall k, k < 3 ->
     Descent.loss_in_W2 nn X y k (Tensor.entry (Neural_Network.W2 nn) k 0)
     = Scratch.mse y (fst (Neural_Network.forward nn X)) /\
     exists g,
       derivable_pt_lim (Descent.loss_in_W2 nn X y k)
                        (Tensor.entry (Neural_Network.W2 nn) k 0) g /\
       Tensor.entry (Neural_Network.W2 (Neural_Network.train nn X y)) k 0
       = (Tensor.entry (Neural_Network.W2 nn) k 0 - INR n / 2 * g)%R) /\
  (forall j k, j < 2 -> k < 3 ->
     Descent.loss_in_W1 nn X y j k (Tensor.entry (Neural_Network.W1 nn) j k)
     = Scratch.mse y (fst (Neural_Network.forward nn X)) /\
     exists g,
       derivable_pt_lim (Descent.loss_in_W1 nn X y j k)
                        (Tensor.entry (Neural_Network.W1 nn) j k) g /\
       Tensor.entry (Neural_Network.W1 (Neural_Network.train nn X y)) j k
       = (Tensor.entry (Neural_Network.W1 nn) j k - INR n / 2 * g)%R).
Proof.
  intros Hn HX Hy HW1 HW2.
  destruct (NNFacts.train_entries nn X y n Hn HX Hy HW1 HW2) as [T2 T1].
  destruct (DescentFacts.loss_here nn X y n Hn HX Hy HW1 HW2) as [L2 L1].
  split.
  - intros k Hk. split; [apply L2, Hk|].
    eexists. split; [apply (DescentFacts.loss_in_W2_derivable nn X y n); assumption|].
    rewrite (DescentFacts.half_n n Hn _ _ eq_refl), (T2 k Hk). lra.
  - intros j k Hj Hk. split; [apply L1; assumption|].
    eexists. split; [apply (DescentFacts.loss_in_W1_derivable nn X y n); assumption|].
    rewrite (DescentFacts.half_n n Hn _ _ eq_refl), (T1 j k Hj Hk). lra.
Qed.

Lemma train_is_a_gradient_step_witness :
  exists g,
    derivable_pt_lim
      (Descent.loss_in_W2 (Neural_Network.init W1_zero W2_zero) Scratch.X Scratch.y 0)
      (Tensor.entry W2_zero 0 0) g /\
    Tensor.entry (Neural_Network.W2
                    (Neural_Network.train (Neural_Network.init W1_zero W2_zero)
                                          Scratch.X Scratch.y)) 0 0
    = (Tensor.entry W2_zero 0 0 - INR 3 / 2 * g)%R.
Proof.
  assert (HX : Tensor.shape 3 2 Scratch.X) by (split; [reflexivity | repeat constructor]).
  assert (Hy : Tensor.shape 3 1 Scratch.y) by (split; [reflexivity | repeat constructor]).
  assert (H1 : Tensor.shape 2 3 W1_zero) by (split; [reflexivity | repeat constructor]).
  assert (H2 : Tensor.shape 3 1 W2_zero) by (split; [reflexivity | repeat constructor]).
  exact (proj2 (proj1 (train_is_a_gradient_step
                         (Neural_Network.init W1_zero W2_zero) Scratch.X Scratch.y 3
                         ltac:(lia) HX Hy H1 H2) 0 ltac:(lia))).
Defined.

(** ** The range of the outputs and the printed loss *)

Module LossFacts.
Import Tensor Neural_Network MatrixFacts.

Lemma sigmoid_range (s : R) : (0 < sigmoid s < 1)%R.
Proof.
  unfold sigmoid. pose proof (exp_pos (- s)) as H.
  split.
  - apply Rdiv_lt_0_compat; lra.
  - apply Rmult_lt_reg_r with (1 + exp (- s))%R; [lra|].
    unfold Rdiv. rewrite Rmult_assoc, Rinv_l by lra. lra.
Qed.

Lemma bigsum_nonneg (n : nat) (f : nat -> R) :
  (forall i, i < n -> (0 <= f i)%R) -> (0 <= bigsum n f)%R.
Proof.
  revert f; induction n as [|n IH]; intros f H.
  - unfold bigsum; simpl. lra.
  - rewrite bigsum_S. pose proof (H 0 ltac:(lia)).
    pose proof (IH (fun i => f (S i)) ltac:(intros i Hi; apply H; lia)). lra.
Qed.

End LossFacts.

(** ** The order in which indices are given *)

Module OrderFacts.
Import Vocab Tags Order.

Lemma numbers_add_tag (m : gmap string nat) (order : list string) (w : string) :
  numbers m order -> numbers (add_tag m w) (see order w).
Proof.
  intros [Hs Hn]. unfold add_tag, see.
  destruct (m !! w) as [i|] eqn:E.
  - assert (Hin : w ∈ order) by (apply Hn in E; eapply list_elem_of_lookup_2, E).
    rewrite decide_True by exact Hin. split; assumption.
  - assert (Hnin : w ∉ order).
    { intros Hin. apply list_elem_of_lookup_1 in Hin as (i & Hi).
      apply Hn in Hi. congruence. }
    rewrite decide_False by exact Hnin. split.
    + rewrite map_size_insert_None, length_app by exact E. simpl. lia.
    + intros w' i. rewrite lookup_insert_Some, lookup_app_Some, Hs. split.
      * intros [[<- <-]|[Hne Hw']].
        -- right. split; [lia|]. rewrite Nat.sub_diag. reflexivity.
        -- left. apply Hn, Hw'.
      * intros [Hw'|[Hge Hw']].
        -- right. split; [|apply Hn, Hw'].
           intros <-. apply Hnin. eapply list_elem_of_lookup_2, Hw'.
        -- apply list_lookup_singleton_Some in Hw' as [Hi <-].
           left. split; [reflexivity | lia].
Qed.

Lemma numbers_fold (ws : list string) :
  forall m order, numbers m order ->
    numbers (fold_left add_tag ws m) (fold_left see ws order).
Proof.
  induction ws as [|w ws IH]; intros m order H; simpl; [exact H|].
  apply IH, numbers_add_tag, H.
Qed.

Lemma add_words_fold (ws : list string) (m : gmap string nat) :
  foldM (add_word false) ws m = inl (fold_left add_tag ws m).
Proof.
  revert m; induction ws as [|w ws IH]; intros m; simpl; [reflexivity|].
  unfold add_word at 1, add_tag at 2. simpl.
  destruct (m !! w); simpl; apply IH.
Qed.

Lemma create_dict_words (data : list (list string)) (d d' : dicts) :
  create_dict data false d = inl d' ->
  word_to_index d' = fold_left add_tag (words_of data) (word_to_index d).
Proof.
  unfold create_dict. revert d; induction data as [|line data IH]; intros d H; simpl in H.
  - inversion H; subst. reflexivity.
  - apply bind_ok in H as (d1 & H1 & H). rewrite (IH _ H).
    unfold create_dict_line in H1.
    apply bind_ok in H1 as (text & Ht & H1).
    rewrite add_words_fold in H1. simpl in H1.
    apply bind_ok in H1 as (tag & _ & H1).
    inversion H1; subst. cbn [word_to_index]. unfold index in Ht.
    unfold words_of; cbn [flat_map]; fold (words_of data).
    destruct (nth_error line 1) as [text'|]; [|discriminate].
    inversion Ht; subst. rewrite fold_left_app. reflexivity.
Qed.

Lemma numbers_empty : numbers ∅ [].
Proof.
  split; [apply map_size_empty|]. intros w i.
  rewrite lookup_empty, lookup_nil. split; discriminate.
Qed.

Lemma init_add_tag : word_to_index init = add_tag ∅ unk.
Proof. unfold add_tag. rewrite lookup_empty. reflexivity. Qed.

End OrderFacts.

(** X15.  Indices are given in the order of first appearance.  When the
    cell has run, the index of a word after the call of [create_dict] on
    the training data is its position in the list of ["<unk>"] and the
    training words, each kept where it first appears; the index of a tag
    is its position in the same list of the tags of the training lines
    followed by those of the test lines; and the sizes of the two
    dictionaries are the lengths of these lists. *)
Theorem indices_follow_first_appearance
        (train test : list (list string)) (p : Vocab.prepared) :
  Vocab.prepare train test = inl p ->
  let w1 := Vocab.word_to_index (Vocab.after_train p) in
  let t2 := Vocab.tag_to_index (Vocab.final p) in
  let words := Order.first_seen ("<unk>" :: Vocab.words_of train) in
  let tags := Order.first_seen (Tags.tags_of train ++ Tags.tags_of test) in
  (forall w i, w1 !! w = Some i <-> words !! i = Some w) /\
  (forall k i, t2 !! k = Some i <-> tags !! i = Some k) /\
  size w1 = length words /\
  Vocab.number_of_tags p = length tags.
Proof.
  intros H w1 t2 words tags.
  destruct (DictFacts.prepare_inv _ _ _ H) as (H1 & H2 & _ & _ & _ & En).
  assert (Nw : Order.numbers w1 words).
  { unfold w1, words. rewrite (OrderFacts.create_dict_words _ _ _ H1).
    rewrite OrderFacts.init_add_tag.
    apply (OrderFacts.numbers_fold ("<unk>" :: Vocab.words_of train) ∅ []),
      OrderFacts.numbers_empty. }
  assert (Nt : Order.numbers t2 tags).
  { unfold t2, tags.
    rewrite (DictFacts.create_dict_tags _ _ _ _ H2), (DictFacts.create_dict_tags _ _ _ _ H1).
    rewrite <- fold_left_app.
    apply OrderFacts.numbers_fold, OrderFacts.numbers_empty. }
  destruct Nw as [Sw Nw], Nt as [St Nt].
  split; [exact Nw|]. split; [exact Nt|]. split; [exact Sw|].
  rewrite En. exact St.
Qed.

Lemma indices_follow_first_appearance_witness :
  exists p, Vocab.prepare corpus_train corpus_test = inl p /\
    Vocab.number_of_tags p = 2 /\
    size (Vocab.word_to_index (Vocab.after_train p)) = 5.
Proof.
  assert (E : exists p, Vocab.prepare corpus_train corpus_test = inl p)
    by (vm_compute; eexists; reflexivity).
  destruct E as (p & E). exists p. split; [exact E|].
  destruct (indices_follow_first_appearance corpus_train corpus_test p E)
    as (_ & _ & Hw & Ht).
  split; [rewrite Ht | rewrite Hw]; vm_compute; reflexivity.
Defined.

(** ** Words between two spaces *)

Module EmptyWordFacts.
Import PyStr.

Lemma split_space_cons (t : string) :
  split " " (String " " t) = EmptyString :: split " " t.
Proof. unfold split. destruct t; reflexivity. Qed.

Lemma split_other_cons (c : ascii) (t : string) :
  c <> " "%char ->
  split " " (String c t)
  = match split " " t with
    | p :: ps => String c p :: ps
    | [] => [String c EmptyString]
    end.
Proof.
  intros Hc. unfold split. rewrite CleaningFacts.split_from_cons_0.
  assert (E : String.prefix " " (String c t) = false).
  { change (String.prefix " " (String c t))
      with (if ascii_dec " " c then String.prefix EmptyString t else false).
    destruct (ascii_dec " " c) as [<-|_]; [congruence | reflexivity]. }
  rewrite E. reflexivity.
Qed.

(** Behind two spaces in a row there is an empty word. *)
Lemma empty_word_behind (a b : string) :
  In EmptyString (tl (split " " (a ++ "  " ++ b))).
Proof.
  induction a as [|c a IH].
  - rewrite PyStrFacts.append_nil_l.
    change ("  " ++ b)%string with (String " " (String " " b)).
    rewrite !split_space_cons. left. reflexivity.
  - rewrite PyStrFacts.append_cons.
    destruct (ascii_dec c " ") as [->|Hc].
    + rewrite split_space_cons. simpl.
      destruct (split " " (a ++ "  " ++ b)) as [|p ps]; [destruct IH|].
      right. exact IH.
    + rewrite split_other_cons by exact Hc.
      destruct (split " " (a ++ "  " ++ b)) as [|p ps]; [destruct IH|].
      exact IH.
Qed.

End EmptyWordFacts.

(** X16.  Two spaces in a row make the empty string a word.  The texts
    are split at single spaces, so a text that holds two spaces in a row,
    or that starts with a space, has the empty string among its words; when
    the cell has run on training data with such a text, the empty string
    is a key of [word_to_index], with an index that is not the index 0 of
    ["<unk>"] and is below [number_of_words]. *)
Theorem double_space_makes_an_empty_word
        (train test : list (list string)) (p : Vocab.prepared)
        (line : list string) (text : string) :
  Vocab.prepare train test = inl p ->
  In line train -> nth_error line 1 = Some text ->
  PyStr.contains "  " text \/ String.prefix " " text = true ->
  In EmptyString (PyStr.split " " text) /\
  exists i, Vocab.word_to_index (Vocab.after_train p) !! EmptyString = Some i /\
            0 < i < Vocab.number_of_words p.
Proof.
  intros H Hline Htext Hsp.
  assert (Hin : In EmptyString (PyStr.split " " text)).
  { destruct Hsp as [(a & b & ->)|Hp].
    - pose proof (EmptyWordFacts.empty_word_behind a b) as Ht.
      destruct (PyStr.split " " (a ++ "  " ++ b)); [destruct Ht | right; exact Ht].
    - apply PyStrFacts.prefix_append in Hp as (b & ->).
      change (" " ++ b)%string with (String " " b).
      rewrite EmptyWordFacts.split_space_cons. left. reflexivity. }
  split; [exact Hin|].
  destruct (DictFacts.prepare_keys _ _ _ H) as [K1 _].
  destruct (proj2 (K1 EmptyString)) as (i & Hi).
  { right. exact (DictFacts.words_of_line _ _ _ _ Hline Htext Hin). }
  exists i. split; [exact Hi|].
  destruct (PrepareFacts.prepare_ok_fields _ _ _ H) as [Htr Hte].
  destruct (PrepareFacts.prepare_spec train test Htr Hte)
    as (p' & E & (Hu & Hb & Hinj) & [S12 _] & _ & _ & _ & _ & En).
  assert (p' = p) by congruence; subst p'.
  split.
  - destruct i as [|i]; [|lia]. exfalso.
    assert (Habs : EmptyString = Vocab.unk) by (eapply Hinj; eassumption).
    discriminate.
  - rewrite En. apply Hb in Hi. pose proof (map_subseteq_size _ _ S12). lia.
Qed.

Lemma double_space_makes_an_empty_word_witness :
  exists p i,
    Vocab.prepare (Vocab.read_data ["3 ||| I  love dogs"]) corpus_test = inl p /\
    Vocab.word_to_index (Vocab.after_train p) !! EmptyString = Some i /\
    0 < i < Vocab.number_of_words p.
Proof.
  assert (E : exists p, Vocab.prepare (Vocab.read_data ["3 ||| I  love dogs"])
                                      corpus_test = inl p)
    by (vm_compute; eexists; reflexivity).
  destruct E as (p & E).
  destruct (double_space_makes_an_empty_word
              (Vocab.read_data ["3 ||| I  love dogs"]) corpus_test p
              ["3"; "i  love dogs"] "i  love dogs" E)
    as (_ & i & Hi & Hb).
  - left. vm_compute. reflexivity.
  - reflexivity.
  - left. exists "i", "love dogs". reflexivity.
  - exists p, i. split; [exact E|]. split; [exact Hi | exact Hb].
Defined.

(** ** The losses that the from-scratch loop prints *)

Module ScratchLoopFacts.
Import Tensor Neural_Network MatrixFacts Scratch Descent.

(** [train] keeps the shapes of the two weights. *)
Lemma train_shapes (nn : Neural_Network.t) (X y : mat) (n : nat) :
  0 < n -> shape n 2 X -> shape n 1 y ->
  shape 2 3 (W1 nn) -> shape 3 1 (W2 nn) ->
  shape 2 3 (W1 (train nn X y)) /\ shape 3 1 (W2 (train nn X y)).
Proof.
  intros Hn HX Hy HW1 HW2.
  destruct (NNFacts.forward_entries nn X n Hn HX HW1 HW2) as (E1 & E2 & Sz2 & So & _ & _).
  unfold train. destruct (forward nn X) as [o nn1]. simpl in E1, E2, Sz2, So.
  unfold backward. simpl. rewrite E1, E2.
  set (od := mmul (msub y o) (mmap sigmoidPrime o)).
  assert (Sod : shape n 1 od)
    by (apply shape_mzip; [apply shape_mzip; assumption | apply shape_mmap, So]).
  assert (C2 : ncols (W2 nn) = 1) by (eapply shape_ncols; [exact HW2 | lia]).
  assert (Cz2 : ncols (z2 nn1) = 3) by (eapply shape_ncols; [exact Sz2 | exact Hn]).
  assert (Cod : ncols od = 1) by (eapply shape_ncols; [exact Sod | exact Hn]).
  assert (CX : ncols X = 2) by (eapply shape_ncols; [exact HX | exact Hn]).
  assert (Stz2 : shape 3 n (Tensor.t (z2 nn1))).
  { pose proof (shape_t (z2 nn1)) as H. rewrite Cz2 in H.
    destruct Sz2 as [Hl _]. rewrite Hl in H. exact H. }
  assert (StW2 : shape 1 3 (Tensor.t (W2 nn))).
  { pose proof (shape_t (W2 nn)) as H. rewrite C2 in H.
    destruct HW2 as [Hl _]. rewrite Hl in H. exact H. }
  assert (CtW2 : ncols (Tensor.t (W2 nn)) = 3) by (eapply shape_ncols; [exact StW2 | lia]).
  assert (StX : shape 2 n (Tensor.t X)).
  { pose proof (shape_t X) as H. rewrite CX in H.
    destruct HX as [Hl _]. rewrite Hl in H. exact H. }
  set (z2e := matmul od (Tensor.t (W2 nn))).
  assert (Sz2e : shape n 3 z2e)
    by (eapply shape_matmul_cols; [exact Sod | exact CtW2]).
  set (z2d := mmul z2e (mmap sigmoidPrime (z2 nn1))).
  assert (Sz2d : shape n 3 z2d)
    by (apply shape_mzip; [exact Sz2e | apply shape_mmap, Sz2]).
  assert (Cz2d : ncols z2d = 3) by (eapply shape_ncols; [exact Sz2d | exact Hn]).
  split; unfold madd; apply shape_mzip; try assumption.
  - eapply shape_matmul_cols; [exact StX | exact Cz2d].
  - eapply shape_matmul_cols; [exact Stz2 | exact Cod].
Qed.

Lemma bigsum_le (n : nat) (f : nat -> R) (b : R) :
  (forall i, i < n -> (f i <= b)%R) -> (bigsum n f <= INR n * b)%R.
Proof.
  revert f; induction n as [|n IH]; intros f H.
  - unfold bigsum; simpl. lra.
  - rewrite bigsum_S, S_INR. pose proof (H 0 ltac:(lia)) as H0.
    pose proof (IH (fun i => f (S i)) ltac:(intros i Hi; apply H; lia)). lra.
Qed.

(** What the loss line of an iteration can show. *)
Lemma loss_bounds (nn : Neural_Network.t) (X y : mat) (n : nat) :
  0 < n -> shape n 2 X -> shape n 1 y ->
  shape 2 3 (W1 nn) -> shape 3 1 (W2 nn) ->
  (forall i, i < n -> (0 <= entry y i 0 <= 1)%R) ->
  let o := fst (forward nn X) in
  (0 <= mse y o <= 1)%R.
Proof.
  intros Hn HX Hy HW1 HW2 Hy01 o.
  destruct (NNFacts.forward_entries nn X n Hn HX HW1 HW2) as (_ & _ & _ & So & _ & Eo).
  fold o in So, Eo.
  assert (Hn' : (0 < INR n)%R) by (apply lt_0_INR; exact Hn).
  assert (Hrange : forall i, i < n -> (0 <= entry o i 0 <= 1)%R).
  { assert (Hs : forall s, (0 <= sigmoid s <= 1)%R)
      by (intros s; pose proof (LossFacts.sigmoid_range s); lra).
    intros i Hi. rewrite Eo by exact Hi. apply Hs. }
  set (sq := fun i => ((entry y i 0 - entry o i 0) * (entry y i 0 - entry o i 0))%R).
  assert (E : mse y o = (bigsum n sq / INR n)%R)
    by (apply DescentFacts.mse_entries; assumption).
  assert (Hsq : forall i, i < n -> (0 <= sq i)%R)
    by (intros i _; unfold sq; apply Rle_0_sqr).
  pose proof (LossFacts.bigsum_nonneg n sq Hsq) as Hsum.
  assert (Hinv : (0 < / INR n)%R) by (apply Rinv_0_lt_compat; exact Hn').
  assert (Hle : (bigsum n sq <= INR n * 1)%R).
  { apply bigsum_le. intros i Hi. unfold sq.
    pose proof (Hrange i Hi). pose proof (Hy01 i Hi). nra. }
  rewrite E. split; [unfold Rdiv; nra|].
  apply Rmult_le_reg_r with (INR n); [exact Hn'|].
  unfold Rdiv. rewrite Rmult_assoc, Rinv_l by lra. lra.
Qed.

Section Loop.
Variables (X y : mat) (n : nat).
Hypotheses (Hn : 0 < n) (HX : shape n 2 X) (Hy : shape n 1 y)
           (Hy01 : forall i, i < n -> (0 <= entry y i 0 <= 1)%R).

Lemma iteration_inv (s : state) (i : nat) : inv s -> inv (iteration X y s i).
Proof.
  intros (S1 & S2 & Hout).
  destruct (train_shapes (NN s) X y n Hn HX Hy S1 S2) as [T1 T2].
  pose proof (loss_bounds (NN s) X y n Hn HX Hy S1 S2 Hy01) as Hloss.
  destruct (NNFacts.forward_entries (NN s) X n Hn HX S1 S2) as (E1 & E2 & _).
  unfold iteration. destruct (i mod 100 =? 0)%nat.
  - destruct (forward (NN s) X) as [o nn1] eqn:Ef. simpl in E1, E2, Hloss.
    cbn [NN trace stdout].
    assert (S1' : shape 2 3 (W1 nn1)) by (rewrite E1; exact S1).
    assert (S2' : shape 3 1 (W2 nn1)) by (rewrite E2; exact S2).
    destruct (train_shapes nn1 X y n Hn HX Hy S1' S2') as [T1' T2'].
    split; [exact T1'|]. split; [exact T2'|].
    apply Forall_app. split; [exact Hout|].
    constructor; [|constructor]. exists i, (mse y o).
    split; [reflexivity | exact Hloss].
  - cbn [NN trace stdout]. split; [exact T1|]. split; [exact T2 | exact Hout].
Qed.

Lemma training_inv (l : list nat) : forall s, inv s -> inv (fold_left (iteration X y) l s).
Proof.
  induction l as [|i l IH]; intros s Hs; [exact Hs|].
  apply IH, iteration_inv, Hs.
Qed.

Lemma training_losses (w1 w2 : mat) :
  shape 2 3 w1 -> shape 3 1 w2 ->
  let s := training X y {| NN := init w1 w2; trace := []; stdout := [] |} in
  shape 2 3 (W1 (NN s)) /\ shape 3 1 (W2 (NN s)) /\
  Forall (fun l => exists i v, l = ScratchLoss i v /\ (0 <= v <= 1)%R) (stdout s).
Proof.
  intros S1 S2. apply training_inv. split; [exact S1|]. split; [exact S2 | constructor].
Qed.

End Loop.

End ScratchLoopFacts.

(** X18.  Every loss that the from-scratch loop prints lies between 0
    and 1.  For [n] samples, targets between 0 and 1, and initial weights
    of the shapes of [__init__], whatever [torch.randn] drew: after the
    1000 iterations the weights still have these shapes, and every line
    the loop printed is a loss line whose value is at least 0 and at most
    1.  The notebook's targets [92/100, 100/100, 89/100] are such. *)
Theorem scratch_losses_stay_in_the_unit_interval
        (w1 w2 X y : Tensor.mat) (n : nat) :
  0 < n -> Tensor.shape n 2 X -> Tensor.shape n 1 y ->
  (forall i, i < n -> (0 <= Tensor.entry y i 0 <= 1)%R) ->
  Tensor.shape 2 3 w1 -> Tensor.shape 3 1 w2 ->
  let s := Scratch.training X y {| Scratch.NN := Neural_Network.init w1 w2;
                                   Scratch.trace := []; Scratch.stdout := [] |} in
  Tensor.shape 2 3 (Neural_Network.W1 (Scratch.NN s)) /\
  Tensor.shape 3 1 (Neural_Network.W2 (Scratch.NN s)) /\
  Forall (fun l => exists i v, l = ScratchLoss i v /\ (0 <= v <= 1)%R) (Scratch.stdout s).
Proof.
  intros Hn HX Hy Hy01 S1 S2.
  exact (ScratchLoopFacts.training_losses X y n Hn HX Hy Hy01 w1 w2 S1 S2).
Qed.

Lemma scratch_losses_stay_in_the_unit_interval_witness :
  Forall (fun l => exists i v, l = ScratchLoss i v /\ (0 <= v <= 1)%R)
         (Scratch.stdout
            (Scratch.training Scratch.X Scratch.y
               {| Scratch.NN := Neural_Network.init W1_zero W2_zero;
                  Scratch.trace := []; Scratch.stdout := [] |})).
Proof.
  assert (HX : Tensor.shape 3 2 Scratch.X) by (split; [reflexivity | repeat constructor]).
  assert (Hy : Tensor.shape 3 1 Scratch.y) by (split; [reflexivity | repeat constructor]).
  assert (H1 : Tensor.shape 2 3 W1_zero) by (split; [reflexivity | repeat constructor]).
  assert (H2 : Tensor.shape 3 1 W2_zero) by (split; [reflexivity | repeat constructor]).
  assert (Hy01 : forall i, i < 3 -> (0 <= Tensor.entry Scratch.y i 0 <= 1)%R).
  { intros i Hi. destruct i as [|[|[|i]]]; [| | |lia];
      unfold Tensor.entry, Scratch.y; simpl; lra. }
  apply (scratch_losses_stay_in_the_unit_interval
           W1_zero W2_zero Scratch.X Scratch.y 3 ltac:(lia) HX Hy Hy01 H1 H2).
Defined.
